(** * Fresh 1.x -> 2.x update codemod: a shallow embedding of [update.ts]

    The development follows [src/update/src/update.ts].

    - [Ast]: the syntax trees the rewriter dispatches on, the member-access
      rewriter [rewriteCtxMemberName] and the statement walk
      [rewriteCtxMethods].
    - [Handler]: handler functions and the parameter normaliser
      [maybePrependReqVar].
    - [Imports]: import declarations and lines 394-465 of [updateFile].
    - [Text]: the text-level removal of directive lines.
    - [File]: source files and [updateFile].
    - [Manifest]: [deno.json] values, the edit script and [updateDenoJson].
    - [Project]: the per-file tasks of [updateProject] and its summary.

    ts-morph edits trees in place; here every edit is a function returning
    the edited tree.  Sets of names are insertion-ordered lists, as
    JavaScript's [Set] is.  The parsers of [@std/jsonc] and of ts-morph, the
    file system, and what saving and formatting a file may throw are
    parameters of the functions that call them; [addNamedImport] throws
    where ts-morph's does.  The properties come after the definitions: one
    module of facts per module of definitions, then further modules on the
    walk, the normaliser, the import loop, the per-file pass, the manifest
    and the driver. *)

From Stdlib Require Import String Ascii List Bool Arith Lia.
Import ListNotations.
Open Scope string_scope.
Set Warnings "-register-all".

(** ** Small string utilities shared by the whole development *)

Fixpoint join (sep : string) (l : list string) : string :=
  match l with
  | [] => ""
  | [x] => x
  | x :: rest => x ++ sep ++ join sep rest
  end.

(** The double quote and the line feed, as one-character strings. *)
Definition dq : string := String (ascii_of_nat 34) EmptyString.
Definition nl : string := String (ascii_of_nat 10) EmptyString.

(** JavaScript's [String.prototype.startsWith]. *)
Definition startsWith (s p : string) : bool := String.prefix p s.

(** ** Syntax trees *)

Module Ast.

(** The node kinds [rewriteCtxMethods], [rewriteCtxMemberName] and
    [getDescendantStatements] tell apart.  A node of any other kind, be it a
    statement or an expression, is [Other]: it carries its kind name, its
    children in the order [forEachChild] visits them, each with the text that
    precedes it, and the text after the last child.  [CaseClause] stands for
    the [case] and the [default] clauses of a [switch]. *)
Inductive Node : Type :=
| Identifier (text : string)
| NumericLiteral (text : string)
| PropertyAccessExpression (expression : Node) (name : string)
| CallExpression (expression : Node) (arguments : list Node)
| AwaitExpression (expression : Node)
| BinaryExpression (left : Node) (operator : string) (right : Node)
| ArrowFunction (parameters : string) (body : Node)
| Block (statements : list Node)
| CaseClause (expression : option string) (statements : list Node)
| ReturnStatement (expression : option Node)
| VariableStatement (declarationKind : string)
                    (declarations : list (string * option Node))
| ExpressionStatement (expression : Node)
| Other (kindName : string) (children : list (string * Node)) (tail : string).

(** [node.getText()]. *)
Fixpoint getText (n : Node) : string :=
  match n with
  | Identifier t => t
  | NumericLiteral t => t
  | PropertyAccessExpression e name => getText e ++ "." ++ name
  | CallExpression e args => getText e ++ "(" ++ join ", " (map getText args) ++ ")"
  | AwaitExpression e => "await " ++ getText e
  | BinaryExpression l op r => getText l ++ " " ++ op ++ " " ++ getText r
  | ArrowFunction p body => p ++ " => " ++ getText body
  | Block ss => "{ " ++ join " " (map getText ss) ++ " }"
  | CaseClause e ss =>
      match e with
      | Some x => "case " ++ x ++ ":"
      | None => "default:"
      end ++ join EmptyString (map (fun s => " " ++ getText s) ss)
  | ReturnStatement None => "return;"
  | ReturnStatement (Some e) => "return " ++ getText e ++ ";"
  | VariableStatement k ds =>
      k ++ " " ++
      join ", " (map (fun d => match snd d with
                               | None => fst d
                               | Some i => fst d ++ " = " ++ getText i
                               end) ds) ++ ";"
  | ExpressionStatement e => getText e ++ ";"
  | Other _ cs t => join EmptyString (map (fun c => fst c ++ getText (snd c)) cs) ++ t
  end.

(** The tree ts-morph obtains by parsing the replacement text
    ["ctx.info.remoteAddr"] in expression position. *)
Definition ctx_info_remoteAddr : Node :=
  PropertyAccessExpression
    (PropertyAccessExpression (Identifier "ctx") "info") "remoteAddr".

(** [rewriteCtxMemberName(node)], lines 653-674.  [node] is a property access;
    its children are the receiver, the dot and the name, so [children[0]] is
    the receiver and [last] is the name.  [parentIsCall] tells whether
    [node.getParentIfKind(CallExpression)] is defined; the returned flag tells
    whether [caller.addArgument("404")] ran. *)
Fixpoint rewriteCtxMemberName (parentIsCall : bool) (node : Node) : Node * bool :=
  match node with
  | PropertyAccessExpression e name =>
      if (getText e =? "ctx") && (name =? "remoteAddr") then
        (* node.getExpression().replaceWithText("ctx.info.remoteAddr") *)
        (PropertyAccessExpression ctx_info_remoteAddr name, false)
      else if name =? "renderNotFound" then
        (PropertyAccessExpression e "throw", parentIsCall)
      else
        match e with
        | PropertyAccessExpression _ _ =>
            (PropertyAccessExpression (fst (rewriteCtxMemberName false e)) name, false)
        | _ => (node, false)
        end
  | _ => (node, false)
  end.

(** The literal argument added by [caller.addArgument("404")]. *)
Definition lit404 : Node := NumericLiteral "404".

(** One iteration of the loop of [rewriteCtxMethods] on [node], for the
    branches of lines 617-642, which go on with [rewriteCtxMethods([expr])]
    on one child.  A property access met as the callee of a call has that
    call as its parent; met anywhere else its parent is a statement, a
    declaration, an await, a binary expression, another property access or
    an arrow function.  The last branch, lines 643-648, is taken by
    statements only and is part of [rewriteDescendants]. *)
Fixpoint rewriteNode (node : Node) : Node :=
  match node with
  | PropertyAccessExpression _ _ => fst (rewriteCtxMemberName false node)
  | ReturnStatement (Some e) => ReturnStatement (Some (rewriteNode e))
  | VariableStatement k decls =>
      VariableStatement k
        (map (fun d => (fst d, match snd d with
                               | Some init => Some (rewriteNode init)
                               | None => None
                               end)) decls)
  | ExpressionStatement e => ExpressionStatement (rewriteNode e)
  | AwaitExpression e => AwaitExpression (rewriteNode e)
  | CallExpression e args =>
      match e with
      | PropertyAccessExpression _ _ =>
          let r := rewriteCtxMemberName true e in
          CallExpression (fst r) (if snd r then (args ++ [lit404])%list else args)
      | _ => CallExpression (rewriteNode e) args
      end
  | BinaryExpression l op r => BinaryExpression (rewriteNode l) op (rewriteNode r)
  | _ => node
  end.

(** JavaScript's [String.prototype.endsWith]. *)
Definition endsWith (s suffix : string) : bool :=
  Nat.leb (String.length suffix) (String.length s) &&
  String.eqb
    (substring (String.length s - String.length suffix) (String.length suffix) s)
    suffix.

(** Last branch of the dispatch (lines 643-648): a statement kind other than
    the ones above whose kind name ends in "Statement". *)
Definition recursesInto (kindName : string) : bool :=
  negb (kindName =? "ExpressionStatement") && endsWith kindName "Statement".

Definition visitsDescendants (node : Node) : bool :=
  match node with
  | Other k _ _ => recursesInto k
  | _ => false
  end.

Definition isBlock (n : Node) : bool :=
  match n with Block _ => true | _ => false end.

(** *** [getDescendantStatements]

    ts-morph collects the list with three local functions.  [handleNode]: a
    node that has [statements] (a block, a clause) contributes each of them,
    followed by what [handleChildren] finds in it; an arrow function
    contributes its body when that is an expression, and is searched through
    its body when that is a block; any other node is searched through its
    children.  [handleChildren] runs [handleNode] on every child.  So the
    statements of a function nested in an expression are in the list, and
    the statements of a block that is itself a statement, or the single
    statement of an [if] written without braces, are not. *)
Definition forEachChild (f : Node -> list Node) (node : Node) : list Node :=
  match node with
  | Identifier _ | NumericLiteral _ => []
  | PropertyAccessExpression e _ => f e
  | CallExpression e args => (f e ++ flat_map f args)%list
  | AwaitExpression e => f e
  | BinaryExpression l _ r => (f l ++ f r)%list
  | ArrowFunction _ body => f body
  | Block ss => flat_map f ss
  | CaseClause _ ss => flat_map f ss
  | ReturnStatement None => []
  | ReturnStatement (Some e) => f e
  | VariableStatement _ decls =>
      flat_map (fun d => match snd d with Some init => f init | None => [] end) decls
  | ExpressionStatement e => f e
  | Other _ cs _ => flat_map (fun c => f (snd c)) cs
  end.

Fixpoint getDescendantStatements (node : Node) {struct node} : list Node :=
  match node with
  | Block ss | CaseClause _ ss =>
      flat_map (fun s => s :: forEachChild getDescendantStatements s) ss
  | ArrowFunction _ body =>
      if isBlock body then getDescendantStatements body else [body]
  | _ => forEachChild getDescendantStatements node
  end.

(** *** [rewriteCtxMethods(node.getDescendantStatements())]

    The loop edits the nodes of the list in place, so its effect is a
    function on the tree the list was taken from.  No edit adds or removes a
    statement or a function (an identifier is replaced by an access chain, a
    name by a name, a literal is added to an argument list), so the entries
    stay where they are.

    The list holds an entry and, after it, the entries found inside it.  For
    an entry of a kind whose name ends in "Statement" (lines 643-648) the
    loop runs itself over the entries inside it, and later meets them again:
    what lies in such a statement is visited twice as often as the statement
    itself.  An entry of another kind is rewritten through [rewriteNode],
    which reads and edits the access chains on its way down from the entry
    and nothing inside a nested function; the entries inside it are met
    later.  An access chain whose text is [ctx] holds no function, so these
    edits do not meet and their order does not show.  [visits] counts how
    often the loop runs over the list of [node]. *)
Definition mapChildren (f : Node -> Node) (node : Node) : Node :=
  match node with
  | Identifier _ | NumericLiteral _ => node
  | PropertyAccessExpression e name => PropertyAccessExpression (f e) name
  | CallExpression e args => CallExpression (f e) (map f args)
  | AwaitExpression e => AwaitExpression (f e)
  | BinaryExpression l op r => BinaryExpression (f l) op (f r)
  | ArrowFunction p body => ArrowFunction p (f body)
  | Block ss => Block (map f ss)
  | CaseClause e ss => CaseClause e (map f ss)
  | ReturnStatement None => node
  | ReturnStatement (Some e) => ReturnStatement (Some (f e))
  | VariableStatement k decls =>
      VariableStatement k
        (map (fun d => (fst d, match snd d with
                               | Some init => Some (f init)
                               | None => None
                               end)) decls)
  | ExpressionStatement e => ExpressionStatement (f e)
  | Other k cs t => Other k (map (fun c => (fst c, f (snd c))) cs) t
  end.

Definition visitsInside (visits : nat) (entry : Node) : nat :=
  if visitsDescendants entry then 2 * visits else visits.

Fixpoint rewriteDescendants (visits : nat) (node : Node) {struct node} : Node :=
  let entry s :=
    Nat.iter visits rewriteNode
      (mapChildren (rewriteDescendants (visitsInside visits s)) s) in
  match node with
  | Block ss => Block (map entry ss)
  | CaseClause e ss => CaseClause e (map entry ss)
  | ArrowFunction p body =>
      ArrowFunction p
        (if isBlock body then rewriteDescendants visits body
         else Nat.iter visits rewriteNode body)
  | _ => mapChildren (rewriteDescendants visits) node
  end.

(** What [visits] runs of the loop make of an entry of the list. *)
Definition rewriteEntry (visits : nat) (s : Node) : Node :=
  Nat.iter visits rewriteNode
    (mapChildren (rewriteDescendants (visitsInside visits s)) s).

(** [rewriteCtxMethods(body.getDescendantStatements())] for a block [body],
    on the statements of [body]. *)
Definition rewriteCtxMethods (statements : list Node) : list Node :=
  map (rewriteEntry 1) statements.

(** *** Notions used to state the fixed point of the walk *)

(** Something in the access chain [n] is still to be rewritten. *)
Fixpoint pending (n : Node) : bool :=
  match n with
  | PropertyAccessExpression e name =>
      ((getText e =? "ctx") && (name =? "remoteAddr"))
      || (name =? "renderNotFound")
      || pending e
  | _ => false
  end.

(** The rewrite of the chain [n] leaves nothing pending: an access named
    [renderNotFound] does not hide a further access to rewrite in its
    receiver. *)
Fixpoint chainOk (n : Node) : bool :=
  match n with
  | PropertyAccessExpression e name =>
      if (getText e =? "ctx") && (name =? "remoteAddr") then true
      else if name =? "renderNotFound" then negb (pending e)
      else chainOk e
  | _ => true
  end.

(** Every access chain one visit of [n] reaches is as [chainOk] asks. *)
Fixpoint nodeOk (n : Node) : bool :=
  match n with
  | PropertyAccessExpression _ _ => chainOk n
  | ReturnStatement (Some e) => nodeOk e
  | VariableStatement _ decls =>
      forallb (fun d => match snd d with Some i => nodeOk i | None => true end) decls
  | ExpressionStatement e => nodeOk e
  | AwaitExpression e => nodeOk e
  | CallExpression e _ =>
      match e with
      | PropertyAccessExpression _ _ => chainOk e
      | _ => nodeOk e
      end
  | BinaryExpression l _ r => nodeOk l && nodeOk r
  | _ => true
  end.

(** One visit of [n] finds nothing to rewrite. *)
Fixpoint untouched (n : Node) : bool :=
  match n with
  | PropertyAccessExpression _ _ => negb (pending n)
  | ReturnStatement (Some e) => untouched e
  | VariableStatement _ decls =>
      forallb (fun d => match snd d with Some i => untouched i | None => true end) decls
  | ExpressionStatement e => untouched e
  | AwaitExpression e => untouched e
  | CallExpression e _ =>
      match e with
      | PropertyAccessExpression _ _ => negb (pending e)
      | _ => untouched e
      end
  | BinaryExpression l _ r => untouched l && untouched r
  | _ => true
  end.

Definition isAccess (n : Node) : bool :=
  match n with PropertyAccessExpression _ _ => true | _ => false end.

(** [n] holds a block, a clause or an arrow function: only such a node has
    entries of the list inside it. *)
Fixpoint holdsStatements (n : Node) : bool :=
  match n with
  | Identifier _ | NumericLiteral _ => false
  | PropertyAccessExpression e _ => holdsStatements e
  | CallExpression e args => holdsStatements e || existsb holdsStatements args
  | AwaitExpression e => holdsStatements e
  | BinaryExpression l _ r => holdsStatements l || holdsStatements r
  | ArrowFunction _ _ | Block _ | CaseClause _ _ => true
  | ReturnStatement None => false
  | ReturnStatement (Some e) => holdsStatements e
  | VariableStatement _ decls =>
      existsb (fun d => match snd d with Some i => holdsStatements i | None => false end)
        decls
  | ExpressionStatement e => holdsStatements e
  | Other _ cs _ => existsb (fun c => holdsStatements (snd c)) cs
  end.

(** The access chain [e.n1.n2...], the names given from the inside out. *)
Definition accessChain (e : Node) (names : list string) : Node :=
  fold_left PropertyAccessExpression names e.

(** Induction over syntax trees, with the nested lists and options opened. *)
Section NodeInduction.

Variable P : Node -> Prop.
Hypothesis P_Identifier : forall t, P (Identifier t).
Hypothesis P_NumericLiteral : forall t, P (NumericLiteral t).
Hypothesis P_PropertyAccess : forall e name, P e -> P (PropertyAccessExpression e name).
Hypothesis P_Call : forall e args, P e -> Forall P args -> P (CallExpression e args).
Hypothesis P_Await : forall e, P e -> P (AwaitExpression e).
Hypothesis P_Binary : forall l op r, P l -> P r -> P (BinaryExpression l op r).
Hypothesis P_Arrow : forall p body, P body -> P (ArrowFunction p body).
Hypothesis P_Block : forall ss, Forall P ss -> P (Block ss).
Hypothesis P_Clause : forall e ss, Forall P ss -> P (CaseClause e ss).
Hypothesis P_ReturnNone : P (ReturnStatement None).
Hypothesis P_ReturnSome : forall e, P e -> P (ReturnStatement (Some e)).
Hypothesis P_Variable :
  forall k decls,
    Forall (fun d => match snd d with Some i => P i | None => True end) decls ->
    P (VariableStatement k decls).
Hypothesis P_Expression : forall e, P e -> P (ExpressionStatement e).
Hypothesis P_Other :
  forall k cs t, Forall (fun c => P (snd c)) cs -> P (Other k cs t).

Fixpoint Node_induction (n : Node) : P n :=
  let all :=
    fix all (l : list Node) : Forall P l :=
      match l with
      | [] => Forall_nil P
      | x :: rest => Forall_cons x (Node_induction x) (all rest)
      end in
  match n with
  | Identifier t => P_Identifier t
  | NumericLiteral t => P_NumericLiteral t
  | PropertyAccessExpression e name => P_PropertyAccess e name (Node_induction e)
  | CallExpression e args => P_Call e args (Node_induction e) (all args)
  | AwaitExpression e => P_Await e (Node_induction e)
  | BinaryExpression l op r => P_Binary l op r (Node_induction l) (Node_induction r)
  | ArrowFunction p body => P_Arrow p body (Node_induction body)
  | Block ss => P_Block ss (all ss)
  | CaseClause e ss => P_Clause e ss (all ss)
  | ReturnStatement None => P_ReturnNone
  | ReturnStatement (Some e) => P_ReturnSome e (Node_induction e)
  | VariableStatement k decls =>
      P_Variable k decls
        ((fix all (l : list (string * option Node))
            : Forall (fun d => match snd d with Some i => P i | None => True end) l :=
            match l with
            | [] => Forall_nil _
            | (name, Some i) :: rest =>
                Forall_cons (name, Some i) (Node_induction i) (all rest)
            | (name, None) :: rest => Forall_cons (name, None) I (all rest)
            end) decls)
  | ExpressionStatement e => P_Expression e (Node_induction e)
  | Other k cs t =>
      P_Other k cs t
        ((fix all (l : list (string * Node)) : Forall (fun c => P (snd c)) l :=
            match l with
            | [] => Forall_nil _
            | (text, x) :: rest => Forall_cons (text, x) (Node_induction x) (all rest)
            end) cs)
  end.

End NodeInduction.

End Ast.

(** ** Results of calls that may throw *)

Inductive Result (A : Type) : Type :=
| Ok (value : A)
| Throw (message : string).
Arguments Ok {A} value.
Arguments Throw {A} message.

(** ** Import state *)

(** A JavaScript [Set<string>]: insertion ordered, without duplicates. *)
Definition StrSet := list string.

Definition set_has (x : string) (s : StrSet) : bool := existsb (String.eqb x) s.

Definition set_add (x : string) (s : StrSet) : StrSet :=
  if set_has x s then s else (s ++ [x])%list.

Definition set_delete (x : string) (s : StrSet) : StrSet :=
  filter (fun y => negb (String.eqb x y)) s.

Record ImportState := mkImportState {
  core : StrSet;
  runtime : StrSet;
  compat : StrSet
}.

Definition emptyImports : ImportState := mkImportState [] [] [].

Definition addCore (x : string) (st : ImportState) : ImportState :=
  mkImportState (set_add x (core st)) (runtime st) (compat st).

(** ** Parameter normalisation *)

Module Handler.
Import Ast.

Inductive FnKind := MethodDeclaration | FunctionDeclaration | FunctionExpression | ArrowFunction.

(** One element of a destructuring pattern: the bound name ([getName()]) and
    the element's source text. *)
Record BindingElement := mkElement { be_name : string; be_text : string }.

(** An object binding pattern with its layout: the trivia before the opening
    brace (part of [getFullText()]), the text after the opening brace, the
    elements, and the text between the last element and the closing brace. *)
Record ObjectBindingPattern := mkPattern {
  obp_leading : string;
  obp_open : string;
  obp_elements : list BindingElement;
  obp_close : string
}.

Definition patternText (p : ObjectBindingPattern) : string :=
  "{" ++ obp_open p ++ join ", " (map be_text (obp_elements p)) ++ obp_close p ++ "}".

Definition patternFullText (p : ObjectBindingPattern) : string :=
  obp_leading p ++ patternText p.

(** The name node of a parameter.  [ObjectPatternText] is an object pattern
    that was re-parsed from replacement text by [replaceWithText], with the
    trivia in front of it; the normaliser puts such a pattern in first
    position, where only its text is read. *)
Inductive BindingName :=
| IdentifierName (text : string)
| ObjectPattern (p : ObjectBindingPattern)
| ObjectPatternText (leading : string) (text : string)
| ArrayPattern (text : string).

(** [getText()] of the name node: the trivia is not part of it. *)
Definition bindingText (n : BindingName) : string :=
  match n with
  | IdentifierName t => t
  | ObjectPattern p => patternText p
  | ObjectPatternText _ t => t
  | ArrayPattern t => t
  end.

(** [getFullText()] of the name node. *)
Definition bindingFullText (n : BindingName) : string :=
  match n with
  | IdentifierName t => t
  | ObjectPattern p => patternFullText p
  | ObjectPatternText l t => l ++ t
  | ArrayPattern t => t
  end.

(** [maybeObjBinding.replaceWithText(text)], line 594.  The text of the
    node itself is replaced; the trivia in front of the node is not part of
    what is replaced and stays.  [text] was cut from [getFullText()], so it
    opens with that trivia once more, which the parser adds to the trivia of
    the new node. *)
Definition replaceWithText (pat : ObjectBindingPattern) (text : string) : BindingName :=
  let leading := obp_leading pat in
  ObjectPatternText (leading ++ leading)
    (substring (String.length leading) (String.length text - String.length leading) text).

Record Param := mkParam { p_name : BindingName; p_type : option string }.

Definition getName (p : Param) : string := bindingText (p_name p).

Inductive Body :=
| BlockBody (statements : list Node)
| ExpressionBody (expression : Node)
| NoBody.

Record FunctionLike := mkFunction {
  fn_kind : FnKind;
  fn_name : string;
  fn_params : list Param;
  fn_body : Body
}.

Definition constDecl (name : string) (init : Node) : Node :=
  VariableStatement "const" [(name, Some init)].

Definition ctx_req : Node := PropertyAccessExpression (Identifier "ctx") "req".
Definition info_remoteAddr : Node := PropertyAccessExpression (Identifier "info") "remoteAddr".

(** [method.insertVariableStatement(0, ...)].  ts-morph gives a body to a
    body-less declaration before inserting; an expression-bodied arrow never
    reaches the insertion (line 555). *)
Definition insertVariableStatement0 (stmt : Node) (b : Body) : Body :=
  match b with
  | BlockBody ss => BlockBody (stmt :: ss)
  | NoBody => BlockBody [stmt]
  | ExpressionBody e => ExpressionBody e
  end.

(** JavaScript's [s.slice(0, -2)]. *)
Definition slice_0_minus2 (s : string) : string :=
  substring 0 (String.length s - 2) s.

Definition isBlockOrAbsent (b : Body) : bool :=
  match b with ExpressionBody _ => false | _ => true end.

Definition renameRemoteAddr (b : BindingElement) : BindingElement :=
  if be_name b =? "remoteAddr" then mkElement "info" "info" else b.

Definition isSome {A} (o : option A) : bool :=
  match o with Some _ => true | None => false end.

(** Lines 529-548: the rewrite of the parameter list. *)
Definition rewriteParams (params : list Param) (hasInferredTypes : bool)
    (newImports : ImportState) : list Param * ImportState :=
  match params with
  | [] => ([], newImports)
  | p0 :: rest =>
      let paramName := getName p0 in
      let hasRequestVar := Nat.ltb 1 (List.length params) || (paramName =? "req") in
      if hasRequestVar || (paramName =? "_req") then
        if hasRequestVar && Nat.eqb (List.length params) 1 then
          if negb hasInferredTypes
          then ([mkParam (IdentifierName "ctx") (Some "FreshContext")],
                addCore "FreshContext" newImports)
          else ([mkParam (IdentifierName "ctx") None], newImports)
        else
          match rest with
          | p1 :: tl =>
              match p_type p1 with
              | Some ty =>
                  if ty =? "RouteContext"
                  then (mkParam (p_name p1) (Some "FreshContext") :: tl,
                        addCore "FreshContext" newImports)
                  else (rest, newImports)
              | None => (rest, newImports)
              end
          | [] => ([], newImports)
          end
      else (params, newImports)
  end.

(** Replace the name node of the parameter that was [params[1]]; it is the
    first parameter once [params[0]] is removed. *)
Definition setFirstName (n : BindingName) (params : list Param) : list Param :=
  match params with
  | p :: tl => mkParam n (p_type p) :: tl
  | [] => []
  end.

(** [maybePrependReqVar(method, newImports, hasInferredTypes)], lines 509-609. *)
Definition maybePrependReqVar (method : FunctionLike) (newImports : ImportState)
    (hasInferredTypes : bool) : FunctionLike * ImportState :=
  match fn_params method with
  | [] => (method, newImports)
  | p0 :: rest =>
      let params := fn_params method in
      let paramName := getName p0 in
      let hasInferredTypes :=
        if hasInferredTypes && isSome (p_type p0) then false else hasInferredTypes in
      let hasRequestVar := Nat.ltb 1 (List.length params) || (paramName =? "req") in
      let '(params1, imports1) := rewriteParams params hasInferredTypes newImports in
      let maybeObjBinding :=
        match rest with p1 :: _ => Some (p_name p1) | [] => None end in
      let method1 := mkFunction (fn_kind method) (fn_name method) params1 (fn_body method) in
      if match fn_kind method with
         | ArrowFunction => negb (isBlockOrAbsent (fn_body method))
         | _ => false
         end
      then (* console.warn("Cannot transform arrow function"); return *)
        (method1, imports1)
      else
        match maybeObjBinding with
        | Some (ObjectPattern pat) =>
            match obp_elements pat with
            | [] => (method1, imports1)
            | _ :: _ =>
                let needsRemoteAddr :=
                  existsb (fun b => be_name b =? "remoteAddr") (obp_elements pat) in
                let pat1 := mkPattern (obp_leading pat) (obp_open pat)
                              (map renameRemoteAddr (obp_elements pat)) (obp_close pat) in
                let name1 :=
                  if hasRequestVar && negb (startsWith paramName "_")
                  then replaceWithText pat1 (slice_0_minus2 (patternFullText pat1) ++ ", req }")
                  else ObjectPattern pat1 in
                let body1 :=
                  if needsRemoteAddr
                  then insertVariableStatement0 (constDecl "remoteAddr" info_remoteAddr)
                         (fn_body method)
                  else fn_body method in
                (mkFunction (fn_kind method) (fn_name method)
                   (setFirstName name1 params1) body1, imports1)
            end
        | _ =>
            if hasRequestVar && negb (startsWith paramName "_")
            then (mkFunction (fn_kind method) (fn_name method) params1
                    (insertVariableStatement0 (constDecl paramName ctx_req) (fn_body method)),
                  imports1)
            else (method1, imports1)
        end
  end.

(** *** Notions used to state the fixed point of the normaliser *)

Definition isReqName (s : string) : bool := (s =? "req") || (s =? "_req").

(** A parameter list the normaliser leaves as it is. *)
Definition settledParams (params : list Param) : bool :=
  match params with
  | [] => true
  | [q] => negb (isReqName (getName q))
  | _ => false
  end.

(** The entries of [body.getDescendantStatements()]. *)
Definition bodyEntries (b : Body) : list Node :=
  match b with
  | BlockBody ss => getDescendantStatements (Block ss)
  | ExpressionBody e => getDescendantStatements e
  | NoBody => []
  end.

(** A function one pass settles: at most two parameters, the second one not
    called [req] or [_req] ([paramsBound]), and a body each entry of which
    one visit settles. *)
Definition paramsBound (params : list Param) : bool :=
  match params with
  | [] => true
  | [_] => true
  | [_; p1] => negb (isReqName (getName p1))
  | _ => false
  end.

Definition settles (f : FunctionLike) : bool :=
  paramsBound (fn_params f) && forallb nodeOk (bodyEntries (fn_body f)).

(** A function in the new shape already: a settled parameter list and a
    body in which the walk finds nothing to rewrite. *)
Definition quiet (f : FunctionLike) : bool :=
  settledParams (fn_params f) && forallb untouched (bodyEntries (fn_body f)).

End Handler.

(** ** Import declarations *)

Module Imports.

Record NamedImport := mkNamed { ni_name : string; ni_alias : option string }.

Record ImportDeclaration := mkImport {
  moduleSpecifier : string;
  defaultImport : option string;
  namespaceImport : option string;
  namedImports : list NamedImport
}.

(** The module-level constant [compat], lines 112-123. *)
Definition compatNames : StrSet :=
  ["defineApp"; "defineLayout"; "defineRoute"; "AppProps"; "ErrorPageProps";
   "Handler"; "Handlers"; "LayoutProps"; "RouteContext"; "UnknownPageProps"].

(** [removeEmptyImport(d)], lines 499-507: [true] when [d] is removed. *)
Definition isEmptyImport (d : ImportDeclaration) : bool :=
  match namedImports d, namespaceImport d, defaultImport d with
  | [], None, None => true
  | _, _, _ => false
  end.

Definition removeEmptyImport (d : ImportDeclaration) : list ImportDeclaration :=
  if isEmptyImport d then [] else [d].

Definition isJsxName (name : string) : bool := (name =? "h") || (name =? "Fragment").

(** The declaration [d] with a named import added for each name of a set, in
    the set's order. *)
Definition withNamedImports (names : StrSet) (d : ImportDeclaration) : ImportDeclaration :=
  mkImport (moduleSpecifier d) (defaultImport d) (namespaceImport d)
    (namedImports d ++ map (fun n => mkNamed n None) names)%list.

(** [names.forEach((name) => d.addNamedImport(name))], run when [names] is
    not empty (lines 423-427 and 438-442).  ts-morph cannot add a named
    import to a declaration that has a namespace import and no named import:
    the first call throws [InvalidOperationError]. *)
Definition addNamedImports (names : StrSet) (d : ImportDeclaration)
    : Result ImportDeclaration :=
  match names, namespaceImport d, namedImports d with
  | _ :: _, Some _, [] =>
      Throw "Cannot add a named import to an import declaration that has a namespace import."
  | _, _, _ => Ok (withNamedImports names d)
  end.

Definition setModuleSpecifier (s : string) (d : ImportDeclaration) : ImportDeclaration :=
  mkImport s (defaultImport d) (namespaceImport d) (namedImports d).

Definition setNamedImports (l : list NamedImport) (d : ImportDeclaration) : ImportDeclaration :=
  mkImport (moduleSpecifier d) (defaultImport d) (namespaceImport d) l.

(** The variables the loop of lines 398-446 updates. *)
Record LoopState := mkLoop {
  ls_imports : ImportState;
  ls_hasCoreImport : bool;
  ls_hasRuntimeImport : bool;
  ls_modified : bool;
  ls_removedJsxImports : list string;
  ls_decls : list ImportDeclaration
}.

(** Lines 415-422: one named import of a ["$fresh/server.ts"] declaration. *)
Definition serverNamedStep (acc : ImportState * list NamedImport) (n : NamedImport)
    : ImportState * list NamedImport :=
  let st := fst acc in
  let name := ni_name n in
  let st1 := mkImportState (set_delete name (core st)) (runtime st) (compat st) in
  if set_has name compatNames
  then (mkImportState (core st1) (runtime st1) (set_add name (compat st1)), snd acc)
  else (st1, (snd acc ++ [n])%list).

(** Lines 434-437: one named import of a ["$fresh/runtime.ts"] declaration. *)
Definition runtimeNamedStep (st : ImportState) (n : NamedImport) : ImportState :=
  mkImportState (core st) (set_delete (ni_name n) (runtime st)) (compat st).

(** One iteration of the loop over [sourceFile.getImportDeclarations()]. *)
Definition importStep (ls : LoopState) (d : ImportDeclaration) : Result LoopState :=
  let specifier := moduleSpecifier d in
  if specifier =? "preact" then
    let removed := filter (fun n => isJsxName (ni_name n)) (namedImports d) in
    let kept := filter (fun n => negb (isJsxName (ni_name n))) (namedImports d) in
    Ok (mkLoop (ls_imports ls) (ls_hasCoreImport ls) (ls_hasRuntimeImport ls)
          (match removed with [] => ls_modified ls | _ => true end)
          (ls_removedJsxImports ls ++ map ni_name removed)%list
          (ls_decls ls ++ removeEmptyImport (setNamedImports kept d))%list)
  else if specifier =? "$fresh/server.ts" then
    let r := fold_left serverNamedStep (namedImports d) (ls_imports ls, []) in
    let d1 := setNamedImports (snd r) (setModuleSpecifier "fresh" d) in
    match addNamedImports (core (fst r)) d1 with
    | Throw m => Throw m
    | Ok d2 =>
        Ok (mkLoop (fst r) true (ls_hasRuntimeImport ls) (ls_modified ls)
              (ls_removedJsxImports ls)
              (ls_decls ls ++ removeEmptyImport d2)%list)
    end
  else if specifier =? "$fresh/runtime.ts" then
    let st := fold_left runtimeNamedStep (namedImports d) (ls_imports ls) in
    match addNamedImports (runtime st) (setModuleSpecifier "fresh/runtime" d) with
    | Throw m => Throw m
    | Ok d1 =>
        Ok (mkLoop st (ls_hasCoreImport ls) true (ls_modified ls)
              (ls_removedJsxImports ls)
              (ls_decls ls ++ removeEmptyImport d1)%list)
    end
  else
    Ok (mkLoop (ls_imports ls) (ls_hasCoreImport ls) (ls_hasRuntimeImport ls)
          (ls_modified ls) (ls_removedJsxImports ls) (ls_decls ls ++ [d])%list).

(** The state an iteration leaves when no call in it throws. *)
Definition importStepDone (ls : LoopState) (d : ImportDeclaration) : LoopState :=
  let specifier := moduleSpecifier d in
  if specifier =? "preact" then
    let removed := filter (fun n => isJsxName (ni_name n)) (namedImports d) in
    let kept := filter (fun n => negb (isJsxName (ni_name n))) (namedImports d) in
    mkLoop (ls_imports ls) (ls_hasCoreImport ls) (ls_hasRuntimeImport ls)
      (match removed with [] => ls_modified ls | _ => true end)
      (ls_removedJsxImports ls ++ map ni_name removed)%list
      (ls_decls ls ++ removeEmptyImport (setNamedImports kept d))%list
  else if specifier =? "$fresh/server.ts" then
    let r := fold_left serverNamedStep (namedImports d) (ls_imports ls, []) in
    let d1 := setNamedImports (snd r) (setModuleSpecifier "fresh" d) in
    let d2 := withNamedImports (core (fst r)) d1 in
    mkLoop (fst r) true (ls_hasRuntimeImport ls) (ls_modified ls)
      (ls_removedJsxImports ls)
      (ls_decls ls ++ removeEmptyImport d2)%list
  else if specifier =? "$fresh/runtime.ts" then
    let st := fold_left runtimeNamedStep (namedImports d) (ls_imports ls) in
    let d1 := withNamedImports (runtime st) (setModuleSpecifier "fresh/runtime" d) in
    mkLoop st (ls_hasCoreImport ls) true (ls_modified ls)
      (ls_removedJsxImports ls)
      (ls_decls ls ++ removeEmptyImport d1)%list
  else
    mkLoop (ls_imports ls) (ls_hasCoreImport ls) (ls_hasRuntimeImport ls)
      (ls_modified ls) (ls_removedJsxImports ls) (ls_decls ls ++ [d])%list.

(** [sourceFile.addImportDeclaration({ moduleSpecifier, namedImports })]. *)
Definition synthesized (spec : string) (names : StrSet) : ImportDeclaration :=
  mkImport spec None None (map (fun n => mkNamed n None) names).

Definition nonEmpty (s : StrSet) : bool :=
  match s with [] => false | _ => true end.

(** Lines 448-465: the declarations added after the loop.  The runtime
    declaration takes its names from [newImports.core], as line 457 does. *)
Definition synthesizeImports (ls : LoopState) : list ImportDeclaration :=
  let st := ls_imports ls in
  ((if negb (ls_hasCoreImport ls) && nonEmpty (core st)
    then [synthesized "fresh" (core st)] else []) ++
   (if negb (ls_hasRuntimeImport ls) && nonEmpty (runtime st)
    then [synthesized "fresh/runtime" (core st)] else []) ++
   (if nonEmpty (compat st)
    then [synthesized "fresh/compat" (compat st)] else []))%list.

(** Lines 394-465 as a function of the import state left by the handler
    rewrite and of the file's import declarations.  A call that throws ends
    the loop. *)
Definition importLoopStep (acc : Result LoopState) (d : ImportDeclaration)
    : Result LoopState :=
  match acc with
  | Ok ls => importStep ls d
  | Throw m => Throw m
  end.

Definition startOfLoop (newImports : ImportState) : LoopState :=
  mkLoop newImports false false false [] [].

Definition runImportLoop (newImports : ImportState) (decls : list ImportDeclaration)
    : Result LoopState :=
  fold_left importLoopStep decls (Ok (startOfLoop newImports)).

Definition rewriteImports (newImports : ImportState) (decls : list ImportDeclaration)
    : Result (list ImportDeclaration) :=
  match runImportLoop newImports decls with
  | Ok ls => Ok (ls_decls ls ++ synthesizeImports ls)%list
  | Throw m => Throw m
  end.

(** The loop and its result when no call throws. *)
Definition importLoopDone (newImports : ImportState) (decls : list ImportDeclaration)
    : LoopState :=
  fold_left importStepDone decls (startOfLoop newImports).

Definition rewriteImportsDone (newImports : ImportState) (decls : list ImportDeclaration)
    : list ImportDeclaration :=
  let ls := importLoopDone newImports decls in
  (ls_decls ls ++ synthesizeImports ls)%list.

(** No two import declarations share a module specifier. *)
Definition distinctSpecifiers (decls : list ImportDeclaration) : Prop :=
  NoDup (map moduleSpecifier decls).

(** The specifiers the update itself writes. *)
Definition isNewSpecifier (s : string) : bool :=
  (s =? "fresh") || (s =? "fresh/runtime") || (s =? "fresh/compat").

(** The specifier a declaration has after the loop, if it is still there. *)
Definition renamed (s : string) : string :=
  if s =? "$fresh/server.ts" then "fresh"
  else if s =? "$fresh/runtime.ts" then "fresh/runtime"
  else s.

Definition isServerImport (d : ImportDeclaration) : bool :=
  moduleSpecifier d =? "$fresh/server.ts".
Definition isRuntimeImport (d : ImportDeclaration) : bool :=
  moduleSpecifier d =? "$fresh/runtime.ts".

(** A declaration the loop appends as it is: it has none of the legacy
    specifiers, and when it imports from ["preact"] it binds something and
    none of the JSX names. *)
Definition stableImport (d : ImportDeclaration) : bool :=
  negb (moduleSpecifier d =? "$fresh/server.ts")
  && negb (moduleSpecifier d =? "$fresh/runtime.ts")
  && (if moduleSpecifier d =? "preact"
      then negb (isEmptyImport d)
           && forallb (fun n => negb (isJsxName (ni_name n))) (namedImports d)
      else true).

(** A declaration that imports [FreshContext] from ["fresh"]: under its own
    name, or as one of the legacy server declarations [decls] already
    imported it, alias included. *)
Definition importsFreshContext (decls : list ImportDeclaration) (d' : ImportDeclaration)
    : Prop :=
  moduleSpecifier d' = "fresh"
  /\ exists n,
       In n (namedImports d')
       /\ ni_name n = "FreshContext"
       /\ (ni_alias n = None
           \/ exists d,
                In d decls /\ moduleSpecifier d = "$fresh/server.ts"
                /\ In n (namedImports d)).

Definition namedText (n : NamedImport) : string :=
  match ni_alias n with
  | None => ni_name n
  | Some a => ni_name n ++ " as " ++ a
  end.

Definition importText (d : ImportDeclaration) : string :=
  let clauses : list string :=
    app (match defaultImport d with Some x => [x] | None => [] end)
      (app (match namespaceImport d with Some x => ["* as " ++ x] | None => [] end)
           (match namedImports d with
            | [] => []
            | l => ["{ " ++ join ", " (map namedText l) ++ " }"]
            end)) in
  match clauses with
  | [] => "import " ++ dq ++ moduleSpecifier d ++ dq ++ ";"
  | _ => "import " ++ join ", " clauses ++ " from " ++ dq ++ moduleSpecifier d ++ dq ++ ";"
  end.

End Imports.

(** ** Text-level directive stripping *)

Module Text.

(** JavaScript's [s.replaceAll(pat, "")] for a non-empty [pat]: the
    occurrences are found left to right and do not overlap.  [skip] counts the
    characters of the current occurrence still to drop. *)
Fixpoint removeFrom (pat : string) (skip : nat) (s : string) : string :=
  match s with
  | EmptyString => EmptyString
  | String c s' =>
      match skip with
      | S k => removeFrom pat k s'
      | O =>
          if String.prefix pat s
          then removeFrom pat (String.length pat - 1) s'
          else String c (removeFrom pat 0 s')
      end
  end.

Definition removeAll (pat s : string) : string := removeFrom pat 0 s.

(** JavaScript's [s.includes(pat)]. *)
Fixpoint includes (s pat : string) : bool :=
  String.prefix pat s ||
  match s with
  | EmptyString => false
  | String _ s' => includes s' pat
  end.

Definition reference (attr value : string) : string :=
  "/// <reference " ++ attr ++ "=" ++ dq ++ value ++ dq ++ " />" ++ nl.

(** The seven patterns of lines 286-292, in the order they are applied. *)
Definition directives : list string :=
  [ "/** @jsx h */" ++ nl;
    "/** @jsxFrag Fragment */" ++ nl;
    reference "no-default-lib" "true";
    reference "lib" "dom";
    reference "lib" "dom.iterable";
    reference "lib" "dom.asynciterable";
    reference "lib" "deno.ns" ].

Definition stripDirectives (text : string) : string :=
  fold_left (fun t pat => removeAll pat t) directives text.

End Text.

(** ** Source files and [updateFile] *)

Module File.
Import Ast Handler Imports Text.

Inductive PropInit :=
| FunctionInit (f : FunctionLike)
| OtherInit (text : string).

(** A property of the exported handler object. *)
Inductive Property :=
| MethodProperty (f : FunctionLike)
| PropertyAssignment (name : string) (init : PropInit)
| OtherProperty (text : string).

Inductive VarInit :=
| NoInitializer
| ObjectLiteralExpression (properties : list Property)
| OtherInitializer (text : string).

Inductive Argument :=
| FunctionArgument (f : FunctionLike)
| OtherArgument (n : Node).

(** What [getExportedDeclarations()] maps a name to; only [decl[0]] is read. *)
Inductive Declaration :=
| VariableDeclaration (name : string) (init : VarInit)
| FunctionDeclarationNode (f : FunctionLike)
| CallExpressionNode (expression : Node) (arguments : list Argument)
| OtherDeclaration (text : string).

(** A source file: its path, its import declarations, its exported
    declarations, and the rest of its text (comments, directives and the
    statements the update does not look at), kept verbatim.  The directive
    lines removed at text level live in that rest. *)
Record SourceFile := mkSourceFile {
  sf_filePath : string;
  sf_text : string;
  sf_imports : list ImportDeclaration;
  sf_exports : list (string * Declaration)
}.

(** [sourceFile.getDirectoryPath()]: the path up to its last slash. *)
Fixpoint dirname (p : string) : string :=
  match p with
  | EmptyString => EmptyString
  | String c p' => if includes p' "/" then String c (dirname p') else EmptyString
  end.

Definition isRouteFile (sf : SourceFile) : bool :=
  includes (sf_filePath sf) "/routes/" && negb (includes (dirname (sf_filePath sf)) "/(_").

(** [rewriteCtxMethods(body.getDescendantStatements())] on the body of a
    function.  The list of a block holds its statements and what is found in
    them; the list of an expression body holds what is found in the
    expression, which is the bodies of the functions nested in it. *)
Definition rewriteBody (b : Body) : Body :=
  match b with
  | BlockBody ss => BlockBody (rewriteCtxMethods ss)
  | ExpressionBody e => ExpressionBody (rewriteDescendants 1 e)
  | NoBody => NoBody
  end.

(** Lines 318-324 and their three copies: rewrite the member accesses of the
    body, then normalise the parameters. *)
Definition rewriteFunction (f : FunctionLike) (newImports : ImportState)
    (hasInferredTypes : bool) : FunctionLike * ImportState :=
  maybePrependReqVar
    (mkFunction (fn_kind f) (fn_name f) (fn_params f) (rewriteBody (fn_body f)))
    newImports hasInferredTypes.

Definition isHttpMethod (name : string) : bool :=
  (name =? "GET") || (name =? "POST") || (name =? "PATCH") ||
  (name =? "PUT") || (name =? "DELETE").

Definition isFunctionValue (f : FunctionLike) : bool :=
  match fn_kind f with
  | ArrowFunction | FunctionExpression => true
  | _ => false
  end.

(** Lines 311-342: one property of the handler object. *)
Definition rewriteProperty (acc : list Property * ImportState) (p : Property)
    : list Property * ImportState :=
  let '(done, st) := acc in
  match p with
  | MethodProperty f =>
      if isHttpMethod (fn_name f)
      then let '(f1, st1) := rewriteFunction f st true in
           ((done ++ [MethodProperty f1])%list, st1)
      else ((done ++ [p])%list, st)
  | PropertyAssignment name (FunctionInit f) =>
      if isFunctionValue f
      then let '(f1, st1) := rewriteFunction f st true in
           ((done ++ [PropertyAssignment name (FunctionInit f1)])%list, st1)
      else ((done ++ [p])%list, st)
  | _ => ((done ++ [p])%list, st)
  end.

Definition isDefineWrapper (text : string) : bool :=
  (text =? "defineApp") || (text =? "defineLayout") || (text =? "defineRoute").

(** Lines 303-390: one entry of [getExportedDeclarations()]. *)
Definition rewriteExport (name : string) (decl : Declaration) (st : ImportState)
    : Declaration * ImportState :=
  if name =? "handler" then
    match decl with
    | VariableDeclaration v (ObjectLiteralExpression props) =>
        let '(props1, st1) := fold_left rewriteProperty props ([], st) in
        (VariableDeclaration v (ObjectLiteralExpression props1), st1)
    | FunctionDeclarationNode f =>
        let '(f1, st1) := rewriteFunction f st false in
        (FunctionDeclarationNode f1, st1)
    | _ => (decl, st)
    end
  else if name =? "default" then
    match decl with
    | CallExpressionNode (Identifier text) (FunctionArgument f :: rest) =>
        if isDefineWrapper text && isFunctionValue f
        then let '(f1, st1) := rewriteFunction f st false in
             (CallExpressionNode (Identifier text) (FunctionArgument f1 :: rest), st1)
        else (decl, st)
    | FunctionDeclarationNode f =>
        let '(f1, st1) := rewriteFunction f st false in
        (FunctionDeclarationNode f1, st1)
    | _ => (decl, st)
    end
  else (decl, st).

Definition rewriteExportStep (acc : list (string * Declaration) * ImportState)
    (e : string * Declaration) : list (string * Declaration) * ImportState :=
  let '(done, st) := acc in
  let '(d1, st1) := rewriteExport (fst e) (snd e) st in
  ((done ++ [(fst e, d1)])%list, st1).

Definition rewriteExports (exports : list (string * Declaration))
    : list (string * Declaration) * ImportState :=
  fold_left rewriteExportStep exports ([], emptyImports).

(** *** The text of a file *)

Definition paramText (p : Param) : string :=
  match p_type p with
  | None => bindingFullText (p_name p)
  | Some t => bindingFullText (p_name p) ++ ": " ++ t
  end.

Definition bodyText (b : Body) : string :=
  match b with
  | BlockBody ss => "{ " ++ join " " (map getText ss) ++ " }"
  | ExpressionBody e => getText e
  | NoBody => ";"
  end.

Definition functionText (f : FunctionLike) : string :=
  let params := "(" ++ join ", " (map paramText (fn_params f)) ++ ")" in
  match fn_kind f with
  | MethodDeclaration => fn_name f ++ params ++ " " ++ bodyText (fn_body f)
  | FunctionDeclaration | FunctionExpression =>
      "function " ++ fn_name f ++ params ++ " " ++ bodyText (fn_body f)
  | ArrowFunction => params ++ " => " ++ bodyText (fn_body f)
  end.

Definition propertyText (p : Property) : string :=
  match p with
  | MethodProperty f => functionText f
  | PropertyAssignment name (FunctionInit f) => name ++ ": " ++ functionText f
  | PropertyAssignment name (OtherInit t) => name ++ ": " ++ t
  | OtherProperty t => t
  end.

Definition argumentText (a : Argument) : string :=
  match a with
  | FunctionArgument f => functionText f
  | OtherArgument n => getText n
  end.

Definition exportText (e : string * Declaration) : string :=
  match snd e with
  | VariableDeclaration v NoInitializer => "export let " ++ v ++ ";"
  | VariableDeclaration v (ObjectLiteralExpression props) =>
      "export const " ++ v ++ " = { " ++ join ", " (map propertyText props) ++ " };"
  | VariableDeclaration v (OtherInitializer t) => "export const " ++ v ++ " = " ++ t ++ ";"
  | FunctionDeclarationNode f =>
      (if fst e =? "default" then "export default " else "export ") ++ functionText f
  | CallExpressionNode callee args =>
      "export default " ++ getText callee ++
      "(" ++ join ", " (map argumentText args) ++ ");"
  | OtherDeclaration t => t
  end.

(** [sourceFile.getFullText()]: the leading text, then one line for each
    import declaration and each exported declaration. *)
Definition lines (l : list string) : string :=
  fold_right (fun x rest => x ++ nl ++ rest) EmptyString l.

Definition getFullText (sf : SourceFile) : string :=
  sf_text sf ++ lines (map importText (sf_imports sf))
    ++ lines (map exportText (sf_exports sf)).

(** Lines 298-392: the exported declarations after the handler rewrite and
    the import state it leaves.  Only a route file outside a private route
    group has its handlers rewritten. *)
Definition rewriteHandlers (sf : SourceFile) : list (string * Declaration) * ImportState :=
  if isRouteFile sf then rewriteExports (sf_exports sf)
  else (sf_exports sf, emptyImports).

Section UpdateFile.

(** The parser of ts-morph, which [sourceFile.replaceWithText(text)] runs on
    the new text. *)
Variable parse : string -> SourceFile.

(** [sourceFile.replaceWithText(text)]: the file keeps its path. *)
Definition replaceSourceText (sf : SourceFile) (text : string) : SourceFile :=
  let parsed := parse text in
  mkSourceFile (sf_filePath sf) (sf_text parsed) (sf_imports parsed) (sf_exports parsed).

(** Lines 285-296: the directive lines are removed from the whole text of
    the file, and the file is parsed again when that changed its text. *)
Definition withoutDirectives (sf : SourceFile) : SourceFile :=
  let originalText := getFullText sf in
  let text := stripDirectives originalText in
  if text =? originalText then sf else replaceSourceText sf text.

(** [updateFile(sourceFile, baseDir)], lines 264-497: the rewritten file and
    the returned [wasModified], or what [addNamedImport] threw.  Saving and
    formatting happen after the text is final and do not take part in it. *)
Definition updateFile (sf : SourceFile) : Result (SourceFile * bool) :=
  let originalText := getFullText sf in
  let sf1 := withoutDirectives sf in
  let '(exports1, newImports) := rewriteHandlers sf1 in
  match runImportLoop newImports (sf_imports sf1) with
  | Throw m => Throw m
  | Ok ls =>
      let final :=
        mkSourceFile (sf_filePath sf1) (sf_text sf1)
          (ls_decls ls ++ synthesizeImports ls)%list exports1 in
      let wasModified := negb (getFullText final =? originalText) || ls_modified ls in
      Ok (final, wasModified)
  end.

End UpdateFile.

(** *** Notions used to state the fixed point of the pass *)

(** The functions lines 302-391 rewrite in one entry of
    [getExportedDeclarations()]. *)
Definition rewrittenProperty (p : Property) : list FunctionLike :=
  match p with
  | MethodProperty f => if isHttpMethod (fn_name f) then [f] else []
  | PropertyAssignment _ (FunctionInit f) => if isFunctionValue f then [f] else []
  | _ => []
  end.

Definition rewrittenFunctions (e : string * Declaration) : list FunctionLike :=
  if fst e =? "handler" then
    match snd e with
    | VariableDeclaration _ (ObjectLiteralExpression props) => flat_map rewrittenProperty props
    | FunctionDeclarationNode f => [f]
    | _ => []
    end
  else if fst e =? "default" then
    match snd e with
    | CallExpressionNode (Identifier text) (FunctionArgument f :: _) =>
        if isDefineWrapper text && isFunctionValue f then [f] else []
    | FunctionDeclarationNode f => [f]
    | _ => []
    end
  else [].

(** An element a loop step appends as it is, leaving the threaded state alone. *)
Definition fixedElement {A S : Type} (step : list A * S -> A -> list A * S) (x : A)
    : Prop :=
  forall done st, step (done, st) x = ((done ++ [x])%list, st).

Definition propertyOk (p : Property) : Prop :=
  forallb settles (rewrittenProperty p) = true.

Definition exportOk (e : string * Declaration) : Prop :=
  forallb settles (rewrittenFunctions e) = true.

(** No directive line is left in a text. *)
Definition directiveFree (text : string) : bool :=
  forallb (fun pat => negb (includes text pat)) directives.

(** A file whose handlers one pass settles: when it is a route file, every
    function the pass rewrites is one the walk and the normaliser settle. *)
Definition handlersSettle (sf : SourceFile) : bool :=
  negb (isRouteFile sf)
  || forallb (fun e => forallb settles (rewrittenFunctions e)) (sf_exports sf).

(** A file with nothing for the pass to do: no directive line in its text,
    no legacy import and, when it is a route file, only functions in the new
    shape where the pass looks. *)
Definition fileQuiet (sf : SourceFile) : bool :=
  directiveFree (getFullText sf)
  && forallb stableImport (sf_imports sf)
  && (negb (isRouteFile sf)
      || forallb (fun e => forallb quiet (rewrittenFunctions e)) (sf_exports sf)).

End File.

(** ** The manifest ([deno.json]) *)

Module Manifest.

(** JavaScript values as [JSONC.parse] builds them and the edit script leaves
    them.  A number is kept as the text [JSON.stringify] prints for it; an
    object is the list of its own properties in enumeration order. *)
Inductive Json : Type :=
| JUndefined
| JNull
| JBool (b : bool)
| JNumber (repr : string)
| JString (s : string)
| JArray (items : list Json)
| JObject (members : list (string * Json)).

Definition Obj := list (string * Json).

(** [o[k]]. *)
Fixpoint lookup (k : string) (o : Obj) : option Json :=
  match o with
  | [] => None
  | (k', v) :: rest => if k =? k' then Some v else lookup k rest
  end.

(** [o[k] = v]: an existing property keeps its place, a new one goes last. *)
Fixpoint set (k : string) (v : Json) (o : Obj) : Obj :=
  match o with
  | [] => [(k, v)]
  | (k', v') :: rest => if k =? k' then (k', v) :: rest else (k', v') :: set k v rest
  end.

(** [delete o[k]]. *)
Definition del (k : string) (o : Obj) : Obj :=
  filter (fun kv => negb (k =? fst kv)) o.

Definition FRESH_VERSION := "2.0.0-alpha.34".
Definition PREACT_VERSION := "10.26.6".
Definition PREACT_SIGNALS_VERSION := "2.0.4".

Definition cliTask1 : string :=
  "echo " ++ dq ++ "import '\$fresh/src/dev/cli.ts'" ++ dq ++ " | deno run --unstable -A -".
Definition cliTask2 : string :=
  "echo " ++ dq ++ "import '$fresh/src/dev/cli.ts'" ++ dq ++ " | deno run --unstable -A -".

(** [tasks.k === s] *)
Definition taskIs (k s : string) (tasks : Obj) : bool :=
  match lookup k tasks with
  | Some (JString t) => t =? s
  | _ => false
  end.

(** Lines 151-173, on a [tasks] object. *)
Definition editTasks (tasks : Obj) : Obj :=
  let t1 := if taskIs "manifest" "deno task cli manifest $(pwd)" tasks
            then del "manifest" tasks else tasks in
  let t2 := if taskIs "cli" cliTask1 t1 || taskIs "cli" cliTask2 t1
            then del "cli" t1 else t1 in
  let t3 := if taskIs "update" "deno run -A -r https://fresh.deno.dev/update ." t2
            then set "update" (JString "deno run -A -r jsr:@fresh/update .") t2 else t2 in
  if taskIs "check"
       "deno fmt --check && deno lint && deno check **/*.ts && deno check **/*.tsx" t3
  then set "check" (JString "deno fmt --check && deno lint && deno check") t3 else t3.

(** Lines 135-141, on an [imports] object. *)
Definition editImports (imports : Obj) : Obj :=
  del "preact-render-to-string"
    (del "@preact/signals-core"
       (del "$fresh/"
          (set "@preact/signals" (JString ("npm:@preact/signals@^" ++ PREACT_SIGNALS_VERSION))
             (set "preact" (JString ("npm:preact@^" ++ PREACT_VERSION))
                (set "fresh" (JString ("jsr:@fresh/core@^" ++ FRESH_VERSION)) imports))))).

(** The callback [updateProject] hands to [updateDenoJson], lines 130-175, on
    the members of the parsed object.  Property writes on an array are not
    serialised, so an array under [imports] comes out as it went in; reading a
    property of [null] throws. *)
Definition editConfig (config : Obj) : Result Obj :=
  let config1 :=
    match lookup "imports" config with
    | Some JNull | Some (JObject _) | Some (JArray _) => config
    | _ => set "imports" (JObject []) config
    end in
  match lookup "imports" config1 with
  | Some JNull => Throw "TypeError: Cannot set properties of null"
  | other =>
      let config2 :=
        match other with
        | Some (JObject imports) => set "imports" (JObject (editImports imports)) config1
        | _ => config1
        end in
      let config3 := del "lock" config2 in
      match lookup "tasks" config3 with
      | Some JNull => Throw "TypeError: Cannot read properties of null"
      | Some (JObject tasks) => Ok (set "tasks" (JObject (editTasks tasks)) config3)
      | _ => Ok config3
      end
  end.

(** The callback on a parsed document.  It writes and reads properties of
    its argument: on an array they are invisible to the serialiser, on a
    primitive the write throws. *)
Definition applyEdit (json : Json) : Result Json :=
  match json with
  | JObject o =>
      match editConfig o with
      | Ok o1 => Ok (JObject o1)
      | Throw m => Throw m
      end
  | JArray items => Ok (JArray items)
  | _ => Throw "TypeError"
  end.

Definition isDefined (kv : string * Json) : bool :=
  match snd kv with JUndefined => false | _ => true end.

(** Lines 79-83: every key whose value is [undefined] is deleted.  Deleting
    an array item leaves a hole, which reads as [undefined] again. *)
Definition removeUndefinedKeys (json : Json) : Json :=
  match json with
  | JObject o => JObject (filter isDefined o)
  | other => other
  end.

(** *** Serialisation: [JSON.stringify(json, null, 2)] *)

Definition hexDigit (n : nat) : string :=
  substring n 1 "0123456789abcdef".

Definition escapeChar (c : ascii) : string :=
  let n := nat_of_ascii c in
  if Nat.eqb n 34 then "\" ++ dq
  else if Nat.eqb n 92 then "\\"
  else if Nat.eqb n 8 then "\b"
  else if Nat.eqb n 12 then "\f"
  else if Nat.eqb n 10 then "\n"
  else if Nat.eqb n 13 then "\r"
  else if Nat.eqb n 9 then "\t"
  else if Nat.ltb n 32 then "\u00" ++ hexDigit (n / 16) ++ hexDigit (n mod 16)
  else String c EmptyString.

Fixpoint escape (s : string) : string :=
  match s with
  | EmptyString => EmptyString
  | String c s' => escapeChar c ++ escape s'
  end.

Definition quote (s : string) : string := dq ++ escape s ++ dq.

Fixpoint somes {A} (l : list (option A)) : list A :=
  match l with
  | [] => []
  | Some x :: rest => x :: somes rest
  | None :: rest => somes rest
  end.

(** A member whose value is [undefined] is left out of an object; an
    [undefined] array item is printed as [null]. *)
Fixpoint stringifyAt (indent : string) (j : Json) {struct j} : string :=
  let inner := indent ++ "  " in
  match j with
  | JUndefined => "null"
  | JNull => "null"
  | JBool true => "true"
  | JBool false => "false"
  | JNumber r => r
  | JString s => quote s
  | JArray items =>
      match map (fun x => inner ++ stringifyAt inner x) items with
      | [] => "[]"
      | lines => "[" ++ nl ++ join ("," ++ nl) lines ++ nl ++ indent ++ "]"
      end
  | JObject members =>
      match somes (map (fun kv =>
                     match kv with
                     | (_, JUndefined) => None
                     | (k, v) => Some (inner ++ quote k ++ ": " ++ stringifyAt inner v)
                     end) members) with
      | [] => "{}"
      | lines => "{" ++ nl ++ join ("," ++ nl) lines ++ nl ++ indent ++ "}"
      end
  end.

Definition stringify (j : Json) : string := stringifyAt EmptyString j.

(** *** [String.prototype.trim] on the one-byte white space characters *)

Definition isWhiteSpace (c : ascii) : bool :=
  let n := nat_of_ascii c in
  (Nat.leb 9 n && Nat.leb n 13) || Nat.eqb n 32.

Fixpoint trimStart (s : string) : string :=
  match s with
  | EmptyString => EmptyString
  | String c s' => if isWhiteSpace c then trimStart s' else s
  end.

Fixpoint trimEnd (s : string) : string :=
  match s with
  | EmptyString => EmptyString
  | String c s' =>
      match trimEnd s' with
      | EmptyString => if isWhiteSpace c then EmptyString else String c EmptyString
      | r => String c r
      end
  end.

Definition trim (s : string) : string := trimEnd (trimStart s).

(** *** [updateDenoJson] *)

(** The files of the project directory: a path has a content or [NotFound]. *)
Definition FileSystem := string -> option string.

Definition writeTextFile (fs : FileSystem) (path content : string) : FileSystem :=
  fun p => if p =? path then Some content else fs p.

Record UpdateResult := mkUpdateResult { updated : bool; path : option string }.

Section UpdateDenoJson.

(** [JSONC.parse] of [@std/jsonc]; [None] is a thrown [SyntaxError]. *)
Variable parse : string -> option Json.

(** Lines 69-103, once the manifest was found at [jsonPath]. *)
Definition updateAt (fs : FileSystem) (jsonPath content : string)
    (fn : Json -> Result Json) : Result (FileSystem * UpdateResult) :=
  let originalContent := content in
  match parse content with
  | None => Throw "SyntaxError"
  | Some json =>
      match fn json with
      | Throw m => Throw m
      | Ok json1 =>
          let newContent := stringify (removeUndefinedKeys json1) in
          if negb (newContent =? trim originalContent)
          then Ok (writeTextFile fs jsonPath (newContent ++ nl),
                   mkUpdateResult true (Some jsonPath))
          else Ok (fs, mkUpdateResult false (Some jsonPath))
      end
  end.

(** [updateDenoJson(dir, fn)], lines 39-104. *)
Definition updateDenoJson (fs : FileSystem) (dir : string)
    (fn : Json -> Result Json) : Result (FileSystem * UpdateResult) :=
  match fs (dir ++ "/deno.json") with
  | Some content => updateAt fs (dir ++ "/deno.json") content fn
  | None =>
      match fs (dir ++ "/deno.jsonc") with
      | Some content => updateAt fs (dir ++ "/deno.jsonc") content fn
      | None => Ok (fs, mkUpdateResult false None)
      end
  end.

(** Phase 1 of [updateProject]: the manifest edit script. *)
Definition updateConfig (fs : FileSystem) (dir : string)
    : Result (FileSystem * UpdateResult) :=
  updateDenoJson fs dir applyEdit.

End UpdateDenoJson.

(** *** Notions used to state the fixed point *)

(** A JavaScript object has each of its keys once. *)
Definition uniqueKeys (j : Json) : Prop :=
  match j with
  | JObject members => NoDup (map fst members)
  | _ => True
  end.

(** An [imports] value the edit script leaves as it is. *)
Definition settledImports (v : option Json) : Prop :=
  match v with
  | Some (JObject imports) => editImports imports = imports
  | Some (JArray _) => True
  | _ => False
  end.

(** A [tasks] value the edit script leaves as it is. *)
Definition settledTasks (v : option Json) : Prop :=
  match v with
  | Some (JObject tasks) => editTasks tasks = tasks
  | Some JNull => False
  | _ => True
  end.

(** The manifest [updateDenoJson] finds: its path and its content. *)
Definition readManifest (fs : FileSystem) (dir : string) : option (string * string) :=
  match fs (dir ++ "/deno.json") with
  | Some content => Some (dir ++ "/deno.json", content)
  | None =>
      match fs (dir ++ "/deno.jsonc") with
      | Some content => Some (dir ++ "/deno.jsonc", content)
      | None => None
      end
  end.

(** The document a run serialises for a manifest with the given content. *)
Definition editedDocument (parse : string -> option Json) (content : string)
    : option Json :=
  match parse content with
  | Some json =>
      match applyEdit json with
      | Ok json1 => Some (removeUndefinedKeys json1)
      | Throw _ => None
      end
  | None => None
  end.

(** The keys the edit script writes or deletes: at the top of the
    configuration, in [imports] and in [tasks]. *)
Definition isEditedTopKey (k : string) : bool :=
  (k =? "imports") || (k =? "lock") || (k =? "tasks").

Definition isEditedImportKey (k : string) : bool :=
  (k =? "fresh") || (k =? "preact") || (k =? "@preact/signals")
  || (k =? "$fresh/") || (k =? "@preact/signals-core") || (k =? "preact-render-to-string").

Definition isEditedTaskKey (k : string) : bool :=
  (k =? "manifest") || (k =? "cli") || (k =? "update") || (k =? "check").

End Manifest.

(** ** [updateProject] *)

Module Project.
Import File.

(** The object each per-file task resolves to, lines 207-223. *)
Record FileResult := mkFileResult {
  success : bool;
  modified : bool;
  path : string;
  error : option string
}.

Record ProjectResult := mkProjectResult {
  configUpdated : bool;
  filesProcessed : nat;
  filesModified : nat;
  errors : nat
}.

(** The variables the tasks share, and the array [Promise.all] resolves to. *)
Record Phase2 := mkPhase2 {
  processedCount : nat;
  modifiedCount : nat;
  results : list FileResult
}.

Section UpdateProject.

(** The parser of ts-morph, and what ts-morph or the file system throws
    while one file is saved and formatted, if anything. *)
Variable parseSource : string -> SourceFile.
Variable failure : SourceFile -> option string.

(** [await updateFile(sourceFile, dir)]. *)
Definition awaitUpdateFile (sf : SourceFile) : Result bool :=
  match updateFile parseSource sf with
  | Throw e => Throw e
  | Ok (_, wasModified) =>
      match failure sf with
      | Some e => Throw e
      | None => Ok wasModified
      end
  end.

(** The result object of one file, whatever happens to the other files. *)
Definition resultOf (sf : SourceFile) : FileResult :=
  match awaitUpdateFile sf with
  | Ok wasModified => mkFileResult true wasModified (sf_filePath sf) None
  | Throw e => mkFileResult false false (sf_filePath sf) (Some e)
  end.

Definition fails (sf : SourceFile) : bool :=
  match awaitUpdateFile sf with Throw _ => true | Ok _ => false end.

(** The task of [sf] did not throw and [updateFile] returned [true]. *)
Definition reportsModified (sf : SourceFile) : bool :=
  match awaitUpdateFile sf with Ok wasModified => wasModified | Throw _ => false end.

(** The callback of [sfs.map], lines 200-225, with its [try]/[catch]. *)
Definition fileTask (st : Phase2) (sf : SourceFile) : Phase2 :=
  match awaitUpdateFile sf with
  | Ok wasModified =>
      mkPhase2 (S (processedCount st))
        (if wasModified then S (modifiedCount st) else modifiedCount st)
        (results st ++ [mkFileResult true wasModified (sf_filePath sf) None])%list
  | Throw err =>
      mkPhase2 (processedCount st) (modifiedCount st)
        (results st ++ [mkFileResult false false (sf_filePath sf) (Some err)])%list
  end.

Definition phase2 (sfs : list SourceFile) : Phase2 :=
  fold_left fileTask sfs (mkPhase2 0 0 []).

(** Line 228 and the paths listed by lines 236-240. *)
Definition failed (rs : list FileResult) : list FileResult :=
  filter (fun r => negb (success r)) rs.

Definition reportedPaths (rs : list FileResult) : list string :=
  map path (failed rs).

(** Lines 256-261. *)
Definition summary (configUpdated : bool) (st : Phase2) : ProjectResult :=
  mkProjectResult configUpdated (processedCount st) (modifiedCount st)
    (List.length (failed (results st))).

(** [updateProject(dir)]: the manifest first, then every source file. *)
Definition updateProject (parse : string -> option Manifest.Json)
    (fs : Manifest.FileSystem) (dir : string) (sfs : list SourceFile)
    : Result ProjectResult :=
  match Manifest.updateConfig parse fs dir with
  | Throw m => Throw m
  | Ok (_, configResult) => Ok (summary (Manifest.updated configResult) (phase2 sfs))
  end.

End UpdateProject.

End Project.

(** ** The command line ([mod.ts]) *)

Module Cli.

(** A positional argument as [parseArgs] returns it. *)
Inductive Positional :=
| PString (s : string)
| PNumber (n : nat).

(** What [Deno.stat(dir)] gives. *)
Inductive Stat :=
| IsDirectory
| NotDirectory
| NotFound
| StatError (message : string).

(** How the script goes on: it prints the help text and exits, it reports an
    error and exits, or it calls [updateProject(dir)]. *)
Inductive Outcome :=
| HelpShown
| Rejected (message : string)
| Started (dir : string).

Section Main.

(** [path.resolve] of [@std/path] and the file system under [Deno.stat]. *)
Variable resolve : string -> string -> string.
Variable stat : string -> Stat.

(** Lines 56-89: the directory named by the arguments, or read from the
    standard input when there is no argument.  [None] is the rejected
    argument of line 84. *)
Definition chooseDirectory (cwd : string) (positional : list Positional)
    (stdin : string) : option string :=
  match positional with
  | [] =>
      let input := Manifest.trim stdin in
      if Nat.ltb 0 (String.length input) then Some (resolve cwd input) else Some cwd
  | PString targetDir :: _ =>
      if Manifest.trim targetDir =? EmptyString then None
      else Some (resolve cwd targetDir)
  | PNumber _ :: _ => None
  end.

(** Lines 91-110: the directory has to exist and to be a directory. *)
Definition validateDirectory (dir : string) : Outcome :=
  match stat dir with
  | IsDirectory => Started dir
  | NotDirectory => Rejected ("Target path is not a directory: " ++ dir)
  | NotFound => Rejected ("Directory not found: " ++ dir)
  | StatError m => Rejected ("Error accessing directory " ++ dir ++ ": " ++ m)
  end.

(** Lines 23-122, up to the call of [updateProject]. *)
Definition main (help : bool) (cwd : string) (positional : list Positional)
    (stdin : string) : Outcome :=
  if help then HelpShown
  else
    match chooseDirectory cwd positional stdin with
    | None => Rejected "Invalid or empty directory specified."
    | Some dir => validateDirectory dir
    end.

End Main.

End Cli.

(** ** Concrete inputs used below *)

Module Examples.
Import Ast Handler Imports File.

(** [ctx.remoteAddr] *)
Definition ctx_remoteAddr : Node :=
  PropertyAccessExpression (Identifier "ctx") "remoteAddr".

(** [ctx.state] *)
Definition ctx_state : Node := PropertyAccessExpression (Identifier "ctx") "state".

(** [ctx.state.renderNotFound()] *)
Definition ctx_state_renderNotFound_call : Node :=
  CallExpression
    (PropertyAccessExpression
       (PropertyAccessExpression (Identifier "ctx") "state") "renderNotFound") [].

(** [new Response(req.url)] *)
Definition newResponse : Node :=
  Other "NewExpression"
    [("new ", Identifier "Response");
     ("(", PropertyAccessExpression (Identifier "req") "url")] ")".

Definition returnResponse : Node := ReturnStatement (Some newResponse).

(** [GET(req) { return new Response(req.url); }], a method of the handler object. *)
Definition getMethod : FunctionLike :=
  mkFunction MethodDeclaration "GET"
    [mkParam (IdentifierName "req") None] (BlockBody [returnResponse]).

(** [export const handler = { GET(req) { ... } }] *)
Definition handlerObject : Declaration :=
  VariableDeclaration "handler" (ObjectLiteralExpression [MethodProperty getMethod]).

(** [{ remoteAddr }] *)
Definition remoteAddrPattern : ObjectBindingPattern :=
  mkPattern EmptyString " " [mkElement "remoteAddr" "remoteAddr"] " ".

(** [(req, { remoteAddr }) => { return new Response(req.url); }] *)
Definition twoArgHandler : FunctionLike :=
  mkFunction ArrowFunction EmptyString
    [mkParam (IdentifierName "req") None; mkParam (ObjectPattern remoteAddrPattern) None]
    (BlockBody [returnResponse]).

(** [(_req) => { return new Response(req.url); }] *)
Definition unusedReqHandler : FunctionLike :=
  mkFunction ArrowFunction EmptyString
    [mkParam (IdentifierName "_req") None] (BlockBody [returnResponse]).

(** A route file with two legacy server imports:
    [import { PageProps } from "$fresh/server.ts";]
    [import { FreshContext } from "$fresh/server.ts";] *)
Definition twoLegacyImports : SourceFile :=
  mkSourceFile "/app/routes/index.tsx" EmptyString
    [mkImport "$fresh/server.ts" None None [mkNamed "PageProps" None];
     mkImport "$fresh/server.ts" None None [mkNamed "FreshContext" None]]
    [].

(** [export function handler(req) { return new Response(req.url); }] *)
Definition handlerFunction : FunctionLike :=
  mkFunction FunctionDeclaration "handler"
    [mkParam (IdentifierName "req") None] (BlockBody [returnResponse]).

(** A route file that already imports from ["fresh"] and whose handler
    still has the old signature. *)
Definition alreadyFresh : SourceFile :=
  mkSourceFile "/app/routes/api.ts" EmptyString
    [mkImport "fresh" None None [mkNamed "HttpError" None]]
    [("handler", FunctionDeclarationNode handlerFunction)].

(** A route file with one legacy server import and an old-style handler. *)
Definition legacyRoute : SourceFile :=
  mkSourceFile "/app/routes/api.ts" EmptyString
    [mkImport "$fresh/server.ts" None None
       [mkNamed "Handlers" None; mkNamed "PageProps" None];
     mkImport "preact" None None [mkNamed "h" None]]
    [("handler", FunctionDeclarationNode handlerFunction)].

(** What [updateFile] makes of [legacyRoute]. *)
Definition legacyRouteUpdated : SourceFile :=
  mkSourceFile "/app/routes/api.ts" EmptyString
    [mkImport "fresh" None None
       [mkNamed "PageProps" None; mkNamed "FreshContext" None];
     mkImport "fresh/compat" None None [mkNamed "Handlers" None]]
    [("handler",
      FunctionDeclarationNode
        (mkFunction FunctionDeclaration "handler"
           [mkParam (IdentifierName "ctx") (Some "FreshContext")]
           (BlockBody [constDecl "req" ctx_req; returnResponse])))].

(** An import state with one core name and one runtime name. *)
Definition coreAndRuntime : ImportState :=
  mkImportState ["FreshContext"] ["IS_BROWSER"] [].

(** A one-parameter handler normalised with a typed context: the parameter is
    [ctx: FreshContext], the body starts with [const req = ctx.req], and
    [FreshContext] is in the core set. *)
Definition typedCtxHandler (before after : FunctionLike) (st : ImportState) : Prop :=
  fn_params after = [mkParam (IdentifierName "ctx") (Some "FreshContext")]
  /\ (exists ss, fn_body before = BlockBody ss
                 /\ fn_body after = BlockBody (constDecl "req" ctx_req :: ss))
  /\ set_has "FreshContext" (core st) = true.

(** A two-argument handler normalised so that both
    [const remoteAddr = info.remoteAddr] and [const req = ctx.req] lead the
    body. *)
Definition bothDeclarationsLead (before after : FunctionLike) : Prop :=
  exists ss rest,
    fn_body before = BlockBody ss
    /\ fn_body after = BlockBody rest
    /\ In (constDecl "remoteAddr" info_remoteAddr) rest
    /\ In (constDecl "req" ctx_req) rest.

(** A Fresh 1.x manifest, [{"lock": false}], the object it parses to, and the
    object the edit script turns it into. *)
Definition legacyManifestText : string :=
  "{" ++ dq ++ "lock" ++ dq ++ ": false}".

Definition legacyManifest : Manifest.Json :=
  Manifest.JObject [("lock", Manifest.JBool false)].

Definition updatedManifest : Manifest.Json :=
  Manifest.JObject
    [("imports",
      Manifest.JObject
        [("fresh", Manifest.JString "jsr:@fresh/core@^2.0.0-alpha.34");
         ("preact", Manifest.JString "npm:preact@^10.26.6");
         ("@preact/signals", Manifest.JString "npm:@preact/signals@^2.0.4")])].

(** A parser that knows the two texts of this example. *)
Definition parseExample (content : string) : option Manifest.Json :=
  if content =? legacyManifestText then Some legacyManifest
  else if content =? Manifest.stringify updatedManifest ++ nl then Some updatedManifest
  else None.

(** A project directory holding only [deno.json]. *)
Definition legacyProject : Manifest.FileSystem :=
  fun p => if p =? "/app/deno.json" then Some legacyManifestText else None.

(** A file whose only content is a block comment in which one directive
    line is cut in two by another:
    [/*]
    [/// <reference lib="dom/// <reference lib="dom" />]
    [" />]
    [*/] *)
Definition nestedDirective : SourceFile :=
  mkSourceFile "/app/main.ts"
    ("/*" ++ nl ++ "/// <reference lib=" ++ dq ++ "dom" ++ Text.reference "lib" "dom"
       ++ dq ++ " />" ++ nl ++ "*/" ++ nl)
    [] [].

(** [export function handler(req, ctx, next) { return new Response(req.url); }] *)
Definition threeParameters : SourceFile :=
  mkSourceFile "/app/routes/api.ts" EmptyString []
    [("handler",
      FunctionDeclarationNode
        (mkFunction FunctionDeclaration "handler"
           [mkParam (IdentifierName "req") None;
            mkParam (IdentifierName "ctx") None;
            mkParam (IdentifierName "next") None]
           (BlockBody [returnResponse])))].

(** [console.log(ctx.remoteAddr);]: the legacy access is an argument. *)
Definition logRemoteAddr : Node :=
  ExpressionStatement
    (CallExpression (PropertyAccessExpression (Identifier "console") "log")
       [ctx_remoteAddr]).

(** [if (req.bodyUsed) { items.forEach((item) => console.log(item)); return new Response(req.url); }] *)
Definition ifBodyUsed : Node :=
  Other "IfStatement"
    [("if (", PropertyAccessExpression (Identifier "req") "bodyUsed");
     (") ",
      Block
        [ExpressionStatement
           (CallExpression (PropertyAccessExpression (Identifier "items") "forEach")
              [Ast.ArrowFunction "(item)"
                 (CallExpression (PropertyAccessExpression (Identifier "console") "log")
                    [Identifier "item"])]);
         returnResponse])]
    EmptyString.

(** [ctx.state.user] *)
Definition ctx_state_user : Node :=
  PropertyAccessExpression (PropertyAccessExpression (Identifier "ctx") "state") "user".

(** [(req, ctx: RouteContext) => { return new Response(req.url); }] *)
Definition reqCtxHandler : FunctionLike :=
  mkFunction ArrowFunction EmptyString
    [mkParam (IdentifierName "req") None;
     mkParam (IdentifierName "ctx") (Some "RouteContext")]
    (BlockBody [returnResponse]).

(** [(_req, ctx) => { return new Response(req.url); }] *)
Definition unusedReqCtxHandler : FunctionLike :=
  mkFunction ArrowFunction EmptyString
    [mkParam (IdentifierName "_req") None; mkParam (IdentifierName "ctx") None]
    (BlockBody [returnResponse]).

(** [(req) => new Response(req.url)] *)
Definition expressionHandler : FunctionLike :=
  mkFunction ArrowFunction EmptyString
    [mkParam (IdentifierName "req") None]
    (ExpressionBody newResponse).

(** [(ctx) => { return new Response(req.url); }] *)
Definition newStyleHandler : FunctionLike :=
  mkFunction ArrowFunction EmptyString
    [mkParam (IdentifierName "ctx") None] (BlockBody [returnResponse]).

(** [{ params, remoteAddr }] with a comment in front of it. *)
Definition commentedPattern : ObjectBindingPattern :=
  mkPattern "/* ctx */ " " "
    [mkElement "params" "params"; mkElement "remoteAddr" "remoteAddr"] " ".

(** [(req, /* ctx */ { params, remoteAddr }) => { return new Response(req.url); }] *)
Definition commentedHandler : FunctionLike :=
  mkFunction ArrowFunction EmptyString
    [mkParam (IdentifierName "req") None;
     mkParam (ObjectPattern commentedPattern) None]
    (BlockBody [returnResponse]).

(** An island that imports [IS_BROWSER] from ["$fresh/runtime.ts"]. *)
Definition islandCounter : SourceFile :=
  mkSourceFile "/app/islands/Counter.tsx" EmptyString
    [mkImport "$fresh/runtime.ts" None None [mkNamed "IS_BROWSER" None]] [].

(** [import { Handlers as H, PageProps } from "$fresh/server.ts";] *)
Definition serverImport : ImportDeclaration :=
  mkImport "$fresh/server.ts" None None
    [mkNamed "Handlers" (Some "H"); mkNamed "PageProps" None].

(** [import { IS_BROWSER } from "$fresh/runtime.ts";] *)
Definition runtimeImport : ImportDeclaration :=
  mkImport "$fresh/runtime.ts" None None [mkNamed "IS_BROWSER" None].

(** [import { useSignal } from "@preact/signals";] *)
Definition signalsImport : ImportDeclaration :=
  mkImport "@preact/signals" None None [mkNamed "useSignal" None].

(** A route file written for the new API. *)
Definition migratedRoute : SourceFile :=
  mkSourceFile "/app/routes/index.tsx" ("// home page" ++ nl)
    [mkImport "fresh" None None [mkNamed "FreshContext" None]; signalsImport]
    [("handler",
      FunctionDeclarationNode
        (mkFunction FunctionDeclaration "handler"
           [mkParam (IdentifierName "ctx") (Some "FreshContext")]
           (BlockBody
              [constDecl "req" ctx_req;
               ExpressionStatement
                 (CallExpression
                    (PropertyAccessExpression (Identifier "console") "log")
                    [ctx_state_user]);
               returnResponse])))].

(** A route file that imports the legacy server module as a namespace and
    whose handler still has the old signature:
    [import * as server from "$fresh/server.ts";] *)
Definition namespaceRoute : SourceFile :=
  mkSourceFile "/app/routes/api.ts" EmptyString
    [mkImport "$fresh/server.ts" None (Some "server") []]
    [("handler", FunctionDeclarationNode handlerFunction)].

(** Nothing fails while a file is saved and formatted. *)
Definition savesAll (sf : SourceFile) : option string := None.

(** A file system in which only [/app] is a directory. *)
Definition onlyApp (dir : string) : Cli.Stat :=
  if dir =? "/app" then Cli.IsDirectory else Cli.NotFound.

(** [path.resolve] on an absolute second argument. *)
Definition resolveAbsolute (cwd target : string) : string := target.

(** A parser for files that hold nothing but comments: the whole text is
    leading text. *)
Definition parseComments (text : string) : SourceFile :=
  mkSourceFile EmptyString text [] [].

(** [{remoteAddr}], written without spaces. *)
Definition tightPattern : ObjectBindingPattern :=
  mkPattern EmptyString EmptyString [mkElement "remoteAddr" "remoteAddr"] EmptyString.

(** [(req, {remoteAddr}) => { return new Response(req.url); }] *)
Definition tightHandler : FunctionLike :=
  mkFunction ArrowFunction EmptyString
    [mkParam (IdentifierName "req") None; mkParam (ObjectPattern tightPattern) None]
    (BlockBody [returnResponse]).

(** [import { h, render } from "preact";] *)
Definition preactImport : ImportDeclaration :=
  mkImport "preact" None None [mkNamed "h" None; mkNamed "render" None].

End Examples.

(** * Properties *)

(** ** Strings *)

Module StringFacts.

Lemma length_append :
  forall a b : string, String.length (a ++ b) = String.length a + String.length b.
Proof.
  induction a as [|c a IH]; intros b; [reflexivity|]. cbn. now rewrite IH.
Qed.

Lemma length_join :
  forall sep l x, In x l -> String.length x <= String.length (join sep l).
Proof.
  intros sep l x. induction l as [|y [|z rest] IH]; intros H.
  - destruct H.
  - destruct H as [<- | []]. cbn. lia.
  - change (join sep (y :: z :: rest)) with (y ++ sep ++ join sep (z :: rest)).
    rewrite !length_append. destruct H as [<- | H]; [lia|].
    specialize (IH H). lia.
Qed.

Lemma append_assoc : forall a b c : string, (a ++ b) ++ c = a ++ (b ++ c).
Proof.
  induction a as [|x a IH]; intros b c; [reflexivity|]. cbn. now rewrite IH.
Qed.

Lemma substring_whole : forall y, substring 0 (String.length y) y = y.
Proof. induction y as [|c y IH]; [reflexivity|]. cbn. now rewrite IH. Qed.

Lemma substring_leading :
  forall x k y, substring 0 (String.length x + k) (x ++ y) = x ++ substring 0 k y.
Proof.
  induction x as [|c x IH]; intros k y; [reflexivity|]. cbn. now rewrite IH.
Qed.

Lemma substring_prefix :
  forall x y, substring 0 (String.length x) (x ++ y) = x.
Proof.
  induction x as [|c x IH]; intros y; cbn; [now destruct y | now rewrite IH].
Qed.

Lemma substring_suffix :
  forall x y,
    substring (String.length x) (String.length (x ++ y) - String.length x) (x ++ y) = y.
Proof.
  induction x as [|c x IH]; intros y.
  - cbn [String.length append]. rewrite Nat.sub_0_r. apply substring_whole.
  - cbn. apply IH.
Qed.

Lemma long_text_is_not_ctx :
  forall s, 4 <= String.length s -> (s =? "ctx") = false.
Proof.
  intros s H. apply String.eqb_neq. intros ->. cbn in H. lia.
Qed.

End StringFacts.

(** ** Member-access rewriter *)

Module AstFacts.
Import Ast Examples StringFacts.

(** C3: on [ctx.remoteAddr] the rewriter replaces the receiver [ctx] by
    [ctx.info.remoteAddr] and keeps the accessed name, so the expression that
    results reads [ctx.info.remoteAddr.remoteAddr], not [ctx.info.remoteAddr]. *)
Theorem rewriteCtxMemberName_remoteAddr :
  forall parentIsCall,
    rewriteCtxMemberName parentIsCall ctx_remoteAddr
      = (PropertyAccessExpression ctx_info_remoteAddr "remoteAddr", false)
    /\ getText (fst (rewriteCtxMemberName parentIsCall ctx_remoteAddr))
         = "ctx.info.remoteAddr.remoteAddr"
    /\ getText (rewriteNode ctx_remoteAddr) <> "ctx.info.remoteAddr".
Proof.
  intros b. repeat split; try reflexivity. discriminate.
Qed.

Lemma rewriteCtxMemberName_renderNotFound :
  forall parentIsCall e,
    rewriteCtxMemberName parentIsCall (PropertyAccessExpression e "renderNotFound")
      = (PropertyAccessExpression e "throw", parentIsCall).
Proof.
  intros b e. cbn [rewriteCtxMemberName].
  replace ("renderNotFound" =? "remoteAddr") with false by reflexivity.
  rewrite Bool.andb_false_r.
  replace ("renderNotFound" =? "renderNotFound") with true by reflexivity.
  reflexivity.
Qed.

(** The text of a property access is never the bare identifier [ctx]. *)
Lemma getText_access_not_ctx :
  forall e name, (getText (PropertyAccessExpression e name) =? "ctx") = false.
Proof.
  intros e name. apply String.eqb_neq. cbn [getText].
  destruct (getText e) as [|c1 [|c2 [|c3 [|c4 s]]]]; cbn; intros H;
    inversion H.
Qed.

Lemma rewriteCtxMemberName_settled :
  forall n parentIsCall, pending n = false -> rewriteCtxMemberName parentIsCall n = (n, false).
Proof.
  induction n; intros b H; try reflexivity.
  cbn [pending] in H.
  apply Bool.orb_false_elim in H as [H Hp].
  apply Bool.orb_false_elim in H as [H1 H2].
  cbn [rewriteCtxMemberName]. rewrite H1, H2.
  destruct n; try reflexivity.
  now rewrite IHn.
Qed.

Lemma rewriteCtxMemberName_access :
  forall parentIsCall n,
    isAccess (fst (rewriteCtxMemberName parentIsCall n)) = isAccess n.
Proof.
  intros b n. destruct n; try reflexivity.
  cbn [rewriteCtxMemberName].
  destruct ((getText n =? "ctx") && (name =? "remoteAddr")); [reflexivity|].
  destruct (name =? "renderNotFound"); [reflexivity|].
  destruct n; reflexivity.
Qed.

Lemma access_text_not_ctx :
  forall n, isAccess n = true -> (getText n =? "ctx") = false.
Proof.
  intros n H. destruct n; try discriminate H. apply getText_access_not_ctx.
Qed.

Lemma rewriteCtxMemberName_leaves_nothing :
  forall n parentIsCall,
    chainOk n = true -> pending (fst (rewriteCtxMemberName parentIsCall n)) = false.
Proof.
  induction n; intros b H; try reflexivity.
  cbn [chainOk] in H. cbn [rewriteCtxMemberName].
  destruct ((getText n =? "ctx") && (name =? "remoteAddr")) eqn:E1.
  - apply Bool.andb_true_iff in E1 as [_ E1]. apply String.eqb_eq in E1. subst name.
    reflexivity.
  - destruct (name =? "renderNotFound") eqn:E2.
    + cbn [fst pending]. apply Bool.negb_true_iff in H. rewrite H.
      now rewrite Bool.andb_false_r.
    + assert (Hrec : pending (fst (rewriteCtxMemberName false n)) = false)
        by now apply IHn.
      destruct n; cbn [fst pending]; rewrite ?E1, ?E2; try reflexivity.
      rewrite Hrec, access_text_not_ctx; [reflexivity|].
      now rewrite rewriteCtxMemberName_access.
Qed.

Lemma rewriteNode_access : forall n, isAccess (rewriteNode n) = isAccess n.
Proof.
  destruct n; try reflexivity.
  - apply rewriteCtxMemberName_access.
  - cbn [rewriteNode]. destruct n; reflexivity.
  - destruct expression; reflexivity.
Qed.

Lemma rewriteNode_on_settled_access :
  forall n b, chainOk n = true ->
    rewriteCtxMemberName b (fst (rewriteCtxMemberName b n))
      = (fst (rewriteCtxMemberName b n), false).
Proof.
  intros n b H. apply rewriteCtxMemberName_settled.
  now apply rewriteCtxMemberName_leaves_nothing.
Qed.

Lemma rewriteNode_of_access :
  forall n, isAccess n = true -> rewriteNode n = fst (rewriteCtxMemberName false n).
Proof. destruct n; intros H; try discriminate H; reflexivity. Qed.

Lemma rewriteNode_of_call :
  forall e args,
    rewriteNode (CallExpression e args)
      = if isAccess e
        then CallExpression (fst (rewriteCtxMemberName true e))
               (if snd (rewriteCtxMemberName true e) then (args ++ [lit404])%list else args)
        else CallExpression (rewriteNode e) args.
Proof. intros e args. destruct e; reflexivity. Qed.

(** One visit settles a node: a second visit changes nothing. *)
Lemma rewriteNode_idempotent :
  forall n, nodeOk n = true -> rewriteNode (rewriteNode n) = rewriteNode n.
Proof.
  induction n as [ | | n name IHn | n args IHn IHargs | n IHn | l op r IHl IHr
                 | p body IHbody | ss IHss | e ss IHss | | n IHn
                 | k decls IHdecls | n IHn | k cs t IHcs ] using Node_induction;
    intros Hok; try reflexivity.
  - (* property access *)
    rewrite (rewriteNode_of_access (PropertyAccessExpression n name)) by reflexivity.
    rewrite rewriteNode_of_access by now rewrite rewriteCtxMemberName_access.
    now rewrite rewriteNode_on_settled_access.
  - (* call *)
    rewrite rewriteNode_of_call.
    destruct (isAccess n) eqn:Ea.
    + assert (Hc : chainOk n = true) by (destruct n; try discriminate Ea; exact Hok).
      rewrite rewriteNode_of_call, rewriteCtxMemberName_access, Ea.
      now rewrite rewriteNode_on_settled_access.
    + assert (Hn : nodeOk n = true) by (destruct n; try discriminate Ea; exact Hok).
      rewrite rewriteNode_of_call, rewriteNode_access, Ea.
      now rewrite IHn.
  - cbn in *. now rewrite IHn.
  - cbn in *. apply Bool.andb_true_iff in Hok as [Hl Hr]. now rewrite IHl, IHr.
  - cbn in *. now rewrite IHn.
  - (* variable statement *)
    cbn [rewriteNode nodeOk] in *. f_equal. rewrite map_map.
    induction decls as [|[x [i|]] decls IHd]; [reflexivity| |];
      cbn [map forallb fst snd] in *;
      inversion IHdecls as [|d ds Hd Hds]; subst.
    + apply Bool.andb_true_iff in Hok as [Hi Hrest].
      cbn [snd] in Hd. rewrite (Hd Hi), (IHd Hds Hrest). reflexivity.
    + cbn [andb] in Hok. now rewrite (IHd Hds Hok).
  - cbn in *. now rewrite IHn.
Qed.

Lemma iter_settled :
  forall (f : Node -> Node) x visits,
    f (f x) = f x -> 1 <= visits -> Nat.iter visits f x = f x.
Proof.
  intros f x visits Hf Hv. destruct visits as [|v]; [lia|]. clear Hv.
  induction v as [|v IH]; [reflexivity|].
  change (Nat.iter (S (S v)) f x) with (f (Nat.iter (S v) f x)).
  now rewrite IH.
Qed.

Lemma iter_fixed :
  forall (f : Node -> Node) x visits, f x = x -> Nat.iter visits f x = x.
Proof.
  intros f x visits H. induction visits as [|v IH]; [reflexivity|].
  change (Nat.iter (S v) f x) with (f (Nat.iter v f x)).
  now rewrite IH.
Qed.

Lemma untouched_rewriteNode :
  forall n, untouched n = true -> rewriteNode n = n.
Proof.
  induction n as [ | | n name IHn | n args IHn IHargs | n IHn | l op r IHl IHr
                 | p body IHbody | ss IHss | e ss IHss | | n IHn
                 | k decls IHdecls | n IHn | k cs t IHcs ] using Node_induction;
    intros Hu; try reflexivity.
  - cbn [untouched] in Hu. apply Bool.negb_true_iff in Hu.
    cbn [rewriteNode]. now rewrite rewriteCtxMemberName_settled.
  - rewrite rewriteNode_of_call. destruct (isAccess n) eqn:Ea.
    + assert (Hp : pending n = false)
        by (destruct n; try discriminate Ea; now apply Bool.negb_true_iff).
      now rewrite rewriteCtxMemberName_settled.
    + assert (Hn : untouched n = true) by (destruct n; try discriminate Ea; exact Hu).
      now rewrite IHn.
  - cbn in *. now rewrite IHn.
  - cbn in *. apply Bool.andb_true_iff in Hu as [Hl Hr]. now rewrite IHl, IHr.
  - cbn in *. now rewrite IHn.
  - cbn [rewriteNode untouched] in *. f_equal.
    induction decls as [|[x [i|]] decls IHd]; [reflexivity| |];
      cbn [map forallb fst snd] in *;
      inversion IHdecls as [|d ds Hd Hds]; subst.
    + apply Bool.andb_true_iff in Hu as [Hi Hrest].
      cbn [snd] in Hd. rewrite (Hd Hi), (IHd Hds Hrest). reflexivity.
    + cbn [andb] in Hu. now rewrite (IHd Hds Hu).
  - cbn in *. now rewrite IHn.
Qed.

(** *** Lists of children *)

Lemma map_fixed :
  forall (A : Type) (f : A -> A) l, Forall (fun x => f x = x) l -> map f l = l.
Proof.
  intros A f l H. induction H as [|x l Hx _ IH]; [reflexivity|].
  cbn. now rewrite Hx, IH.
Qed.

Lemma map_equal :
  forall (A B : Type) (f g : A -> B) l,
    Forall (fun x => f x = g x) l -> map f l = map g l.
Proof.
  intros A B f g l H. induction H as [|x l Hx _ IH]; [reflexivity|].
  cbn. now rewrite Hx, IH.
Qed.

Lemma existsb_map_same :
  forall (A : Type) (h : A -> bool) (f : A -> A) l,
    Forall (fun x => h (f x) = h x) l -> existsb h (map f l) = existsb h l.
Proof.
  intros A h f l H. induction H as [|x l Hx _ IH]; [reflexivity|].
  cbn. now rewrite Hx, IH.
Qed.

Lemma existsb_false_Forall :
  forall (A : Type) (h : A -> bool) l,
    existsb h l = false -> Forall (fun x => h x = false) l.
Proof.
  intros A h l. induction l as [|x l IH]; intros H; [constructor|].
  cbn in H. apply Bool.orb_false_elim in H as [Hx Hl]. constructor; auto.
Qed.

Lemma Forall_both :
  forall (A : Type) (P Q R : A -> Prop) l,
    Forall P l -> Forall Q l -> (forall x, P x -> Q x -> R x) -> Forall R l.
Proof.
  intros A P Q R l HP. induction HP as [|x l Hx _ IH]; intros HQ Himp; [constructor|].
  inversion HQ; subst. constructor; auto.
Qed.

(** *** The shape of a node is kept by every edit *)

Lemma rewriteCtxMemberName_unfold :
  forall b e name,
    rewriteCtxMemberName b (PropertyAccessExpression e name)
      = if (getText e =? "ctx") && (name =? "remoteAddr")
        then (PropertyAccessExpression ctx_info_remoteAddr name, false)
        else if name =? "renderNotFound"
             then (PropertyAccessExpression e "throw", b)
             else if isAccess e
                  then (PropertyAccessExpression (fst (rewriteCtxMemberName false e)) name,
                        false)
                  else (PropertyAccessExpression e name, false).
Proof. intros b e name. destruct e; reflexivity. Qed.

Lemma rewriteCtxMemberName_other :
  forall b n, isAccess n = false -> rewriteCtxMemberName b n = (n, false).
Proof. intros b n H. destruct n; try reflexivity. discriminate H. Qed.

Lemma rewriteDescendants_access :
  forall v n, isAccess (rewriteDescendants v n) = isAccess n.
Proof. intros v n. destruct n as [ | | | | | | | | | [e|] | | | ]; reflexivity. Qed.

Lemma rewriteDescendants_of_access :
  forall v n,
    isAccess n = true -> rewriteDescendants v n = mapChildren (rewriteDescendants v) n.
Proof. intros v n H. destruct n; try discriminate H. reflexivity. Qed.

Lemma rewriteDescendants_block :
  forall v n, isBlock (rewriteDescendants v n) = isBlock n.
Proof. intros v n. destruct n as [ | | | | | | | | | [e|] | | | ]; reflexivity. Qed.

Lemma rewriteNode_block : forall n, isBlock (rewriteNode n) = isBlock n.
Proof.
  intros n. destruct n as [ | | e name | e args | | | | | | [e|] | | | ]; try reflexivity.
  - pose proof (rewriteCtxMemberName_access false (PropertyAccessExpression e name)) as H.
    cbn [rewriteNode]. destruct (fst _); try discriminate H; reflexivity.
  - rewrite rewriteNode_of_call. destruct (isAccess e); reflexivity.
Qed.

Lemma rewriteNode_visitsDescendants :
  forall n, visitsDescendants (rewriteNode n) = visitsDescendants n.
Proof.
  intros n. destruct n as [ | | e name | e args | | | | | | [e|] | | | ]; try reflexivity.
  - pose proof (rewriteCtxMemberName_access false (PropertyAccessExpression e name)) as H.
    cbn [rewriteNode]. destruct (fst _); try discriminate H; reflexivity.
  - rewrite rewriteNode_of_call. destruct (isAccess e); reflexivity.
Qed.

Lemma mapChildren_visitsDescendants :
  forall f n, visitsDescendants (mapChildren f n) = visitsDescendants n.
Proof. intros f n. destruct n as [ | | | | | | | | | [e|] | | | ]; reflexivity. Qed.

Lemma iter_invariant :
  forall (A : Type) (h : Node -> A) (f : Node -> Node) k x,
    (forall y, h (f y) = h y) -> h (Nat.iter k f x) = h x.
Proof.
  intros A h f k x H. induction k as [|k IH]; [reflexivity|].
  change (Nat.iter (S k) f x) with (f (Nat.iter k f x)). now rewrite H.
Qed.

Lemma rewriteEntry_visitsInside :
  forall w v s, visitsInside w (rewriteEntry v s) = visitsInside w s.
Proof.
  intros w v s. unfold visitsInside, rewriteEntry.
  rewrite (iter_invariant _ visitsDescendants) by apply rewriteNode_visitsDescendants.
  now rewrite mapChildren_visitsDescendants.
Qed.

(** *** A node that holds no function holds no entry *)

Lemma rewriteDescendants_without_statements :
  forall n, holdsStatements n = false -> forall v, rewriteDescendants v n = n.
Proof.
  induction n as [ | | n name IHn | n args IHn IHargs | n IHn | l op r IHl IHr
                 | p body IHbody | ss IHss | e ss IHss | | n IHn
                 | k decls IHdecls | n IHn | k cs t IHcs ] using Node_induction;
    intros H v; try reflexivity; try discriminate H; cbn in H |- *.
  - now rewrite IHn.
  - apply Bool.orb_false_elim in H as [He Ha]. rewrite (IHn He). f_equal.
    apply map_fixed.
    apply (Forall_both _ _ _ _ _ IHargs (existsb_false_Forall _ _ _ Ha)). auto.
  - now rewrite IHn.
  - apply Bool.orb_false_elim in H as [Hl Hr]. now rewrite IHl, IHr.
  - now rewrite IHn.
  - f_equal. apply map_fixed.
    apply (Forall_both _ _ _ _ _ IHdecls (existsb_false_Forall _ _ _ H)).
    intros [x [i|]] Hi Hh; cbn in *; [now rewrite Hi | reflexivity].
  - now rewrite IHn.
  - f_equal. apply map_fixed.
    apply (Forall_both _ _ _ _ _ IHcs (existsb_false_Forall _ _ _ H)).
    intros [x c] Hi Hh; cbn in *. now rewrite Hi.
Qed.

Lemma existsb_witness :
  forall (A : Type) (h : A -> bool) l,
    existsb h l = true -> exists x, In x l /\ h x = true.
Proof. intros A h l H. now apply existsb_exists. Qed.

Lemma statements_make_text_long :
  forall n, holdsStatements n = true -> 4 <= String.length (getText n).
Proof.
  induction n as [ | | n name IHn | n args IHn IHargs | n IHn | l op r IHl IHr
                 | p body IHbody | ss IHss | e ss IHss | | n IHn
                 | k decls IHdecls | n IHn | k cs t IHcs ] using Node_induction;
    intros H; try discriminate H; cbn [holdsStatements getText] in *;
    rewrite ?length_append.
  - specialize (IHn H). lia.
  - apply Bool.orb_true_iff in H as [H | H].
    + specialize (IHn H). lia.
    + apply existsb_witness in H as (a & Ha & Hh).
      rewrite Forall_forall in IHargs. specialize (IHargs a Ha Hh).
      pose proof (length_join ", " (map getText args) (getText a) (in_map _ _ _ Ha)).
      cbn [String.length]. lia.
  - cbn [String.length]. lia.
  - apply Bool.orb_true_iff in H as [H | H]; [specialize (IHl H) | specialize (IHr H)]; lia.
  - cbn [String.length]. lia.
  - cbn [String.length]. lia.
  - destruct e; rewrite ?length_append; cbn [String.length]; lia.
  - cbn [String.length]. lia.
  - apply existsb_witness in H as ([x [i|]] & Hd & Hh); [|discriminate Hh].
    rewrite Forall_forall in IHdecls. specialize (IHdecls _ Hd Hh). cbn [snd] in IHdecls.
    pose proof (length_join ", "
                  (map (fun d => match snd d with
                                 | None => fst d
                                 | Some i => fst d ++ " = " ++ getText i
                                 end) decls)
                  (x ++ " = " ++ getText i)) as Hj.
    rewrite !length_append in Hj.
    assert (Hin : In (x ++ " = " ++ getText i)
                     (map (fun d => match snd d with
                                    | None => fst d
                                    | Some i => fst d ++ " = " ++ getText i
                                    end) decls)).
    { apply in_map_iff. exists (x, Some i). split; [reflexivity | exact Hd]. }
    specialize (Hj Hin). lia.
  - specialize (IHn H). lia.
  - apply existsb_witness in H as ([x c] & Hc & Hh).
    rewrite Forall_forall in IHcs. specialize (IHcs _ Hc Hh). cbn [snd] in IHcs.
    pose proof (length_join EmptyString
                  (map (fun c => fst c ++ getText (snd c)) cs) (x ++ getText c)) as Hj.
    rewrite length_append in Hj.
    assert (Hin : In (x ++ getText c) (map (fun c => fst c ++ getText (snd c)) cs)).
    { apply in_map_iff. exists (x, c). split; [reflexivity | exact Hc]. }
    specialize (Hj Hin). lia.
Qed.

Lemma rewriteDescendants_holdsStatements :
  forall n v, holdsStatements (rewriteDescendants v n) = holdsStatements n.
Proof.
  induction n as [ | | n name IHn | n args IHn IHargs | n IHn | l op r IHl IHr
                 | p body IHbody | ss IHss | e ss IHss | | n IHn
                 | k decls IHdecls | n IHn | k cs t IHcs ] using Node_induction;
    intros v; try reflexivity; cbn [rewriteDescendants mapChildren holdsStatements].
  - apply IHn.
  - rewrite IHn. f_equal. apply existsb_map_same.
    eapply Forall_impl; [|exact IHargs]. auto.
  - apply IHn.
  - now rewrite IHl, IHr.
  - apply IHn.
  - induction IHdecls as [|[x [i|]] decls Hd _ IH]; [reflexivity| |]; cbn in *.
    + now rewrite Hd, IH.
    + exact IH.
  - apply IHn.
  - induction IHcs as [|[x c] cs Hc _ IH]; [reflexivity|]; cbn in *.
    now rewrite Hc, IH.
Qed.

(** Whether a receiver reads [ctx] does not depend on the edits inside it. *)
Lemma rewriteDescendants_ctx :
  forall v e, (getText (rewriteDescendants v e) =? "ctx") = (getText e =? "ctx").
Proof.
  intros v e. destruct (holdsStatements e) eqn:H.
  - rewrite !long_text_is_not_ctx; [reflexivity | |];
      apply statements_make_text_long; [|now rewrite rewriteDescendants_holdsStatements];
      exact H.
  - now rewrite rewriteDescendants_without_statements.
Qed.

(** *** The edits of a visit and the edits inside nested functions commute *)

Lemma rewriteCtxMemberName_descendants :
  forall n v b,
    isAccess n = true ->
    rewriteCtxMemberName b (rewriteDescendants v n)
      = (rewriteDescendants v (fst (rewriteCtxMemberName b n)),
         snd (rewriteCtxMemberName b n)).
Proof.
  induction n; intros v b Ha; try discriminate Ha.
  change (rewriteDescendants v (PropertyAccessExpression n name))
    with (PropertyAccessExpression (rewriteDescendants v n) name).
  rewrite !rewriteCtxMemberName_unfold, rewriteDescendants_ctx, rewriteDescendants_access.
  destruct ((getText n =? "ctx") && (name =? "remoteAddr")); [reflexivity|].
  destruct (name =? "renderNotFound"); [reflexivity|].
  destruct (isAccess n) eqn:E; [|reflexivity].
  rewrite (IHn v false eq_refl). reflexivity.
Qed.

Lemma rewriteNode_descendants :
  forall n v,
    rewriteNode (rewriteDescendants v n) = rewriteDescendants v (rewriteNode n)
    /\ rewriteNode (mapChildren (rewriteDescendants v) n)
       = mapChildren (rewriteDescendants v) (rewriteNode n).
Proof.
  induction n as [ | | n name IHn | n args IHn IHargs | n IHn | l op r IHl IHr
                 | p body IHbody | ss IHss | e ss IHss | | n IHn
                 | k decls IHdecls | n IHn | k cs t IHcs ] using Node_induction;
    intros v; try (split; reflexivity).
  - (* property access *)
    assert (H : rewriteNode (rewriteDescendants v (PropertyAccessExpression n name))
                = rewriteDescendants v (rewriteNode (PropertyAccessExpression n name))).
    { rewrite rewriteNode_of_access by now rewrite rewriteDescendants_access.
      rewrite rewriteCtxMemberName_descendants by reflexivity. reflexivity. }
    split; [exact H|].
    rewrite <- (rewriteDescendants_of_access v
                  (rewriteNode (PropertyAccessExpression n name)))
      by now rewrite rewriteNode_access.
    exact H.
  - (* call *)
    assert (H : rewriteNode (rewriteDescendants v (CallExpression n args))
                = rewriteDescendants v (rewriteNode (CallExpression n args))).
    { change (rewriteDescendants v (CallExpression n args))
        with (CallExpression (rewriteDescendants v n) (map (rewriteDescendants v) args)).
      rewrite !rewriteNode_of_call, rewriteDescendants_access.
      destruct (isAccess n) eqn:E.
      - rewrite rewriteCtxMemberName_descendants by exact E. cbn [fst snd].
        destruct (snd (rewriteCtxMemberName true n)); cbn [rewriteDescendants mapChildren];
          rewrite ?map_app; reflexivity.
      - destruct (IHn v) as [IH _]. rewrite IH. reflexivity. }
    split; [exact H|].
    rewrite rewriteNode_of_call in H |- *. destruct (isAccess n); exact H.
  - destruct (IHn v) as [IH _]. split; cbn; now rewrite IH.
  - destruct (IHl v) as [Hl _], (IHr v) as [Hr _]. split; cbn; now rewrite Hl, Hr.
  - destruct (IHn v) as [IH _]. split; cbn; now rewrite IH.
  - assert (H : rewriteNode (rewriteDescendants v (VariableStatement k decls))
                = rewriteDescendants v (rewriteNode (VariableStatement k decls))).
    { cbn [rewriteDescendants mapChildren rewriteNode]. f_equal. rewrite !map_map.
      apply map_equal. eapply Forall_impl; [|exact IHdecls].
      intros [x [i|]] Hi; cbn in *; [|reflexivity].
      destruct (Hi v) as [IH _]. now rewrite IH. }
    split; exact H.
  - destruct (IHn v) as [IH _]. split; cbn; now rewrite IH.
Qed.

Lemma iter_rewriteNode_children :
  forall k v n,
    mapChildren (rewriteDescendants v) (Nat.iter k rewriteNode n)
      = Nat.iter k rewriteNode (mapChildren (rewriteDescendants v) n).
Proof.
  intros k v n. induction k as [|k IH]; [reflexivity|].
  change (Nat.iter (S k) rewriteNode n) with (rewriteNode (Nat.iter k rewriteNode n)).
  change (Nat.iter (S k) rewriteNode (mapChildren (rewriteDescendants v) n))
    with (rewriteNode (Nat.iter k rewriteNode (mapChildren (rewriteDescendants v) n))).
  rewrite <- IH. symmetry. apply rewriteNode_descendants.
Qed.

(** A visit settles what lies above the nested functions of an entry as it
    settles the entry itself. *)
Lemma rewriteNode_idempotent_children :
  forall v s,
    nodeOk s = true ->
    rewriteNode (rewriteNode (mapChildren (rewriteDescendants v) s))
      = rewriteNode (mapChildren (rewriteDescendants v) s).
Proof.
  intros v s H.
  destruct (rewriteNode_descendants s v) as [_ H1].
  destruct (rewriteNode_descendants (rewriteNode s) v) as [_ H2].
  now rewrite H1, H2, rewriteNode_idempotent.
Qed.

(** *** A second walk *)

Lemma Forall_statement_entries :
  forall (P : Node -> Prop) ss,
    Forall P (flat_map (fun s => s :: forEachChild getDescendantStatements s) ss) ->
    Forall (fun s => P s /\ Forall P (forEachChild getDescendantStatements s)) ss.
Proof.
  intros P ss H. apply Forall_flat_map in H.
  eapply Forall_impl; [|exact H]. intros s Hs. now inversion Hs.
Qed.

Lemma rewriteEntry_settles :
  forall s,
    (Forall (fun d => nodeOk d = true) (forEachChild getDescendantStatements s) ->
     forall v w, 1 <= v -> 1 <= w ->
       mapChildren (rewriteDescendants w) (mapChildren (rewriteDescendants v) s)
         = mapChildren (rewriteDescendants v) s) ->
    nodeOk s = true ->
    Forall (fun d => nodeOk d = true) (forEachChild getDescendantStatements s) ->
    forall v w, 1 <= v -> 1 <= w ->
      rewriteEntry w (rewriteEntry v s) = rewriteEntry v s.
Proof.
  intros s IH Hs Hd v w Hv Hw.
  unfold rewriteEntry at 1. rewrite rewriteEntry_visitsInside.
  unfold rewriteEntry.
  assert (Hv' : 1 <= visitsInside v s)
    by (unfold visitsInside; destruct (visitsDescendants s); lia).
  assert (Hw' : 1 <= visitsInside w s)
    by (unfold visitsInside; destruct (visitsDescendants s); lia).
  rewrite iter_rewriteNode_children, (IH Hd _ _ Hv' Hw').
  rewrite (iter_settled rewriteNode _ v) by (auto using rewriteNode_idempotent_children).
  apply iter_fixed. now apply rewriteNode_idempotent_children.
Qed.

Lemma map_entries_settle :
  forall ss v w,
    Forall (fun n =>
              (Forall (fun d => nodeOk d = true) (getDescendantStatements n) ->
               forall v w, 1 <= v -> 1 <= w ->
                 rewriteDescendants w (rewriteDescendants v n) = rewriteDescendants v n)
              /\ (Forall (fun d => nodeOk d = true)
                    (forEachChild getDescendantStatements n) ->
                  forall v w, 1 <= v -> 1 <= w ->
                    mapChildren (rewriteDescendants w) (mapChildren (rewriteDescendants v) n)
                      = mapChildren (rewriteDescendants v) n)) ss ->
    Forall (fun d => nodeOk d = true)
      (flat_map (fun s => s :: forEachChild getDescendantStatements s) ss) ->
    1 <= v -> 1 <= w ->
    map (rewriteEntry w) (map (rewriteEntry v) ss) = map (rewriteEntry v) ss.
Proof.
  intros ss v w IH H Hv Hw. apply Forall_statement_entries in H.
  rewrite map_map. apply map_equal.
  apply (Forall_both _ _ _ _ _ IH H).
  intros s [_ IHs] [Hs Hd]. now apply rewriteEntry_settles.
Qed.

Lemma map_descendants_settle :
  forall ss v w,
    Forall (fun n =>
              (Forall (fun d => nodeOk d = true) (getDescendantStatements n) ->
               forall v w, 1 <= v -> 1 <= w ->
                 rewriteDescendants w (rewriteDescendants v n) = rewriteDescendants v n)
              /\ (Forall (fun d => nodeOk d = true)
                    (forEachChild getDescendantStatements n) ->
                  forall v w, 1 <= v -> 1 <= w ->
                    mapChildren (rewriteDescendants w) (mapChildren (rewriteDescendants v) n)
                      = mapChildren (rewriteDescendants v) n)) ss ->
    Forall (fun d => nodeOk d = true) (flat_map getDescendantStatements ss) ->
    1 <= v -> 1 <= w ->
    map (rewriteDescendants w) (map (rewriteDescendants v) ss)
      = map (rewriteDescendants v) ss.
Proof.
  intros ss v w IH H Hv Hw. apply Forall_flat_map in H.
  rewrite map_map. apply map_equal.
  apply (Forall_both _ _ _ _ _ IH H).
  intros s [IHs _] Hs. now apply IHs.
Qed.

(** Once the loop ran over the entries of a node, each of which one visit
    settles, a further run changes nothing, however often the entries are
    visited. *)
Lemma rewriteDescendants_settles :
  forall n,
    (Forall (fun d => nodeOk d = true) (getDescendantStatements n) ->
     forall v w, 1 <= v -> 1 <= w ->
       rewriteDescendants w (rewriteDescendants v n) = rewriteDescendants v n)
    /\ (Forall (fun d => nodeOk d = true) (forEachChild getDescendantStatements n) ->
        forall v w, 1 <= v -> 1 <= w ->
          mapChildren (rewriteDescendants w) (mapChildren (rewriteDescendants v) n)
            = mapChildren (rewriteDescendants v) n).
Proof.
  induction n as [ | | n name IHn | n args IHn IHargs | n IHn | l op r IHl IHr
                 | p body IHbody | ss IHss | e ss IHss | | n IHn
                 | k decls IHdecls | n IHn | k cs t IHcs ] using Node_induction;
    try (split; intros; reflexivity).
  - (* property access *)
    assert (H : forall v w,
               Forall (fun d => nodeOk d = true) (getDescendantStatements n) ->
               1 <= v -> 1 <= w ->
               rewriteDescendants w (rewriteDescendants v (PropertyAccessExpression n name))
                 = rewriteDescendants v (PropertyAccessExpression n name)).
    { intros v w Hd Hv Hw. cbn. destruct IHn as [IH _]. now rewrite IH. }
    split; intros Hd v w Hv Hw; now apply H.
  - (* call *)
    assert (H : forall v w,
               Forall (fun d => nodeOk d = true)
                 (getDescendantStatements n ++ flat_map getDescendantStatements args) ->
               1 <= v -> 1 <= w ->
               rewriteDescendants w (rewriteDescendants v (CallExpression n args))
                 = rewriteDescendants v (CallExpression n args)).
    { intros v w Hd Hv Hw. apply Forall_app in Hd as [He Ha].
      cbn [rewriteDescendants mapChildren]. destruct IHn as [IH _].
      rewrite IH by assumption. f_equal. now apply map_descendants_settle. }
    split; intros Hd v w Hv Hw; now apply H.
  - assert (H : forall v w,
               Forall (fun d => nodeOk d = true) (getDescendantStatements n) ->
               1 <= v -> 1 <= w ->
               rewriteDescendants w (rewriteDescendants v (AwaitExpression n))
                 = rewriteDescendants v (AwaitExpression n)).
    { intros v w Hd Hv Hw. cbn. destruct IHn as [IH _]. now rewrite IH. }
    split; intros Hd v w Hv Hw; now apply H.
  - assert (H : forall v w,
               Forall (fun d => nodeOk d = true)
                 (getDescendantStatements l ++ getDescendantStatements r) ->
               1 <= v -> 1 <= w ->
               rewriteDescendants w (rewriteDescendants v (BinaryExpression l op r))
                 = rewriteDescendants v (BinaryExpression l op r)).
    { intros v w Hd Hv Hw. apply Forall_app in Hd as [Hl Hr]. cbn.
      destruct IHl as [IH1 _], IHr as [IH2 _]. now rewrite IH1, IH2. }
    split; intros Hd v w Hv Hw; now apply H.
  - (* arrow function *)
    destruct IHbody as [IH _]. split.
    + intros Hd v w Hv Hw. cbn [getDescendantStatements] in Hd.
      cbn [rewriteDescendants]. destruct (isBlock body) eqn:E.
      * rewrite rewriteDescendants_block, E. now rewrite IH.
      * rewrite (iter_invariant _ isBlock) by apply rewriteNode_block. rewrite E.
        inversion Hd as [|x xs Hb _]; subst.
        rewrite (iter_settled rewriteNode _ v) by auto using rewriteNode_idempotent.
        f_equal. apply iter_fixed. now apply rewriteNode_idempotent.
    + intros Hd v w Hv Hw. cbn in *. now rewrite IH.
  - (* block *)
    split; intros Hd v w Hv Hw; cbn [rewriteDescendants mapChildren]; f_equal.
    + now apply map_entries_settle.
    + now apply map_descendants_settle.
  - (* clause *)
    split; intros Hd v w Hv Hw; cbn [rewriteDescendants mapChildren]; f_equal.
    + now apply map_entries_settle.
    + now apply map_descendants_settle.
  - assert (H : forall v w,
               Forall (fun d => nodeOk d = true) (getDescendantStatements n) ->
               1 <= v -> 1 <= w ->
               rewriteDescendants w (rewriteDescendants v (ReturnStatement (Some n)))
                 = rewriteDescendants v (ReturnStatement (Some n))).
    { intros v w Hd Hv Hw. cbn. destruct IHn as [IH _]. now rewrite IH. }
    split; intros Hd v w Hv Hw; now apply H.
  - (* variable statement *)
    assert (H : forall v w,
               Forall (fun d => nodeOk d = true)
                 (forEachChild getDescendantStatements (VariableStatement k decls)) ->
               1 <= v -> 1 <= w ->
               rewriteDescendants w (rewriteDescendants v (VariableStatement k decls))
                 = rewriteDescendants v (VariableStatement k decls)).
    { intros v w Hd Hv Hw. cbn [forEachChild] in Hd. apply Forall_flat_map in Hd.
      cbn [rewriteDescendants mapChildren]. f_equal. rewrite map_map.
      apply map_equal. apply (Forall_both _ _ _ _ _ IHdecls Hd).
      intros [x [i|]] IHi Hi; cbn in *; [|reflexivity].
      destruct IHi as [IH _]. now rewrite IH. }
    split; intros Hd v w Hv Hw; now apply H.
  - assert (H : forall v w,
               Forall (fun d => nodeOk d = true) (getDescendantStatements n) ->
               1 <= v -> 1 <= w ->
               rewriteDescendants w (rewriteDescendants v (ExpressionStatement n))
                 = rewriteDescendants v (ExpressionStatement n)).
    { intros v w Hd Hv Hw. cbn. destruct IHn as [IH _]. now rewrite IH. }
    split; intros Hd v w Hv Hw; now apply H.
  - (* any other kind *)
    assert (H : forall v w,
               Forall (fun d => nodeOk d = true)
                 (forEachChild getDescendantStatements (Other k cs t)) ->
               1 <= v -> 1 <= w ->
               rewriteDescendants w (rewriteDescendants v (Other k cs t))
                 = rewriteDescendants v (Other k cs t)).
    { intros v w Hd Hv Hw. cbn [forEachChild] in Hd. apply Forall_flat_map in Hd.
      cbn [rewriteDescendants mapChildren]. f_equal. rewrite map_map.
      apply map_equal. apply (Forall_both _ _ _ _ _ IHcs Hd).
      intros [x c] IHc Hc; cbn in *. destruct IHc as [IH _]. now rewrite IH. }
    split; intros Hd v w Hv Hw; now apply H.
Qed.

(** [rewriteCtxMethods] run again over the statements it left. *)
Lemma rewriteCtxMethods_idempotent :
  forall ss,
    Forall (fun d => nodeOk d = true) (getDescendantStatements (Block ss)) ->
    rewriteCtxMethods (rewriteCtxMethods ss) = rewriteCtxMethods ss.
Proof.
  intros ss H.
  destruct (rewriteDescendants_settles (Block ss)) as [IH _].
  specialize (IH H 1 1 (le_n 1) (le_n 1)). cbn [rewriteDescendants] in IH.
  now injection IH.
Qed.

(** *** A walk that finds nothing to rewrite *)

Lemma rewriteEntry_fixed :
  forall s v,
    (forall w, mapChildren (rewriteDescendants w) s = s) ->
    rewriteNode s = s ->
    rewriteEntry v s = s.
Proof.
  intros s v Hc Hs. unfold rewriteEntry. rewrite Hc. now apply iter_fixed.
Qed.

(** When a visit changes no entry of the list of a node, the loop leaves
    the node as it is. *)
Lemma rewriteDescendants_fixed :
  forall n,
    (Forall (fun d => rewriteNode d = d) (getDescendantStatements n) ->
     forall v, rewriteDescendants v n = n)
    /\ (Forall (fun d => rewriteNode d = d) (forEachChild getDescendantStatements n) ->
        forall v, mapChildren (rewriteDescendants v) n = n).
Proof.
  induction n as [ | | n name IHn | n args IHn IHargs | n IHn | l op r IHl IHr
                 | p body IHbody | ss IHss | e ss IHss | | n IHn
                 | k decls IHdecls | n IHn | k cs t IHcs ] using Node_induction;
    try (split; intros; reflexivity).
  - destruct IHn as [IH _]. split; intros Hd v; cbn in *; now rewrite IH.
  - destruct IHn as [IH _].
    assert (H : Forall (fun d => rewriteNode d = d)
                  (getDescendantStatements n ++ flat_map getDescendantStatements args) ->
                forall v, rewriteDescendants v (CallExpression n args) = CallExpression n args).
    { intros Hd v. apply Forall_app in Hd as [He Ha]. apply Forall_flat_map in Ha.
      cbn [rewriteDescendants mapChildren]. rewrite IH by assumption. f_equal.
      apply map_fixed. apply (Forall_both _ _ _ _ _ IHargs Ha).
      intros a [IHa _] Hfa. now apply IHa. }
    split; intros Hd v; now apply H.
  - destruct IHn as [IH _]. split; intros Hd v; cbn in *; now rewrite IH.
  - destruct IHl as [IH1 _], IHr as [IH2 _].
    split; intros Hd v; cbn in *; apply Forall_app in Hd as [Hl Hr]; now rewrite IH1, IH2.
  - destruct IHbody as [IH _]. split; intros Hd v.
    + cbn [getDescendantStatements rewriteDescendants] in *.
      destruct (isBlock body); [now rewrite IH|].
      inversion Hd; subst. f_equal. now apply iter_fixed.
    + cbn in *. now rewrite IH.
  - split; intros Hd v; cbn [rewriteDescendants mapChildren]; f_equal; apply map_fixed.
    + apply Forall_statement_entries in Hd. apply (Forall_both _ _ _ _ _ IHss Hd).
      intros s [_ IHs] [Hs Hc]. apply rewriteEntry_fixed; auto.
    + cbn [forEachChild] in Hd. apply Forall_flat_map in Hd.
      apply (Forall_both _ _ _ _ _ IHss Hd). intros s [IHs _] Hs. now apply IHs.
  - split; intros Hd v; cbn [rewriteDescendants mapChildren]; f_equal; apply map_fixed.
    + apply Forall_statement_entries in Hd. apply (Forall_both _ _ _ _ _ IHss Hd).
      intros s [_ IHs] [Hs Hc]. apply rewriteEntry_fixed; auto.
    + cbn [forEachChild] in Hd. apply Forall_flat_map in Hd.
      apply (Forall_both _ _ _ _ _ IHss Hd). intros s [IHs _] Hs. now apply IHs.
  - destruct IHn as [IH _]. split; intros Hd v; cbn in *; now rewrite IH.
  - assert (H : Forall (fun d => rewriteNode d = d)
                  (forEachChild getDescendantStatements (VariableStatement k decls)) ->
                forall v, rewriteDescendants v (VariableStatement k decls)
                          = VariableStatement k decls).
    { intros Hd v. cbn [forEachChild] in Hd. apply Forall_flat_map in Hd.
      cbn [rewriteDescendants mapChildren]. f_equal. apply map_fixed.
      apply (Forall_both _ _ _ _ _ IHdecls Hd).
      intros [x [i|]] IHi Hi; cbn in *; [|reflexivity].
      destruct IHi as [IH _]. now rewrite IH. }
    split; intros Hd v; now apply H.
  - destruct IHn as [IH _]. split; intros Hd v; cbn in *; now rewrite IH.
  - assert (H : Forall (fun d => rewriteNode d = d)
                  (forEachChild getDescendantStatements (Other k cs t)) ->
                forall v, rewriteDescendants v (Other k cs t) = Other k cs t).
    { intros Hd v. cbn [forEachChild] in Hd. apply Forall_flat_map in Hd.
      cbn [rewriteDescendants mapChildren]. f_equal. apply map_fixed.
      apply (Forall_both _ _ _ _ _ IHcs Hd).
      intros [x c] IHc Hc; cbn in *. destruct IHc as [IH _]. now rewrite IH. }
    split; intros Hd v; now apply H.
Qed.

Lemma rewriteCtxMethods_fixed :
  forall ss,
    Forall (fun d => rewriteNode d = d) (getDescendantStatements (Block ss)) ->
    rewriteCtxMethods ss = ss.
Proof.
  intros ss H. destruct (rewriteDescendants_fixed (Block ss)) as [IH _].
  specialize (IH H 1). cbn [rewriteDescendants] in IH. now injection IH.
Qed.

(** *** Accesses under further accesses *)

Lemma accessChain_snoc :
  forall e names x,
    accessChain e (names ++ [x]) = PropertyAccessExpression (accessChain e names) x.
Proof. intros e names x. unfold accessChain. now rewrite fold_left_app. Qed.

Lemma accessChain_access :
  forall names e, isAccess e = true -> isAccess (accessChain e names) = true.
Proof.
  intros names. induction names as [|x names IH] using rev_ind; intros e H; [exact H|].
  now rewrite accessChain_snoc.
Qed.

Lemma rewriteCtxMemberName_chain :
  forall names e b,
    forallb (fun x => negb (x =? "renderNotFound")) names = true ->
    rewriteCtxMemberName b
        (accessChain (PropertyAccessExpression e "renderNotFound") names)
      = (accessChain (PropertyAccessExpression e "throw") names,
         match names with [] => b | _ => false end).
Proof.
  intros names. induction names as [|x names IH] using rev_ind; intros e b H.
  - apply rewriteCtxMemberName_renderNotFound.
  - rewrite forallb_app in H. apply Bool.andb_true_iff in H as [Hn Hx].
    cbn in Hx. rewrite Bool.andb_true_r in Hx. apply Bool.negb_true_iff in Hx.
    rewrite !accessChain_snoc, rewriteCtxMemberName_unfold.
    rewrite access_text_not_ctx by now apply accessChain_access.
    rewrite Hx, accessChain_access by reflexivity.
    rewrite (IH e false Hn). cbn [andb fst].
    destruct names; reflexivity.
Qed.

(** C7: an access named [renderNotFound] is renamed to [throw] whatever its
    receiver; as the callee of a call it makes the call gain the argument
    [404], so [ctx.state.renderNotFound()] becomes [ctx.state.throw(404)].
    An access named [renderNotFound] that lies under further accesses, as
    many as there may be and none of them named [renderNotFound], is reached
    by the recursion and renamed; the call, if there is one, then has another
    access as its callee and gains no argument. *)
Theorem renderNotFound_becomes_throw :
  forall (e : Node) (args : list Node) (parentIsCall : bool) (names : list string),
    forallb (fun x => negb (x =? "renderNotFound")) names = true ->
    rewriteCtxMemberName parentIsCall (PropertyAccessExpression e "renderNotFound")
      = (PropertyAccessExpression e "throw", parentIsCall)
    /\ rewriteNode (CallExpression (PropertyAccessExpression e "renderNotFound") args)
         = CallExpression (PropertyAccessExpression e "throw") (args ++ [lit404])%list
    /\ rewriteNode (PropertyAccessExpression e "renderNotFound")
         = PropertyAccessExpression e "throw"
    /\ getText (rewriteNode ctx_state_renderNotFound_call) = "ctx.state.throw(404)"
    /\ rewriteCtxMemberName parentIsCall
         (accessChain (PropertyAccessExpression e "renderNotFound") names)
       = (accessChain (PropertyAccessExpression e "throw") names,
          match names with [] => parentIsCall | _ => false end)
    /\ rewriteNode (accessChain (PropertyAccessExpression e "renderNotFound") names)
       = accessChain (PropertyAccessExpression e "throw") names
    /\ rewriteNode
         (CallExpression
            (accessChain (PropertyAccessExpression e "renderNotFound") names) args)
       = CallExpression (accessChain (PropertyAccessExpression e "throw") names)
           match names with [] => (args ++ [lit404])%list | _ => args end.
Proof.
  intros e args b names Hnames.
  split; [apply rewriteCtxMemberName_renderNotFound|].
  split.
  { cbn [rewriteNode]. rewrite rewriteCtxMemberName_renderNotFound. reflexivity. }
  split.
  { cbn [rewriteNode]. rewrite rewriteCtxMemberName_renderNotFound. reflexivity. }
  split; [reflexivity|].
  split; [now apply rewriteCtxMemberName_chain|].
  split.
  - rewrite rewriteNode_of_access by now apply accessChain_access.
    now rewrite rewriteCtxMemberName_chain.
  - rewrite rewriteNode_of_call, accessChain_access by reflexivity.
    rewrite rewriteCtxMemberName_chain by exact Hnames.
    destruct names; reflexivity.
Qed.

Lemma renderNotFound_becomes_throw_witness :
  rewriteNode
    (CallExpression
       (accessChain (PropertyAccessExpression ctx_state "renderNotFound") ["page"; "show"])
       [])
  = CallExpression
      (accessChain (PropertyAccessExpression ctx_state "throw") ["page"; "show"]) [].
Proof.
  apply (renderNotFound_becomes_throw ctx_state [] false ["page"; "show"]).
  reflexivity.
Defined.

End AstFacts.

(** ** Parameter normaliser *)

Module HandlerFacts.
Import Ast Handler File Examples StringFacts AstFacts.

(** C10: a sole parameter named [_req] is removed; no statement is inserted,
    no type annotation is added and the import state is left alone. *)
Theorem unused_req_parameter_is_removed :
  forall (method : FunctionLike) (p : Param) (newImports : ImportState)
         (hasInferredTypes : bool),
    fn_params method = [p] ->
    getName p = "_req" ->
    maybePrependReqVar method newImports hasInferredTypes
      = (mkFunction (fn_kind method) (fn_name method) [] (fn_body method), newImports).
Proof.
  intros method p st inferred Hp Hn.
  unfold maybePrependReqVar, rewriteParams. rewrite Hp, Hn. cbn.
  destruct (inferred && isSome (p_type p)); cbn;
    destruct (fn_kind method), (fn_body method); reflexivity.
Qed.

Lemma unused_req_parameter_is_removed_witness :
  maybePrependReqVar unusedReqHandler emptyImports true
    = (mkFunction ArrowFunction EmptyString [] (BlockBody [returnResponse]), emptyImports).
Proof.
  apply (unused_req_parameter_is_removed unusedReqHandler
           (mkParam (IdentifierName "_req") None) emptyImports true);
    reflexivity.
Defined.

(** C4 fails for a method of the exported handler object: [GET(req) {...}]
    gets no type annotation and nothing is registered. *)
Lemma handler_object_method_gets_no_type :
  rewriteExport "handler" handlerObject emptyImports
    = (VariableDeclaration "handler"
         (ObjectLiteralExpression
            [MethodProperty
               (mkFunction MethodDeclaration "GET" [mkParam (IdentifierName "ctx") None]
                  (BlockBody [constDecl "req" ctx_req; returnResponse]))]),
       emptyImports)
  /\ ~ typedCtxHandler getMethod
         (fst (rewriteFunction getMethod emptyImports true))
         (snd (rewriteFunction getMethod emptyImports true)).
Proof.
  split; [reflexivity|].
  intros [H _]. cbn in H. discriminate H.
Qed.

Lemma sole_req_parameter :
  forall (method : FunctionLike) (p : Param) (ss : list Node)
         (newImports : ImportState) (hasInferredTypes : bool),
    fn_params method = [p] ->
    getName p = "req" ->
    p_type p = None ->
    fn_body method = BlockBody ss ->
    maybePrependReqVar method newImports hasInferredTypes
      = (mkFunction (fn_kind method) (fn_name method)
           [mkParam (IdentifierName "ctx")
              (if hasInferredTypes then None else Some "FreshContext")]
           (BlockBody (constDecl "req" ctx_req :: ss)),
         if hasInferredTypes then newImports else addCore "FreshContext" newImports).
Proof.
  intros method p ss st inferred Hp Hn Ht Hb.
  unfold maybePrependReqVar, rewriteParams. rewrite Hp, Hn, Ht, Hb. cbn.
  rewrite Bool.andb_false_r.
  destruct inferred; cbn; destruct (fn_kind method); reflexivity.
Qed.

Lemma rewriteFunction_sole_req :
  forall (method : FunctionLike) (p : Param) (ss : list Node)
         (newImports : ImportState) (hasInferredTypes : bool),
    fn_params method = [p] ->
    getName p = "req" ->
    p_type p = None ->
    fn_body method = BlockBody ss ->
    rewriteFunction method newImports hasInferredTypes
      = (mkFunction (fn_kind method) (fn_name method)
           [mkParam (IdentifierName "ctx")
              (if hasInferredTypes then None else Some "FreshContext")]
           (BlockBody (constDecl "req" ctx_req :: rewriteCtxMethods ss)),
         if hasInferredTypes then newImports else addCore "FreshContext" newImports).
Proof.
  intros method p ss st inferred Hp Hn Ht Hb. unfold rewriteFunction.
  rewrite (sole_req_parameter _ p (rewriteCtxMethods ss)); cbn [fn_params fn_body fn_kind fn_name];
    try assumption; [reflexivity|].
  now rewrite Hb.
Qed.

(** C4, amended: a sole untyped parameter [req] of a block-bodied handler is
    renamed to [ctx] and [const req = ctx.req] becomes the first statement.
    The annotation [FreshContext] is added, and the name registered in the
    core set, exactly when the caller does not ask for inferred types.  The
    methods and the function-valued properties of the exported handler
    object are normalised with inferred types: their parameter stays untyped
    and nothing is registered.  An exported [handler] function, a
    default-exported function and the function handed to [defineApp],
    [defineLayout] or [defineRoute] are normalised without: they get the
    annotation, and [FreshContext] is registered. *)
Theorem sole_req_parameter_is_normalised :
  forall (method : FunctionLike) (p : Param) (ss : list Node) (newImports : ImportState),
    fn_params method = [p] ->
    getName p = "req" ->
    p_type p = None ->
    fn_body method = BlockBody ss ->
    let normalised (annotation : option string) (body : list Node) :=
      mkFunction (fn_kind method) (fn_name method)
        [mkParam (IdentifierName "ctx") annotation]
        (BlockBody (constDecl "req" ctx_req :: body)) in
    let untyped := normalised None (rewriteCtxMethods ss) in
    let typed := normalised (Some "FreshContext") (rewriteCtxMethods ss) in
    (forall hasInferredTypes,
        maybePrependReqVar method newImports hasInferredTypes
          = (normalised (if hasInferredTypes then None else Some "FreshContext") ss,
             if hasInferredTypes then newImports
             else addCore "FreshContext" newImports))
    /\ (isHttpMethod (fn_name method) = true ->
        forall done,
          rewriteProperty (done, newImports) (MethodProperty method)
            = ((done ++ [MethodProperty untyped])%list, newImports))
    /\ (isFunctionValue method = true ->
        forall done name,
          rewriteProperty (done, newImports) (PropertyAssignment name (FunctionInit method))
            = ((done ++ [PropertyAssignment name (FunctionInit untyped)])%list, newImports))
    /\ rewriteExport "handler" (FunctionDeclarationNode method) newImports
         = (FunctionDeclarationNode typed, addCore "FreshContext" newImports)
    /\ rewriteExport "default" (FunctionDeclarationNode method) newImports
         = (FunctionDeclarationNode typed, addCore "FreshContext" newImports)
    /\ (isFunctionValue method = true ->
        forall wrapper rest,
          isDefineWrapper wrapper = true ->
          rewriteExport "default"
              (CallExpressionNode (Identifier wrapper) (FunctionArgument method :: rest))
              newImports
            = (CallExpressionNode (Identifier wrapper) (FunctionArgument typed :: rest),
               addCore "FreshContext" newImports)).
Proof.
  intros method p ss st Hp Hn Ht Hb normalised untyped typed.
  subst untyped typed normalised.
  pose proof (fun inferred => rewriteFunction_sole_req method p ss st inferred Hp Hn Ht Hb)
    as Hf.
  split; [intros inferred; now apply (sole_req_parameter method p)|].
  split; [intros Hm done; unfold rewriteProperty; now rewrite Hm, (Hf true)|].
  split; [intros Hv done name; unfold rewriteProperty; now rewrite Hv, (Hf true)|].
  split; [unfold rewriteExport; cbn [String.eqb Ascii.eqb Bool.eqb]; now rewrite (Hf false)|].
  split; [unfold rewriteExport; cbn [String.eqb Ascii.eqb Bool.eqb]; now rewrite (Hf false)|].
  intros Hv wrapper rest Hw. unfold rewriteExport. cbn [String.eqb Ascii.eqb Bool.eqb].
  now rewrite Hw, Hv, (Hf false).
Qed.

Lemma sole_req_parameter_is_normalised_witness :
  rewriteProperty ([], emptyImports) (MethodProperty getMethod)
    = ([MethodProperty
          (mkFunction MethodDeclaration "GET" [mkParam (IdentifierName "ctx") None]
             (BlockBody [constDecl "req" ctx_req; returnResponse]))],
       emptyImports)
  /\ rewriteExport "handler" (FunctionDeclarationNode handlerFunction) emptyImports
     = (FunctionDeclarationNode
          (mkFunction FunctionDeclaration "handler"
             [mkParam (IdentifierName "ctx") (Some "FreshContext")]
             (BlockBody [constDecl "req" ctx_req; returnResponse])),
        addCore "FreshContext" emptyImports).
Proof.
  split.
  - refine (proj1 (proj2 (sole_req_parameter_is_normalised getMethod
                            (mkParam (IdentifierName "req") None) [returnResponse]
                            emptyImports eq_refl eq_refl eq_refl eq_refl)) eq_refl []).
  - refine (proj1 (proj2 (proj2 (proj2
              (sole_req_parameter_is_normalised handlerFunction
                 (mkParam (IdentifierName "req") None) [returnResponse]
                 emptyImports eq_refl eq_refl eq_refl eq_refl))))).
Defined.

(** C5 fails on [(req, { remoteAddr }) => {...}]: the pattern becomes
    [{ info, req }], which binds [req] itself, and only
    [const remoteAddr = info.remoteAddr] is inserted. *)
Lemma two_arg_handler_gets_no_req_declaration :
  fst (maybePrependReqVar twoArgHandler emptyImports false)
    = mkFunction ArrowFunction EmptyString
        [mkParam (ObjectPatternText EmptyString "{ info, req }") None]
        (BlockBody [constDecl "remoteAddr" info_remoteAddr; returnResponse])
  /\ ~ bothDeclarationsLead twoArgHandler
         (fst (maybePrependReqVar twoArgHandler emptyImports false)).
Proof.
  split; [reflexivity|].
  intros (ss & rest & _ & Hb & _ & Hreq). cbn in Hb.
  injection Hb as <-.
  destruct Hreq as [H | [H | []]]; discriminate H.
Qed.

(** C5, amended: for [(p0, { remoteAddr }) => {...}] with a block body, a
    first parameter whose name does not start with an underscore and the
    pattern written exactly [{ remoteAddr }] (one space inside each brace,
    nothing but the separator between it and the first parameter), the first
    parameter is removed, the pattern of the surviving parameter becomes
    [{ info, req }] and [const remoteAddr = info.remoteAddr] is inserted as
    the first statement; no declaration of [req] is inserted.  A
    [RouteContext] annotation of the surviving parameter becomes
    [FreshContext]. *)
Theorem two_arg_remoteAddr_handler_is_normalised :
  forall (method : FunctionLike) (p0 p1 : Param) (ss : list Node)
         (newImports : ImportState) (hasInferredTypes : bool),
    fn_params method = [p0; p1] ->
    p_name p1 = ObjectPattern remoteAddrPattern ->
    startsWith (getName p0) "_" = false ->
    fn_body method = BlockBody ss ->
    let routeContext :=
      match p_type p1 with Some ty => ty =? "RouteContext" | None => false end in
    maybePrependReqVar method newImports hasInferredTypes
      = (mkFunction (fn_kind method) (fn_name method)
           [mkParam (ObjectPatternText EmptyString "{ info, req }")
              (if routeContext then Some "FreshContext" else p_type p1)]
           (BlockBody (constDecl "remoteAddr" info_remoteAddr :: ss)),
         if routeContext then addCore "FreshContext" newImports else newImports)
    /\ bindingFullText
         (p_name (hd p1 (fn_params
                           (fst (maybePrependReqVar method newImports hasInferredTypes)))))
       = "{ info, req }".
Proof.
  intros method p0 p1 ss st inferred Hp Hn Hu Hb routeContext.
  assert (H : maybePrependReqVar method st inferred
              = (mkFunction (fn_kind method) (fn_name method)
                   [mkParam (ObjectPatternText EmptyString "{ info, req }")
                      (if routeContext then Some "FreshContext" else p_type p1)]
                   (BlockBody (constDecl "remoteAddr" info_remoteAddr :: ss)),
                 if routeContext then addCore "FreshContext" st else st)).
  { unfold maybePrependReqVar, rewriteParams. rewrite Hp, Hn, Hu, Hb.
    subst routeContext. cbn.
    destruct (p_type p1) as [ty|] eqn:Ht; [destruct (ty =? "RouteContext")|];
      cbn; rewrite ?Hn, ?Ht; destruct (fn_kind method); reflexivity. }
  split; [exact H | now rewrite H].
Qed.

Lemma two_arg_remoteAddr_handler_is_normalised_witness :
  maybePrependReqVar twoArgHandler emptyImports true
    = (mkFunction ArrowFunction EmptyString
         [mkParam (ObjectPatternText EmptyString "{ info, req }") None]
         (BlockBody [constDecl "remoteAddr" info_remoteAddr; returnResponse]),
       emptyImports)
  /\ bindingFullText
       (p_name (hd (mkParam (ObjectPattern remoteAddrPattern) None)
                  (fn_params (fst (maybePrependReqVar twoArgHandler emptyImports true)))))
     = "{ info, req }".
Proof.
  apply (two_arg_remoteAddr_handler_is_normalised twoArgHandler
           (mkParam (IdentifierName "req") None)
           (mkParam (ObjectPattern remoteAddrPattern) None)
           [returnResponse] emptyImports true);
    reflexivity.
Defined.

(** *** A second normalisation *)

Lemma isReqName_false :
  forall s, isReqName s = false -> (s =? "req") = false /\ (s =? "_req") = false.
Proof. intros s H. now apply Bool.orb_false_elim in H. Qed.

(** On a settled parameter list the normaliser changes nothing and
    registers nothing. *)
Lemma maybePrependReqVar_settled :
  forall method newImports hasInferredTypes,
    settledParams (fn_params method) = true ->
    maybePrependReqVar method newImports hasInferredTypes = (method, newImports).
Proof.
  intros [kind name params body] st inferred H. cbn [fn_params] in H.
  destruct params as [|q [|q' rest]]; [reflexivity | | discriminate H].
  cbn [settledParams] in H. apply Bool.negb_true_iff, isReqName_false in H as [H1 H2].
  unfold maybePrependReqVar, rewriteParams.
  cbn [fn_params fn_kind fn_name fn_body List.length Nat.ltb Nat.leb orb].
  rewrite H1, H2. cbn [orb andb].
  destruct kind, body; reflexivity.
Qed.

(** *** The splice of [req] into a pattern *)

Lemma slice_before_closing_brace :
  forall x, slice_0_minus2 (x ++ " }") = x.
Proof.
  intros x. unfold slice_0_minus2.
  rewrite length_append. cbn [String.length].
  replace (String.length x + 2 - 2) with (String.length x) by lia.
  apply substring_prefix.
Qed.

Lemma slice_two_characters :
  forall x a b, slice_0_minus2 (x ++ String a (String b EmptyString)) = x.
Proof.
  intros x a b. unfold slice_0_minus2.
  rewrite length_append. cbn [String.length].
  replace (String.length x + 2 - 2) with (String.length x) by lia.
  apply substring_prefix.
Qed.

(** The cut leaves the trivia in front of the pattern whole. *)
Lemma slice_keeps_leading :
  forall leading text,
    2 <= String.length text ->
    slice_0_minus2 (leading ++ text) = leading ++ slice_0_minus2 text.
Proof.
  intros leading text H. unfold slice_0_minus2. rewrite length_append.
  replace (String.length leading + String.length text - 2)
    with (String.length leading + (String.length text - 2)) by lia.
  apply substring_leading.
Qed.

Lemma patternText_length : forall pat, 2 <= String.length (patternText pat).
Proof.
  intros pat. unfold patternText. cbn [append String.length].
  rewrite !length_append. cbn [String.length]. lia.
Qed.

(** The pattern the splice leaves: the trivia twice, then the text of the
    old pattern without its last two characters, then [, req }]. *)
Lemma replaceWithText_spliced :
  forall pat,
    replaceWithText pat (slice_0_minus2 (patternFullText pat) ++ ", req }")
      = ObjectPatternText (obp_leading pat ++ obp_leading pat)
          (slice_0_minus2 (patternText pat) ++ ", req }").
Proof.
  intros pat. unfold replaceWithText, patternFullText.
  rewrite slice_keeps_leading by apply patternText_length.
  rewrite append_assoc, substring_suffix. reflexivity.
Qed.

(** A pattern that got [req] spliced in is not itself called [req]. *)
Lemma spliced_pattern_name :
  forall text, isReqName (text ++ ", req }") = false.
Proof.
  intros text. unfold isReqName. apply Bool.orb_false_intro; apply String.eqb_neq;
    intros H; apply (f_equal String.length) in H; rewrite length_append in H;
    cbn in H; lia.
Qed.

Lemma pattern_name : forall pat, isReqName (patternText pat) = false.
Proof. intros pat. reflexivity. Qed.

(** What one normalisation leaves: a settled parameter list, and a body
    that is the old one, possibly with one declaration put in front whose
    initialiser is [ctx.req] or [info.remoteAddr]. *)
Lemma maybePrependReqVar_shape :
  forall method newImports hasInferredTypes,
    paramsBound (fn_params method) = true ->
    let out := fst (maybePrependReqVar method newImports hasInferredTypes) in
    fn_kind out = fn_kind method
    /\ fn_name out = fn_name method
    /\ settledParams (fn_params out) = true
    /\ (fn_body out = fn_body method
        \/ exists x init,
             fn_body out = insertVariableStatement0 (constDecl x init) (fn_body method)
             /\ (init = ctx_req \/ init = info_remoteAddr)).
Proof.
  intros [kind name params body] st inferred H out. subst out.
  cbn [fn_params] in H.
  destruct params as [|p0 [|p1 [|p2 rest]]]; [| | |discriminate H].
  - cbn. auto.
  - unfold maybePrependReqVar, rewriteParams.
    cbn [fn_params fn_kind fn_name fn_body List.length Nat.ltb Nat.leb Nat.eqb orb].
    destruct (getName p0 =? "req") eqn:E1.
    + apply String.eqb_eq in E1. rewrite E1.
      destruct (if inferred && isSome (p_type p0) then false else inferred);
        destruct kind, body; cbn; repeat split; eauto 8.
    + destruct (getName p0 =? "_req") eqn:E2;
        destruct kind, body; cbn; unfold isReqName; rewrite ?E1, ?E2; auto.
  - cbn [paramsBound] in H. apply Bool.negb_true_iff in H.
    unfold maybePrependReqVar, rewriteParams.
    cbn [fn_params fn_kind fn_name fn_body List.length Nat.ltb Nat.leb Nat.eqb orb andb].
    assert (Hshape :
      forall (params1 : list Param) (imports1 : ImportState),
        settledParams params1 = true ->
        (forall n, isReqName (bindingText n) = false ->
                   settledParams (setFirstName n params1) = true) ->
        let r :=
          if match kind with
             | ArrowFunction => negb (isBlockOrAbsent body)
             | _ => false
             end
          then (mkFunction kind name params1 body, imports1)
          else
            match p_name p1 with
            | ObjectPattern pat =>
                match obp_elements pat with
                | [] => (mkFunction kind name params1 body, imports1)
                | _ :: _ =>
                    (mkFunction kind name
                       (setFirstName
                          (if true && negb (startsWith (getName p0) "_")
                           then replaceWithText
                                  (mkPattern (obp_leading pat) (obp_open pat)
                                     (map renameRemoteAddr (obp_elements pat))
                                     (obp_close pat))
                                  (slice_0_minus2
                                     (patternFullText
                                        (mkPattern (obp_leading pat) (obp_open pat)
                                           (map renameRemoteAddr (obp_elements pat))
                                           (obp_close pat))) ++ ", req }")
                           else ObjectPattern
                                  (mkPattern (obp_leading pat) (obp_open pat)
                                     (map renameRemoteAddr (obp_elements pat))
                                     (obp_close pat)))
                          params1)
                       (if existsb (fun b => be_name b =? "remoteAddr") (obp_elements pat)
                        then insertVariableStatement0
                               (constDecl "remoteAddr" info_remoteAddr) body
                        else body),
                     imports1)
                end
            | _ =>
                if true && negb (startsWith (getName p0) "_")
                then (mkFunction kind name params1
                        (insertVariableStatement0 (constDecl (getName p0) ctx_req) body),
                      imports1)
                else (mkFunction kind name params1 body, imports1)
            end in
        fn_kind (fst r) = kind /\ fn_name (fst r) = name
        /\ settledParams (fn_params (fst r)) = true
        /\ (fn_body (fst r) = body
            \/ exists x init,
                 fn_body (fst r) = insertVariableStatement0 (constDecl x init) body
                 /\ (init = ctx_req \/ init = info_remoteAddr))).
    { intros params1 imports1 Hs Hset r. subst r.
      destruct (match kind with
                | ArrowFunction => negb (isBlockOrAbsent body)
                | _ => false
                end); [cbn; auto|].
      destruct (p_name p1) as [t|pat|l t|t];
        try (destruct (true && negb (startsWith (getName p0) "_")); cbn;
             repeat split; eauto 8; fail).
      destruct (obp_elements pat) as [|b bs]; [cbn; auto|].
      cbn [fst fn_kind fn_name fn_params fn_body].
      repeat split.
      - apply Hset.
        destruct (true && negb (startsWith (getName p0) "_"));
          [rewrite replaceWithText_spliced; apply spliced_pattern_name
          | apply pattern_name].
      - destruct (existsb _ _); eauto 8. }
    destruct (p_type p1) as [ty|] eqn:Et; [destruct (ty =? "RouteContext")|];
      apply Hshape; cbn; unfold getName in *; cbn; rewrite ?H; auto;
      intros n Hn; now rewrite Hn.
Qed.

Lemma maybePrependReqVar_kind_name :
  forall method st inferred,
    fn_kind (fst (maybePrependReqVar method st inferred)) = fn_kind method
    /\ fn_name (fst (maybePrependReqVar method st inferred)) = fn_name method.
Proof.
  intros method st inferred. unfold maybePrependReqVar.
  destruct (fn_params method) as [|p0 rest]; [auto|].
  destruct (rewriteParams _ _ _) as [params1 imports1].
  repeat match goal with
         | |- context [if ?c then _ else _] => destruct c
         | |- context [match ?x with _ => _ end] => destruct x
         end; auto.
Qed.

(** The normaliser registers core names only. *)
Lemma maybePrependReqVar_runtime :
  forall method st inferred,
    runtime (snd (maybePrependReqVar method st inferred)) = runtime st.
Proof.
  intros method st inferred. unfold maybePrependReqVar.
  destruct (fn_params method) as [|p0 rest]; [reflexivity|].
  assert (H : runtime (snd (rewriteParams (p0 :: rest)
                              (if inferred && isSome (p_type p0) then false else inferred)
                              st)) = runtime st).
  { unfold rewriteParams.
    repeat match goal with
           | |- context [if ?c then _ else _] => destruct c
           | |- context [match ?x with _ => _ end] => destruct x
           end; reflexivity. }
  destruct (rewriteParams _ _ _) as [params1 imports1]. cbn [snd] in H.
  repeat match goal with
         | |- context [if ?c then _ else _] => destruct c
         | |- context [match ?x with _ => _ end] => destruct x
         end; exact H.
Qed.

End HandlerFacts.

(** ** Import rewriter *)

Module ImportFacts.
Import Imports File Examples.


(** *** A loop that completes *)

Lemma addNamedImports_done :
  forall names d d',
    addNamedImports names d = Ok d' -> d' = withNamedImports names d.
Proof.
  intros names d d'. unfold addNamedImports.
  destruct names, (namespaceImport d), (namedImports d); intros H;
    try discriminate H; now injection H.
Qed.

Lemma addNamedImports_nothing :
  forall d, addNamedImports [] d = Ok (withNamedImports [] d).
Proof. intros d. unfold addNamedImports. now destruct (namespaceImport d), (namedImports d). Qed.

Lemma addNamedImports_no_namespace :
  forall names d,
    namespaceImport d = None -> addNamedImports names d = Ok (withNamedImports names d).
Proof. intros names d H. unfold addNamedImports. rewrite H. now destruct names. Qed.

Lemma importStep_done :
  forall ls d ls', importStep ls d = Ok ls' -> ls' = importStepDone ls d.
Proof.
  intros ls d ls'. unfold importStep, importStepDone.
  destruct (moduleSpecifier d =? "preact"); [intros H; now injection H|].
  destruct (moduleSpecifier d =? "$fresh/server.ts").
  { destruct (addNamedImports _ _) as [d2|m] eqn:E; intros H; [|discriminate H].
    apply addNamedImports_done in E. subst d2. now injection H. }
  destruct (moduleSpecifier d =? "$fresh/runtime.ts").
  { destruct (addNamedImports _ _) as [d2|m] eqn:E; intros H; [|discriminate H].
    apply addNamedImports_done in E. subst d2. now injection H. }
  intros H. now injection H.
Qed.

Lemma importLoop_thrown :
  forall decls m, fold_left importLoopStep decls (Throw m) = Throw m.
Proof. induction decls as [|d decls IH]; intros m; [reflexivity | apply IH]. Qed.

Lemma importLoop_done :
  forall decls ls ls',
    fold_left importLoopStep decls (Ok ls) = Ok ls' ->
    ls' = fold_left importStepDone decls ls.
Proof.
  induction decls as [|d decls IH]; intros ls ls' H.
  - now injection H.
  - cbn [fold_left importLoopStep] in H |- *.
    destruct (importStep ls d) as [ls1|m] eqn:E.
    + apply importStep_done in E. subst ls1. now apply IH.
    + rewrite importLoop_thrown in H. discriminate H.
Qed.

Lemma runImportLoop_done :
  forall st decls ls, runImportLoop st decls = Ok ls -> ls = importLoopDone st decls.
Proof. intros st decls ls H. now apply importLoop_done. Qed.

Lemma rewriteImports_done :
  forall st decls out,
    rewriteImports st decls = Ok out -> out = rewriteImportsDone st decls.
Proof.
  intros st decls out. unfold rewriteImports, rewriteImportsDone.
  destruct (runImportLoop st decls) as [ls|m] eqn:E; intros H; [|discriminate H].
  apply runImportLoop_done in E. subst ls. now injection H.
Qed.

(** *** Specifiers after the loop *)

Lemma removeEmptyImport_cases :
  forall d, removeEmptyImport d = [] \/ removeEmptyImport d = [d].
Proof.
  intros d. unfold removeEmptyImport. destruct (isEmptyImport d); auto.
Qed.

(** One iteration appends nothing or one declaration, whose specifier is the
    renamed specifier of the declaration it handled. *)
Lemma importStep_appends :
  forall ls d,
    exists out,
      ls_decls (importStepDone ls d) = (ls_decls ls ++ out)%list
      /\ (out = [] \/ exists d', out = [d'] /\ moduleSpecifier d' = renamed (moduleSpecifier d))
      /\ ls_hasCoreImport (importStepDone ls d)
           = ls_hasCoreImport ls || (moduleSpecifier d =? "$fresh/server.ts")
      /\ ls_hasRuntimeImport (importStepDone ls d)
           = ls_hasRuntimeImport ls || (moduleSpecifier d =? "$fresh/runtime.ts").
Proof.
  intros ls d. unfold importStepDone, renamed.
  destruct (moduleSpecifier d =? "preact") eqn:Hp.
  - apply String.eqb_eq in Hp. rewrite Hp. cbn [ls_decls ls_hasCoreImport ls_hasRuntimeImport].
    eexists. split; [reflexivity|].
    split; [|cbn; rewrite ?Bool.orb_false_r, ?Bool.orb_true_r; auto].
    match goal with |- context [removeEmptyImport ?x] =>
      destruct (removeEmptyImport_cases x) as [-> | ->]; [now left|right]
    end.
    eexists. split; [reflexivity|]. cbn. exact Hp.
  - destruct (moduleSpecifier d =? "$fresh/server.ts") eqn:Hs.
    + apply String.eqb_eq in Hs. rewrite ?Hs.
      cbn [ls_decls ls_hasCoreImport ls_hasRuntimeImport].
      eexists. split; [reflexivity|].
      split; [|cbn; rewrite ?Bool.orb_false_r, ?Bool.orb_true_r; auto].
      match goal with |- context [removeEmptyImport ?x] =>
        destruct (removeEmptyImport_cases x) as [-> | ->]; [now left|right]
      end.
      eexists. split; reflexivity.
    + destruct (moduleSpecifier d =? "$fresh/runtime.ts") eqn:Hr.
      * cbn [ls_decls ls_hasCoreImport ls_hasRuntimeImport].
        eexists. split; [reflexivity|].
        split; [|cbn; rewrite ?Bool.orb_false_r, ?Bool.orb_true_r; auto].
        match goal with |- context [removeEmptyImport ?x] =>
          destruct (removeEmptyImport_cases x) as [-> | ->]; [now left|right]
        end.
        eexists. split; reflexivity.
      * cbn [ls_decls ls_hasCoreImport ls_hasRuntimeImport].
        eexists. split; [reflexivity|].
        split; [|cbn; rewrite ?Bool.orb_false_r, ?Bool.orb_true_r; auto].
        right. eexists. split; reflexivity.
Qed.

Lemma importLoop_specifiers :
  forall decls ls,
    NoDup (map renamed (map moduleSpecifier decls)) ->
    exists out,
      map moduleSpecifier (ls_decls (fold_left importStepDone decls ls))
        = (map moduleSpecifier (ls_decls ls) ++ out)%list
      /\ NoDup out
      /\ (forall s, In s out -> In s (map renamed (map moduleSpecifier decls)))
      /\ ls_hasCoreImport (fold_left importStepDone decls ls)
           = ls_hasCoreImport ls || existsb isServerImport decls
      /\ ls_hasRuntimeImport (fold_left importStepDone decls ls)
           = ls_hasRuntimeImport ls || existsb isRuntimeImport decls.
Proof.
  induction decls as [|d decls IH]; intros ls Hnd.
  - exists []. cbn. rewrite app_nil_r, !Bool.orb_false_r.
    repeat split; auto using NoDup_nil; try (intros s []).
  - cbn [map] in Hnd. inversion Hnd as [|x l Hnotin Hnd' Heq]; subst.
    destruct (importStep_appends ls d) as (o & Ho & Hcases & Hc & Hr).
    destruct (IH (importStepDone ls d) Hnd') as (out & Hspec & Hout & Hin & Hc' & Hr').
    cbn [fold_left existsb]. rewrite Hc', Hr', Hc, Hr, !Bool.orb_assoc.
    rewrite Hspec, Ho, map_app, <- app_assoc.
    exists (map moduleSpecifier o ++ out)%list.
    split; [reflexivity|]. split; [|split; [|split; reflexivity]].
    + destruct Hcases as [-> | (d' & -> & Hd')]; [exact Hout|].
      cbn. constructor; [|exact Hout]. rewrite Hd'. intros Hx. apply Hnotin, Hin, Hx.
    + intros s Hs. cbn [map]. apply in_app_or in Hs as [Hs | Hs].
      * destruct Hcases as [-> | (d' & -> & Hd')]; [destruct Hs|].
        destruct Hs as [<- | []]. left. symmetry. exact Hd'.
      * right. apply Hin, Hs.
Qed.

Lemma renamed_injective :
  forall a b,
    isNewSpecifier a = false -> isNewSpecifier b = false ->
    renamed a = renamed b -> a = b.
Proof.
  intros a b Ha Hb. unfold renamed.
  destruct (a =? "$fresh/server.ts") eqn:A1; destruct (b =? "$fresh/server.ts") eqn:B1;
    try (apply String.eqb_eq in A1); try (apply String.eqb_eq in B1); try congruence.
  - destruct (b =? "$fresh/runtime.ts"); intros H; try discriminate H; rewrite <- H in Hb; discriminate Hb.
  - destruct (a =? "$fresh/runtime.ts"); intros H; try discriminate H; rewrite H in Ha; discriminate Ha.
  - destruct (a =? "$fresh/runtime.ts") eqn:A2; destruct (b =? "$fresh/runtime.ts") eqn:B2;
      try (apply String.eqb_eq in A2); try (apply String.eqb_eq in B2); try congruence.
    + intros H; try discriminate H; rewrite <- H in Hb; discriminate Hb.
    + intros H; try discriminate H; rewrite H in Ha; discriminate Ha.
Qed.

Lemma renamed_distinct :
  forall specs,
    NoDup specs ->
    (forall s, In s specs -> isNewSpecifier s = false) ->
    NoDup (map renamed specs).
Proof.
  induction specs as [|a specs IH]; intros Hnd Hnew; cbn; [constructor|].
  inversion Hnd as [|x l Hnotin Hnd' Heq]; subst.
  constructor.
  - intros Hin. apply in_map_iff in Hin as (b & Hb & Hbin).
    apply renamed_injective in Hb; [subst; contradiction | |]; apply Hnew; cbn; auto.
  - apply IH; [exact Hnd'|]. intros s Hs. apply Hnew. now right.
Qed.

Lemma renamed_is_fresh :
  forall s, isNewSpecifier s = false -> renamed s = "fresh" -> s = "$fresh/server.ts".
Proof.
  intros s Hs. unfold renamed.
  destruct (s =? "$fresh/server.ts") eqn:A; [now apply String.eqb_eq in A|].
  destruct (s =? "$fresh/runtime.ts"); intros H; [discriminate H|].
  rewrite H in Hs. discriminate Hs.
Qed.

Lemma renamed_is_runtime :
  forall s, isNewSpecifier s = false -> renamed s = "fresh/runtime" -> s = "$fresh/runtime.ts".
Proof.
  intros s Hs. unfold renamed.
  destruct (s =? "$fresh/server.ts") eqn:A; [intros H; discriminate H|].
  destruct (s =? "$fresh/runtime.ts") eqn:B; [now apply String.eqb_eq in B|].
  intros H. rewrite H in Hs. discriminate Hs.
Qed.

Lemma renamed_is_not_compat :
  forall s, isNewSpecifier s = false -> renamed s <> "fresh/compat".
Proof.
  intros s Hs. unfold renamed.
  destruct (s =? "$fresh/server.ts"); [discriminate|].
  destruct (s =? "$fresh/runtime.ts"); [discriminate|].
  intros H. rewrite H in Hs. discriminate Hs.
Qed.

Lemma existsb_specifier_false :
  forall (spec : string) decls,
    existsb (fun d => moduleSpecifier d =? spec) decls = false ->
    ~ In spec (map moduleSpecifier decls).
Proof.
  intros spec decls H Hin. apply in_map_iff in Hin as (d & Hd & Hin).
  assert (Ht : existsb (fun d => moduleSpecifier d =? spec) decls = true).
  { apply existsb_exists. exists d. split; [exact Hin|]. now apply String.eqb_eq. }
  rewrite H in Ht. discriminate Ht.
Qed.

(** The import step on declarations with distinct specifiers, none of them
    one of the new specifiers, leaves distinct specifiers. *)
Lemma rewriteImports_distinct :
  forall st decls,
    distinctSpecifiers decls ->
    (forall d, In d decls -> isNewSpecifier (moduleSpecifier d) = false) ->
    distinctSpecifiers (rewriteImportsDone st decls).
Proof.
  intros st decls Hnd Hnew. unfold distinctSpecifiers, rewriteImportsDone, importLoopDone, startOfLoop in *.
  assert (Hnew' : forall s, In s (map moduleSpecifier decls) -> isNewSpecifier s = false).
  { intros s Hs. apply in_map_iff in Hs as (d & <- & Hd). now apply Hnew. }
  pose proof (renamed_distinct _ Hnd Hnew') as Hren.
  destruct (importLoop_specifiers decls (mkLoop st false false false [] []) Hren)
    as (out & Hspec & Hout & Hin & Hc & Hr).
  cbn [ls_decls ls_hasCoreImport ls_hasRuntimeImport map app orb] in Hspec, Hc, Hr.
  set (ls := fold_left importStepDone decls (mkLoop st false false false [] [])) in *.
  rewrite map_app, Hspec.
  assert (Hfresh : ls_hasCoreImport ls = false -> ~ In "fresh" out).
  { intros Hf Hx. rewrite Hf in Hc. symmetry in Hc.
    apply (existsb_specifier_false "$fresh/server.ts" decls Hc).
    apply Hin in Hx. apply in_map_iff in Hx as (s & Hs & Hsin).
    apply renamed_is_fresh in Hs; [now subst | now apply Hnew']. }
  assert (Hrun : ls_hasRuntimeImport ls = false -> ~ In "fresh/runtime" out).
  { intros Hf Hx. rewrite Hf in Hr. symmetry in Hr.
    apply (existsb_specifier_false "$fresh/runtime.ts" decls Hr).
    apply Hin in Hx. apply in_map_iff in Hx as (s & Hs & Hsin).
    apply renamed_is_runtime in Hs; [now subst | now apply Hnew']. }
  assert (Hcompat : ~ In "fresh/compat" out).
  { intros Hx. apply Hin in Hx. apply in_map_iff in Hx as (s & Hs & Hsin).
    revert Hs. apply renamed_is_not_compat. now apply Hnew'. }
  unfold synthesizeImports.
  destruct (ls_hasCoreImport ls); destruct (ls_hasRuntimeImport ls);
    destruct (nonEmpty (core (ls_imports ls)));
    destruct (nonEmpty (runtime (ls_imports ls)));
    destruct (nonEmpty (compat (ls_imports ls)));
    cbn [negb andb app map moduleSpecifier synthesized];
    rewrite ?app_nil_r; try exact Hout;
    apply NoDup_app; try exact Hout;
    try (intros a Ha [<- | Hb]; [auto; fail | revert Ha; cbn in Hb]);
    repeat constructor; cbn; intuition (try discriminate; subst; auto).
Qed.

(** *** A second run of the import loop *)

Lemma filter_all :
  forall (A : Type) (f : A -> bool) l, forallb f l = true -> filter f l = l.
Proof.
  induction l as [|x l IH]; cbn; intros H; [reflexivity|].
  apply Bool.andb_true_iff in H as [Hx Hl]. now rewrite Hx, IH.
Qed.

Lemma filter_none :
  forall (A : Type) (f : A -> bool) l,
    forallb (fun x => negb (f x)) l = true -> filter f l = [].
Proof.
  induction l as [|x l IH]; cbn; intros H; [reflexivity|].
  apply Bool.andb_true_iff in H as [Hx Hl].
  apply Bool.negb_true_iff in Hx. now rewrite Hx, IH.
Qed.

Lemma forallb_filter :
  forall (A : Type) (f : A -> bool) l, forallb f (filter f l) = true.
Proof.
  induction l as [|x l IH]; cbn; [reflexivity|].
  destruct (f x) eqn:E; cbn; rewrite ?E; exact IH.
Qed.

Lemma importStep_stable :
  forall ls d,
    stableImport d = true ->
    importStepDone ls d
      = mkLoop (ls_imports ls) (ls_hasCoreImport ls) (ls_hasRuntimeImport ls)
          (ls_modified ls) (ls_removedJsxImports ls) (ls_decls ls ++ [d])%list.
Proof.
  intros ls d H. unfold stableImport in H.
  apply Bool.andb_true_iff in H as [H Hp].
  apply Bool.andb_true_iff in H as [Hs Hr].
  apply Bool.negb_true_iff in Hs, Hr.
  unfold importStepDone. rewrite Hs, Hr.
  destruct (moduleSpecifier d =? "preact"); [|reflexivity].
  apply Bool.andb_true_iff in Hp as [He Hj]. apply Bool.negb_true_iff in He.
  rewrite (filter_none _ (fun n => isJsxName (ni_name n)) _ Hj).
  rewrite (filter_all _ (fun n => negb (isJsxName (ni_name n))) _ Hj).
  replace (setNamedImports (namedImports d) d) with d by now destruct d.
  unfold removeEmptyImport. rewrite He. cbn [map]. now rewrite app_nil_r.
Qed.

Lemma importLoop_stable :
  forall decls ls,
    Forall (fun d => stableImport d = true) decls ->
    fold_left importStepDone decls ls
      = mkLoop (ls_imports ls) (ls_hasCoreImport ls) (ls_hasRuntimeImport ls)
          (ls_modified ls) (ls_removedJsxImports ls) (ls_decls ls ++ decls)%list.
Proof.
  induction decls as [|d decls IH]; intros ls H.
  - cbn. rewrite app_nil_r. now destruct ls.
  - inversion H as [|x l Hd Hrest]; subst. cbn [fold_left].
    rewrite (importStep_stable ls d Hd), (IH _ Hrest). cbn. now rewrite <- app_assoc.
Qed.

Lemma importStep_leaves_stable :
  forall ls d,
    Forall (fun d => stableImport d = true) (ls_decls ls) ->
    Forall (fun d => stableImport d = true) (ls_decls (importStepDone ls d)).
Proof.
  intros ls d H. unfold importStepDone.
  destruct (moduleSpecifier d =? "preact") eqn:Ep.
  - cbn [ls_decls]. apply Forall_app. split; [exact H|].
    unfold removeEmptyImport.
    match goal with |- context [isEmptyImport ?x] => destruct (isEmptyImport x) eqn:Ee end;
      constructor; [|constructor].
    unfold stableImport. rewrite Ee.
    apply String.eqb_eq in Ep. cbn [moduleSpecifier setNamedImports namedImports].
    rewrite Ep. cbn. apply forallb_filter.
  - destruct (moduleSpecifier d =? "$fresh/server.ts") eqn:Es.
    + cbn [ls_decls]. apply Forall_app. split; [exact H|].
      unfold removeEmptyImport. destruct (isEmptyImport _); constructor; [|constructor].
      reflexivity.
    + destruct (moduleSpecifier d =? "$fresh/runtime.ts") eqn:Er.
      * cbn [ls_decls]. apply Forall_app. split; [exact H|].
        unfold removeEmptyImport. destruct (isEmptyImport _); constructor; [|constructor].
        reflexivity.
      * cbn [ls_decls]. apply Forall_app. split; [exact H|].
        constructor; [|constructor]. unfold stableImport. now rewrite Es, Er, Ep.
Qed.

Lemma importLoop_leaves_stable :
  forall decls ls,
    Forall (fun d => stableImport d = true) (ls_decls ls) ->
    Forall (fun d => stableImport d = true) (ls_decls (fold_left importStepDone decls ls)).
Proof.
  induction decls as [|d decls IH]; intros ls H; [exact H|].
  cbn [fold_left]. now apply IH, importStep_leaves_stable.
Qed.

Lemma rewriteImports_stable :
  forall st decls, Forall (fun d => stableImport d = true) (rewriteImportsDone st decls).
Proof.
  intros st decls. unfold rewriteImportsDone, importLoopDone, startOfLoop.
  apply Forall_app. split.
  - apply importLoop_leaves_stable. constructor.
  - unfold synthesizeImports.
    repeat match goal with |- context [if ?c then _ else _] => destruct c end;
      repeat constructor.
Qed.

(** The import step run again, with nothing registered, changes nothing
    and reports no modification. *)
Lemma rewriteImports_fixed :
  forall st decls,
    rewriteImportsDone emptyImports (rewriteImportsDone st decls) = rewriteImportsDone st decls
    /\ ls_modified (importLoopDone emptyImports (rewriteImportsDone st decls)) = false.
Proof.
  intros st decls.
  pose proof (rewriteImports_stable st decls) as H.
  unfold rewriteImportsDone at 1. unfold importLoopDone, startOfLoop.
  rewrite (importLoop_stable _ _ H). cbn. now rewrite app_nil_r.
Qed.

(** *** Declarations on which no call throws *)

Lemma importStep_completes :
  forall ls d,
    namespaceImport d = None \/ stableImport d = true ->
    importStep ls d = Ok (importStepDone ls d).
Proof.
  intros ls d H. unfold importStep, importStepDone.
  destruct (moduleSpecifier d =? "preact"); [reflexivity|].
  destruct (moduleSpecifier d =? "$fresh/server.ts") eqn:Es.
  { destruct H as [H | H].
    - now rewrite addNamedImports_no_namespace.
    - unfold stableImport in H. rewrite Es in H. discriminate H. }
  destruct (moduleSpecifier d =? "$fresh/runtime.ts") eqn:Er; [|reflexivity].
  destruct H as [H | H].
  - now rewrite addNamedImports_no_namespace.
  - unfold stableImport in H. rewrite Es, Er in H. discriminate H.
Qed.

Lemma importLoop_completes :
  forall decls ls,
    Forall (fun d => namespaceImport d = None \/ stableImport d = true) decls ->
    fold_left importLoopStep decls (Ok ls) = Ok (fold_left importStepDone decls ls).
Proof.
  induction decls as [|d decls IH]; intros ls H; [reflexivity|].
  inversion H as [|x xs Hd Hrest]; subst.
  cbn [fold_left importLoopStep]. rewrite importStep_completes by exact Hd.
  now apply IH.
Qed.

Lemma rewriteImports_completes :
  forall st decls,
    Forall (fun d => namespaceImport d = None \/ stableImport d = true) decls ->
    rewriteImports st decls = Ok (rewriteImportsDone st decls).
Proof.
  intros st decls H. unfold rewriteImports, runImportLoop.
  now rewrite importLoop_completes.
Qed.

(** *** The runtime set during the loop *)

Lemma serverNamedStep_runtime :
  forall names acc,
    runtime (fst (fold_left serverNamedStep names acc)) = runtime (fst acc).
Proof.
  induction names as [|m names IH]; intros [st acc]; [reflexivity|].
  cbn [fold_left]. rewrite IH. unfold serverNamedStep. cbn [fst snd].
  now destruct (set_has (ni_name m) compatNames).
Qed.

Lemma runtimeNamedStep_empty :
  forall names st,
    runtime st = [] -> runtime (fold_left runtimeNamedStep names st) = [].
Proof.
  induction names as [|m names IH]; intros st H; [exact H|].
  cbn [fold_left]. apply IH. unfold runtimeNamedStep. cbn [runtime]. now rewrite H.
Qed.

(** The loop never adds a name to the runtime set. *)
Lemma importLoop_runtime_empty :
  forall decls ls,
    runtime (ls_imports ls) = [] ->
    runtime (ls_imports (fold_left importStepDone decls ls)) = [].
Proof.
  induction decls as [|d decls IH]; intros ls H; [exact H|].
  cbn [fold_left]. apply IH. unfold importStepDone.
  destruct (moduleSpecifier d =? "preact"); [exact H|].
  destruct (moduleSpecifier d =? "$fresh/server.ts").
  - cbn [ls_imports]. rewrite serverNamedStep_runtime. exact H.
  - destruct (moduleSpecifier d =? "$fresh/runtime.ts"); [|exact H].
    cbn [ls_imports]. now apply runtimeNamedStep_empty.
Qed.

End ImportFacts.


(** ** Project driver *)

Module ProjectFacts.
Import File Project Examples.

Section Aggregate.

Variable parseSource : string -> SourceFile.
Variable failure : SourceFile -> option string.

Lemma fileTask_result :
  forall st sf,
    results (fileTask parseSource failure st sf)
      = (results st ++ [resultOf parseSource failure sf])%list.
Proof.
  intros st sf. unfold fileTask, resultOf.
  destruct (awaitUpdateFile parseSource failure sf); reflexivity.
Qed.

Lemma fileTask_processed :
  forall st sf,
    processedCount (fileTask parseSource failure st sf)
      = processedCount st + (if fails parseSource failure sf then 0 else 1).
Proof.
  intros st sf. unfold fileTask, fails.
  destruct (awaitUpdateFile parseSource failure sf); cbn; lia.
Qed.

Lemma fileTask_modified :
  forall st sf,
    modifiedCount (fileTask parseSource failure st sf)
      = modifiedCount st + (if reportsModified parseSource failure sf then 1 else 0).
Proof.
  intros st sf. unfold fileTask, reportsModified.
  destruct (awaitUpdateFile parseSource failure sf) as [[|]|]; cbn; lia.
Qed.

Lemma fold_fileTask :
  forall sfs st,
    results (fold_left (fileTask parseSource failure) sfs st)
      = (results st ++ map (resultOf parseSource failure) sfs)%list
    /\ processedCount (fold_left (fileTask parseSource failure) sfs st)
         = processedCount st
           + List.length (filter (fun sf => negb (fails parseSource failure sf)) sfs).
Proof.
  induction sfs as [|sf sfs IH]; intros st; cbn [fold_left map filter].
  - rewrite app_nil_r. cbn. split; [reflexivity | lia].
  - destruct (IH (fileTask parseSource failure st sf)) as [Hr Hp].
    rewrite Hr, Hp, fileTask_result, fileTask_processed, <- app_assoc.
    split; [reflexivity|].
    destruct (fails parseSource failure sf); cbn; lia.
Qed.

Lemma fold_fileTask_modified :
  forall sfs st,
    modifiedCount (fold_left (fileTask parseSource failure) sfs st)
      = modifiedCount st
        + List.length (filter (reportsModified parseSource failure) sfs).
Proof.
  induction sfs as [|sf sfs IH]; intros st; cbn [fold_left filter].
  - cbn. lia.
  - rewrite IH, fileTask_modified.
    destruct (reportsModified parseSource failure sf); cbn; lia.
Qed.

Lemma success_resultOf :
  forall sf, success (resultOf parseSource failure sf) = negb (fails parseSource failure sf).
Proof.
  intros sf. unfold resultOf, fails.
  destruct (awaitUpdateFile parseSource failure sf); reflexivity.
Qed.

Lemma path_resultOf :
  forall sf, path (resultOf parseSource failure sf) = sf_filePath sf.
Proof.
  intros sf. unfold resultOf.
  destruct (awaitUpdateFile parseSource failure sf); reflexivity.
Qed.

Lemma failed_map_resultOf :
  forall sfs,
    failed (map (resultOf parseSource failure) sfs)
      = map (resultOf parseSource failure) (filter (fails parseSource failure) sfs).
Proof.
  induction sfs as [|sf sfs IH]; [reflexivity|].
  unfold failed in *. cbn [map filter]. rewrite success_resultOf, IH.
  destruct (fails parseSource failure sf); reflexivity.
Qed.

Lemma failing_and_others :
  forall sfs,
    List.length (filter (fails parseSource failure) sfs)
      + List.length (filter (fun sf => negb (fails parseSource failure sf)) sfs)
    = List.length sfs.
Proof.
  induction sfs as [|sf sfs IH]; [reflexivity|].
  cbn [filter]. destruct (fails parseSource failure sf); cbn [negb List.length]; lia.
Qed.

(** The summary of phase 2, whatever the manifest update reported. *)
Lemma summary_of_phase2 :
  forall sfs configUpdated,
    summary configUpdated (phase2 parseSource failure sfs)
      = mkProjectResult configUpdated
          (List.length (filter (fun sf => negb (fails parseSource failure sf)) sfs))
          (List.length (filter (reportsModified parseSource failure) sfs))
          (List.length (filter (fails parseSource failure) sfs)).
Proof.
  intros sfs c. unfold summary, phase2.
  destruct (fold_fileTask sfs (mkPhase2 0 0 [])) as [Hr Hp].
  rewrite Hr, Hp, fold_fileTask_modified. cbn [results processedCount modifiedCount app].
  now rewrite failed_map_resultOf, length_map.
Qed.

End Aggregate.

(** C9: once the manifest update has returned, [updateProject] returns its
    summary whatever the files do.  Every file gets its own result, the one
    its own task gives, also when other files fail; the files that fail are
    exactly the ones whose paths are reported; [errors] counts them and
    [filesProcessed] counts the others. *)
Theorem failing_file_leaves_the_others_alone :
  forall (parseSource : string -> SourceFile) (failure : SourceFile -> option string)
         (parse : string -> option Manifest.Json) (fs fs1 : Manifest.FileSystem)
         (dir : string) (sfs : list SourceFile) (configResult : Manifest.UpdateResult),
    Manifest.updateConfig parse fs dir = Ok (fs1, configResult) ->
    let failing := filter (fails parseSource failure) sfs in
    let others := filter (fun sf => negb (fails parseSource failure sf)) sfs in
    let st := phase2 parseSource failure sfs in
    updateProject parseSource failure parse fs dir sfs
      = Ok (mkProjectResult (Manifest.updated configResult)
              (List.length others)
              (List.length (filter (reportsModified parseSource failure) sfs))
              (List.length failing))
    /\ results st = map (resultOf parseSource failure) sfs
    /\ reportedPaths (results st) = map sf_filePath failing
    /\ List.length failing + List.length others = List.length sfs.
Proof.
  intros parseSource failure parse fs fs1 dir sfs configResult Hc failing others st.
  subst failing others st.
  split.
  { unfold updateProject. rewrite Hc. now rewrite summary_of_phase2. }
  destruct (fold_fileTask parseSource failure sfs (mkPhase2 0 0 [])) as [Hr _].
  cbn [results app] in Hr. fold (phase2 parseSource failure sfs) in Hr.
  split; [exact Hr|].
  split; [|apply failing_and_others].
  unfold reportedPaths. rewrite Hr, failed_map_resultOf, map_map.
  apply map_ext. apply path_resultOf.
Qed.

Lemma failing_file_leaves_the_others_alone_witness :
  updateProject parseComments savesAll parseExample (fun _ => None) "/app"
      [namespaceRoute; migratedRoute]
    = Ok (mkProjectResult false 1 0 1)
  /\ results (phase2 parseComments savesAll [namespaceRoute; migratedRoute])
     = [resultOf parseComments savesAll namespaceRoute;
        mkFileResult true false "/app/routes/index.tsx" None]
  /\ reportedPaths (results (phase2 parseComments savesAll [namespaceRoute; migratedRoute]))
     = ["/app/routes/api.ts"]
  /\ 1 + 1 = 2.
Proof.
  apply (failing_file_leaves_the_others_alone parseComments savesAll parseExample
           (fun _ => None) (fun _ => None) "/app" [namespaceRoute; migratedRoute]
           (Manifest.mkUpdateResult false None)).
  reflexivity.
Defined.

End ProjectFacts.

(** ** The per-file pass *)

Module FileFacts.
Import Ast Handler Imports Text File Examples AstFacts ImportFacts.

(** *** What a completed pass returns *)

Lemma withoutDirectives_path :
  forall parse sf, sf_filePath (withoutDirectives parse sf) = sf_filePath sf.
Proof.
  intros parse sf. unfold withoutDirectives.
  destruct (stripDirectives (getFullText sf) =? getFullText sf); reflexivity.
Qed.

Lemma withoutDirectives_route :
  forall parse sf, isRouteFile (withoutDirectives parse sf) = isRouteFile sf.
Proof. intros parse sf. unfold isRouteFile. now rewrite withoutDirectives_path. Qed.

Lemma updateFile_result :
  forall parse sf sf1 m,
    updateFile parse sf = Ok (sf1, m) ->
    let scanned := withoutDirectives parse sf in
    let ls := importLoopDone (snd (rewriteHandlers scanned)) (sf_imports scanned) in
    runImportLoop (snd (rewriteHandlers scanned)) (sf_imports scanned) = Ok ls
    /\ sf1 = mkSourceFile (sf_filePath sf) (sf_text scanned)
               (rewriteImportsDone (snd (rewriteHandlers scanned)) (sf_imports scanned))
               (fst (rewriteHandlers scanned))
    /\ m = negb (getFullText sf1 =? getFullText sf) || ls_modified ls.
Proof.
  intros parse sf sf1 m H scanned ls. subst ls. unfold updateFile in H.
  assert (Hp : sf_filePath scanned = sf_filePath sf) by apply withoutDirectives_path.
  change (withoutDirectives parse sf) with scanned in H. clearbody scanned.
  destruct (rewriteHandlers scanned) as [exports1 st] eqn:Eh. cbn [fst snd].
  destruct (runImportLoop st (sf_imports scanned)) as [ls|e] eqn:El; [|discriminate H].
  pose proof (runImportLoop_done _ _ _ El) as Hls. subst ls.
  injection H as <- <-. rewrite Hp.
  repeat split; reflexivity.
Qed.

(** C2 fails in both situations it names: two legacy server imports are
    both renamed to ["fresh"], and a file that already imports from ["fresh"]
    gets a second ["fresh"] declaration for [FreshContext]. *)
Lemma updateFile_can_duplicate_specifiers :
  (exists sf1 m,
      updateFile parseComments twoLegacyImports = Ok (sf1, m)
      /\ ~ distinctSpecifiers (sf_imports sf1))
  /\ (exists sf1 m,
        updateFile parseComments alreadyFresh = Ok (sf1, m)
        /\ ~ distinctSpecifiers (sf_imports sf1)).
Proof.
  split; do 2 eexists; (split; [reflexivity|]);
    intros H; cbn in H; inversion H as [|x l Hnotin _ Heq]; subst;
    apply Hnotin; now left.
Qed.

(** C2, amended: when the import declarations the pass scans (those of the
    file once its directive lines are removed) have pairwise distinct module
    specifiers and none of them is ["fresh"], ["fresh/runtime"] or
    ["fresh/compat"], no two import declarations of the file a completed
    [updateFile] leaves share a module specifier. *)
Theorem updateFile_keeps_specifiers_distinct :
  forall parse sf sf1 m,
    updateFile parse sf = Ok (sf1, m) ->
    distinctSpecifiers (sf_imports (withoutDirectives parse sf)) ->
    (forall d, In d (sf_imports (withoutDirectives parse sf)) ->
               isNewSpecifier (moduleSpecifier d) = false) ->
    distinctSpecifiers (sf_imports sf1).
Proof.
  intros parse sf sf1 m H Hnd Hnew.
  destruct (updateFile_result parse sf sf1 m H) as (_ & -> & _).
  now apply rewriteImports_distinct.
Qed.

Lemma updateFile_keeps_specifiers_distinct_witness :
  distinctSpecifiers (sf_imports legacyRouteUpdated).
Proof.
  apply (updateFile_keeps_specifiers_distinct parseComments legacyRoute
           legacyRouteUpdated true).
  - reflexivity.
  - cbn. repeat constructor; cbn; intuition discriminate.
  - intros d [<- | [<- | []]]; reflexivity.
Defined.

(** *** A second pass over the exported declarations *)

Lemma rewriteFunction_unfold :
  forall f st inferred,
    rewriteFunction f st inferred
      = maybePrependReqVar
          (mkFunction (fn_kind f) (fn_name f) (fn_params f) (rewriteBody (fn_body f)))
          st inferred.
Proof. reflexivity. Qed.

Lemma forallb_Forall :
  forall (A : Type) (f : A -> bool) l, forallb f l = true -> Forall (fun x => f x = true) l.
Proof. intros A f l H. apply Forall_forall. now apply forallb_forall. Qed.

(** The walk run again over a body whose entries one visit settles. *)
Lemma rewriteBody_idempotent :
  forall b,
    forallb nodeOk (bodyEntries b) = true ->
    rewriteBody (rewriteBody b) = rewriteBody b.
Proof.
  intros [ss|e|] H; cbn [rewriteBody bodyEntries] in *; [| |reflexivity].
  - now rewrite rewriteCtxMethods_idempotent by now apply forallb_Forall.
  - f_equal. apply rewriteDescendants_settles; auto. now apply forallb_Forall.
Qed.

Lemma rewriteBody_inserted :
  forall x init b,
    init = ctx_req \/ init = info_remoteAddr ->
    rewriteBody (rewriteBody b) = rewriteBody b ->
    rewriteBody (insertVariableStatement0 (constDecl x init) (rewriteBody b))
      = insertVariableStatement0 (constDecl x init) (rewriteBody b).
Proof.
  intros x init b Hinit Hb.
  assert (He : rewriteEntry 1 (constDecl x init) = constDecl x init)
    by (destruct Hinit as [-> | ->]; reflexivity).
  destruct b as [ss|e|]; cbn [rewriteBody insertVariableStatement0] in *.
  - injection Hb as Hb. unfold rewriteCtxMethods in *. cbn [map].
    now rewrite He, Hb.
  - exact Hb.
  - unfold rewriteCtxMethods. cbn [map]. now rewrite He.
Qed.

(** A function one pass settles is left as it is, and registers nothing,
    when it is rewritten again. *)
Lemma rewriteFunction_settles :
  forall f st inferred st' inferred',
    settles f = true ->
    rewriteFunction (fst (rewriteFunction f st inferred)) st' inferred'
      = (fst (rewriteFunction f st inferred), st').
Proof.
  intros f st inferred st' inferred' H.
  unfold settles in H. apply Bool.andb_true_iff in H as [Hp Hb].
  pose proof (rewriteBody_idempotent _ Hb) as Hbody.
  rewrite (rewriteFunction_unfold f).
  set (g := mkFunction (fn_kind f) (fn_name f) (fn_params f) (rewriteBody (fn_body f))).
  destruct (HandlerFacts.maybePrependReqVar_shape g st inferred Hp)
    as (_ & _ & Hs & Hout).
  set (out := fst (maybePrependReqVar g st inferred)) in *.
  rewrite rewriteFunction_unfold.
  assert (Hfix : rewriteBody (fn_body out) = fn_body out).
  { destruct Hout as [-> | (x & init & -> & Hinit)]; cbn [g fn_body].
    - exact Hbody.
    - now apply rewriteBody_inserted. }
  rewrite Hfix.
  replace (mkFunction (fn_kind out) (fn_name out) (fn_params out) (fn_body out))
    with out by now destruct out.
  now apply HandlerFacts.maybePrependReqVar_settled.
Qed.

(** A loop that appends one rewritten element per element and threads a
    state: when each element comes out fixed, a second run of the loop over
    the output changes nothing. *)
Section AppendingLoop.

Variables (A S : Type).
Variable step : list A * S -> A -> list A * S.
Variable ok : A -> Prop.

Hypothesis step_appends :
  forall done st x, exists x' st',
    step (done, st) x = ((done ++ [x'])%list, st') /\ (ok x -> fixedElement step x').

Lemma loop_appends :
  forall l done st, exists outs st',
    fold_left step l (done, st) = ((done ++ outs)%list, st')
    /\ (Forall ok l -> Forall (fixedElement step) outs).
Proof.
  induction l as [|x l IH]; intros done st.
  - exists [], st. cbn. rewrite app_nil_r. auto.
  - destruct (step_appends done st x) as (x' & st1 & E & Hx).
    destruct (IH (done ++ [x'])%list st1) as (outs & st2 & E2 & Houts).
    exists (x' :: outs), st2. cbn [fold_left]. rewrite E, E2, <- app_assoc.
    split; [reflexivity|].
    intros Hl. inversion Hl; subst. constructor; auto.
Qed.

Lemma loop_fixed :
  forall l done st,
    Forall (fixedElement step) l -> fold_left step l (done, st) = ((done ++ l)%list, st).
Proof.
  induction l as [|x l IH]; intros done st Hl.
  - cbn. now rewrite app_nil_r.
  - inversion Hl as [|y ys Hx Hrest]; subst. cbn [fold_left].
    rewrite Hx, IH by assumption. now rewrite <- app_assoc.
Qed.

End AppendingLoop.

Lemma rewriteFunction_kind_name :
  forall f st inferred,
    fn_kind (fst (rewriteFunction f st inferred)) = fn_kind f
    /\ fn_name (fst (rewriteFunction f st inferred)) = fn_name f.
Proof.
  intros f st inferred. unfold rewriteFunction.
  apply (HandlerFacts.maybePrependReqVar_kind_name
           (mkFunction (fn_kind f) (fn_name f) (fn_params f) (rewriteBody (fn_body f)))).
Qed.

Lemma rewriteProperty_appends :
  forall done st p, exists p' st',
    rewriteProperty (done, st) p = ((done ++ [p'])%list, st')
    /\ (propertyOk p -> fixedElement rewriteProperty p').
Proof.
  intros done st p. unfold propertyOk, fixedElement.
  destruct p as [f|name [f|t]|t]; cbn [rewriteProperty rewrittenProperty].
  - destruct (isHttpMethod (fn_name f)) eqn:Em.
    + destruct (rewriteFunction f st true) as [f1 st1] eqn:Ef.
      exists (MethodProperty f1), st1. split; [reflexivity|].
      intros Hok done2 st2. cbn [forallb] in Hok. rewrite Bool.andb_true_r in Hok.
      replace f1 with (fst (rewriteFunction f st true)) by now rewrite Ef.
      cbn [rewriteProperty].
      rewrite (proj2 (rewriteFunction_kind_name f st true)), Em.
      now rewrite rewriteFunction_settles.
    + exists (MethodProperty f), st. split; [reflexivity|].
      intros _ done2 st2. cbn [rewriteProperty]. now rewrite Em.
  - destruct (isFunctionValue f) eqn:Ev.
    + destruct (rewriteFunction f st true) as [f1 st1] eqn:Ef.
      exists (PropertyAssignment name (FunctionInit f1)), st1. split; [reflexivity|].
      intros Hok done2 st2. cbn [forallb] in Hok. rewrite Bool.andb_true_r in Hok.
      replace f1 with (fst (rewriteFunction f st true)) by now rewrite Ef.
      cbn [rewriteProperty]. unfold isFunctionValue in *.
      rewrite (proj1 (rewriteFunction_kind_name f st true)), Ev.
      now rewrite rewriteFunction_settles.
    + exists (PropertyAssignment name (FunctionInit f)), st. split; [reflexivity|].
      intros _ done2 st2. cbn [rewriteProperty]. now rewrite Ev.
  - exists (PropertyAssignment name (OtherInit t)), st. split; [reflexivity|].
    intros _ done2 st2. reflexivity.
  - exists (OtherProperty t), st. split; [reflexivity|].
    intros _ done2 st2. reflexivity.
Qed.

Lemma forallb_flat_map :
  forall (A B : Type) (f : B -> bool) (g : A -> list B) (l : list A),
    forallb f (flat_map g l) = true -> Forall (fun x => forallb f (g x) = true) l.
Proof.
  induction l as [|x l IH]; cbn; intros H; [constructor|].
  rewrite forallb_app in H. apply Bool.andb_true_iff in H as [Hx Hl].
  constructor; auto.
Qed.

Lemma rewriteProperties_fixed :
  forall props st st2,
    forallb settles (flat_map rewrittenProperty props) = true ->
    fold_left rewriteProperty (fst (fold_left rewriteProperty props ([], st))) ([], st2)
      = (fst (fold_left rewriteProperty props ([], st)), st2).
Proof.
  intros props st st2 H.
  destruct (loop_appends _ _ rewriteProperty propertyOk rewriteProperty_appends props [] st)
    as (outs & st1 & E & Hfixed).
  rewrite E. cbn [fst app].
  rewrite (loop_fixed _ _ rewriteProperty outs [] st2); [reflexivity|].
  apply Hfixed. now apply forallb_flat_map.
Qed.

(** An exported declaration is left as it is, and registers nothing, when
    it is rewritten again, provided one pass settles the functions the pass
    rewrites in it. *)
Lemma rewriteExport_fixed :
  forall name decl st st2,
    forallb settles (rewrittenFunctions (name, decl)) = true ->
    rewriteExport name (fst (rewriteExport name decl st)) st2
      = (fst (rewriteExport name decl st), st2).
Proof.
  intros name decl st st2 H. unfold rewriteExport. unfold rewrittenFunctions in H.
  cbn [fst snd] in H.
  destruct (name =? "handler") eqn:Eh.
  - destruct decl as [v [|props|t]|f|callee args|t]; try reflexivity.
    + pose proof (rewriteProperties_fixed props st st2 H) as Hp.
      destruct (fold_left rewriteProperty props ([], st)) as [props1 st1].
      cbn [fst] in *. now rewrite Hp.
    + cbn [forallb] in H. rewrite Bool.andb_true_r in H.
      pose proof (rewriteFunction_settles f st false st2 false H) as Hf.
      destruct (rewriteFunction f st false) as [f1 st1].
      cbn [fst] in *. now rewrite Hf.
  - destruct (name =? "default") eqn:Ed; [|reflexivity].
    destruct decl as [v init|f|callee args|t]; try reflexivity.
    + cbn [forallb] in H. rewrite Bool.andb_true_r in H.
      pose proof (rewriteFunction_settles f st false st2 false H) as Hf.
      destruct (rewriteFunction f st false) as [f1 st1].
      cbn [fst] in *. now rewrite Hf.
    + destruct callee; try reflexivity.
      destruct args as [|[f|n] rest]; try reflexivity.
      destruct (isDefineWrapper text) eqn:Ew; [|cbn; now rewrite Ew].
      destruct (isFunctionValue f) eqn:Ev; [|cbn; now rewrite Ew, Ev].
      cbn [andb forallb] in H |- *. rewrite Bool.andb_true_r in H.
      pose proof (rewriteFunction_settles f st false st2 false H) as Hf.
      pose proof (proj1 (rewriteFunction_kind_name f st false)) as Hk.
      destruct (rewriteFunction f st false) as [f1 st1].
      cbn [fst] in *. unfold isFunctionValue in *. now rewrite Ew, Hk, Ev, Hf.
Qed.

Lemma rewriteExportStep_appends :
  forall done st e, exists e' st',
    rewriteExportStep (done, st) e = ((done ++ [e'])%list, st')
    /\ (exportOk e -> fixedElement rewriteExportStep e').
Proof.
  intros done st [name decl]. unfold exportOk, fixedElement, rewriteExportStep.
  cbn [fst snd].
  exists (name, fst (rewriteExport name decl st)), (snd (rewriteExport name decl st)).
  split; [now destruct (rewriteExport name decl st)|].
  intros H done2 st2. cbn [fst snd]. now rewrite rewriteExport_fixed.
Qed.

(** A second pass over the exported declarations changes nothing and
    leaves every import set empty. *)
Lemma rewriteExports_fixed :
  forall exports,
    forallb (fun e => forallb settles (rewrittenFunctions e)) exports = true ->
    rewriteExports (fst (rewriteExports exports))
      = (fst (rewriteExports exports), emptyImports).
Proof.
  intros exports H. unfold rewriteExports.
  destruct (loop_appends _ _ rewriteExportStep exportOk rewriteExportStep_appends
              exports [] emptyImports) as (outs & st1 & E & Hfixed).
  rewrite E. cbn [fst app].
  rewrite (loop_fixed _ _ rewriteExportStep outs [] emptyImports); [reflexivity|].
  apply Hfixed. apply Forall_forall. intros e He.
  rewrite forallb_forall in H. now apply H.
Qed.

(** *** The whole pass, twice *)

Lemma removeAll_absent :
  forall pat s, includes s pat = false -> removeAll pat s = s.
Proof.
  intros pat. unfold removeAll. induction s as [|c s IH]; intros H; [reflexivity|].
  cbn [includes] in H. apply Bool.orb_false_elim in H as [Hp Hs].
  cbn [removeFrom]. rewrite Hp. now rewrite IH.
Qed.

Lemma strip_absent :
  forall pats text,
    forallb (fun pat => negb (includes text pat)) pats = true ->
    fold_left (fun t pat => removeAll pat t) pats text = text.
Proof.
  induction pats as [|pat pats IH]; intros text H; [reflexivity|].
  cbn [forallb] in H. apply Bool.andb_true_iff in H as [Hp Hrest].
  apply Bool.negb_true_iff in Hp. cbn [fold_left].
  rewrite (removeAll_absent _ _ Hp). now apply IH.
Qed.

Lemma stripDirectives_fixed :
  forall text, directiveFree text = true -> stripDirectives text = text.
Proof. intros text H. now apply strip_absent. Qed.

Lemma withoutDirectives_fixed :
  forall parse sf, directiveFree (getFullText sf) = true -> withoutDirectives parse sf = sf.
Proof.
  intros parse sf H. unfold withoutDirectives.
  now rewrite stripDirectives_fixed, String.eqb_refl.
Qed.

(** The import loop over declarations that are all stable, with nothing
    registered: it completes, keeps them and adds none. *)
Lemma runImportLoop_on_stable :
  forall decls,
    Forall (fun d => stableImport d = true) decls ->
    runImportLoop emptyImports decls
      = Ok (mkLoop emptyImports false false false [] decls).
Proof.
  intros decls H. unfold runImportLoop.
  rewrite importLoop_completes by (eapply Forall_impl; [|exact H]; auto).
  unfold startOfLoop. now rewrite importLoop_stable.
Qed.

(** C1 fails: stripping the directive lines of [nestedDirective] puts a
    directive line together that the second run removes, and a handler with
    three parameters loses one more parameter in the second run; both second
    runs change the text and report the file as modified. *)
Lemma updateFile_is_not_idempotent :
  (exists sf1 m sf2,
      updateFile parseComments nestedDirective = Ok (sf1, m)
      /\ updateFile parseComments sf1 = Ok (sf2, true)
      /\ getFullText sf2 <> getFullText sf1)
  /\ (exists sf1 m sf2,
        updateFile parseComments threeParameters = Ok (sf1, m)
        /\ updateFile parseComments sf1 = Ok (sf2, true)
        /\ getFullText sf2 <> getFullText sf1).
Proof.
  split; do 3 eexists;
    (split; [vm_compute; reflexivity|]);
    (split; [vm_compute; reflexivity|]);
    vm_compute; discriminate.
Qed.

(** C1, amended: let a first run of [updateFile] complete on a file and
    leave a text that holds none of the seven directive lines; let the file,
    when it is a route file, be such that every function the pass rewrites
    has at most two parameters, the second one not called [req] or [_req],
    and a body in which no [renderNotFound] access the walk visits hides a
    further access to rewrite.  Then a second run on the output of the first
    returns the same file and reports it as unmodified. *)
Theorem updateFile_idempotent :
  forall parse sf sf1 m,
    updateFile parse sf = Ok (sf1, m) ->
    directiveFree (getFullText sf1) = true ->
    handlersSettle (withoutDirectives parse sf) = true ->
    updateFile parse sf1 = Ok (sf1, false).
Proof.
  intros parse sf sf1 m H Hfree Hsettle.
  destruct (updateFile_result parse sf sf1 m H) as (_ & Hsf1 & _).
  set (scanned := withoutDirectives parse sf) in *.
  assert (Hroute : isRouteFile sf1 = isRouteFile scanned).
  { subst sf1. unfold isRouteFile. cbn [sf_filePath]. unfold scanned.
    now rewrite withoutDirectives_path. }
  assert (Hexports : rewriteHandlers sf1 = (sf_exports sf1, emptyImports)).
  { unfold rewriteHandlers. rewrite Hroute. unfold handlersSettle in Hsettle.
    subst sf1. cbn [sf_exports]. unfold rewriteHandlers.
    destruct (isRouteFile scanned); [|reflexivity].
    cbn [negb orb] in Hsettle. now apply rewriteExports_fixed. }
  assert (Hstable : Forall (fun d => stableImport d = true) (sf_imports sf1)).
  { subst sf1. cbn [sf_imports]. apply rewriteImports_stable. }
  unfold updateFile.
  rewrite (withoutDirectives_fixed parse sf1 Hfree), Hexports.
  rewrite (runImportLoop_on_stable _ Hstable).
  cbn [ls_decls ls_modified synthesizeImports ls_imports ls_hasCoreImport
       ls_hasRuntimeImport core runtime compat emptyImports nonEmpty negb andb app].
  rewrite app_nil_r.
  replace (mkSourceFile (sf_filePath sf1) (sf_text sf1) (sf_imports sf1) (sf_exports sf1))
    with sf1 by now destruct sf1.
  now rewrite String.eqb_refl.
Qed.

Lemma updateFile_idempotent_witness :
  updateFile parseComments legacyRouteUpdated = Ok (legacyRouteUpdated, false).
Proof.
  apply (updateFile_idempotent parseComments legacyRoute legacyRouteUpdated true);
    reflexivity.
Defined.

(** *** The runtime set *)

Lemma rewriteProperty_runtime :
  forall acc p, runtime (snd (rewriteProperty acc p)) = runtime (snd acc).
Proof.
  intros [done st] p. unfold rewriteProperty.
  destruct p as [f|name [f|t]|t]; try reflexivity.
  - destruct (isHttpMethod (fn_name f)); [|reflexivity].
    pose proof (HandlerFacts.maybePrependReqVar_runtime
                  (mkFunction (fn_kind f) (fn_name f) (fn_params f) (rewriteBody (fn_body f)))
                  st true) as H.
    unfold rewriteFunction. destruct (maybePrependReqVar _ _ _). exact H.
  - destruct (isFunctionValue f); [|reflexivity].
    pose proof (HandlerFacts.maybePrependReqVar_runtime
                  (mkFunction (fn_kind f) (fn_name f) (fn_params f) (rewriteBody (fn_body f)))
                  st true) as H.
    unfold rewriteFunction. destruct (maybePrependReqVar _ _ _). exact H.
Qed.

Lemma fold_runtime :
  forall (A B : Type) (step : B * ImportState -> A -> B * ImportState),
    (forall acc x, runtime (snd (step acc x)) = runtime (snd acc)) ->
    forall l acc, runtime (snd (fold_left step l acc)) = runtime (snd acc).
Proof.
  intros A B step Hstep. induction l as [|x l IH]; intros acc; [reflexivity|].
  cbn [fold_left]. now rewrite IH, Hstep.
Qed.

Lemma rewriteExport_runtime :
  forall name decl st, runtime (snd (rewriteExport name decl st)) = runtime st.
Proof.
  intros name decl st.
  assert (Hf : forall f inferred,
             runtime (snd (rewriteFunction f st inferred)) = runtime st).
  { intros f inferred. apply HandlerFacts.maybePrependReqVar_runtime. }
  unfold rewriteExport.
  destruct (name =? "handler").
  - destruct decl as [v [|props|t]|f|callee args|t]; try reflexivity.
    + pose proof (fold_runtime _ _ rewriteProperty rewriteProperty_runtime props ([], st)) as H.
      destruct (fold_left rewriteProperty props ([], st)). exact H.
    + specialize (Hf f false). destruct (rewriteFunction f st false). exact Hf.
  - destruct (name =? "default"); [|reflexivity].
    destruct decl as [v init|f|callee args|t]; try reflexivity.
    + specialize (Hf f false). destruct (rewriteFunction f st false). exact Hf.
    + destruct callee; try reflexivity.
      destruct args as [|[f|n] rest]; try reflexivity.
      destruct (isDefineWrapper text && isFunctionValue f); [|reflexivity].
      specialize (Hf f false). destruct (rewriteFunction f st false). exact Hf.
Qed.

(** Nothing in the handler rewrite adds a name to the runtime set: when the
    import loop starts, the set is empty. *)
Lemma rewriteExports_runtime :
  forall exports, runtime (snd (rewriteExports exports)) = [].
Proof.
  intros exports. unfold rewriteExports.
  rewrite (fold_runtime _ _ rewriteExportStep); [reflexivity|].
  intros [done st] e. unfold rewriteExportStep.
  pose proof (rewriteExport_runtime (fst e) (snd e) st) as H.
  destruct (rewriteExport (fst e) (snd e) st). exact H.
Qed.

Lemma rewriteHandlers_runtime :
  forall sf, runtime (snd (rewriteHandlers sf)) = [].
Proof.
  intros sf. unfold rewriteHandlers.
  destruct (isRouteFile sf); [apply rewriteExports_runtime | reflexivity].
Qed.



End FileFacts.

(** ** Manifest *)

Module ManifestFacts.
Import Manifest Examples StringFacts.

(** *** Objects as ordered property lists *)

Lemma lookup_set_same : forall k v o, lookup k (set k v o) = Some v.
Proof.
  induction o as [|[k' v'] o IH]; cbn.
  - now rewrite String.eqb_refl.
  - destruct (k =? k') eqn:E; cbn; rewrite E; [reflexivity | exact IH].
Qed.

Lemma lookup_set_other :
  forall k k' v o, (k =? k') = false -> lookup k (set k' v o) = lookup k o.
Proof.
  intros k k' v o Hk. induction o as [|[k2 v2] o IH]; cbn.
  - now rewrite Hk.
  - destruct (k' =? k2) eqn:E; cbn; [|now rewrite IH].
    apply String.eqb_eq in E. subst k2. now rewrite Hk.
Qed.

Lemma lookup_del_same : forall k o, lookup k (del k o) = None.
Proof.
  induction o as [|[k' v'] o IH]; cbn; [reflexivity|].
  destruct (k =? k') eqn:E; cbn; [exact IH | now rewrite E].
Qed.

Lemma lookup_del_other :
  forall k k' o, (k =? k') = false -> lookup k (del k' o) = lookup k o.
Proof.
  intros k k' o Hk. unfold del. induction o as [|[k2 v2] o IH]; cbn; [reflexivity|].
  destruct (k' =? k2) eqn:E; cbn.
  - apply String.eqb_eq in E. subst k2. now rewrite Hk.
  - now rewrite IH.
Qed.

(** Writing the value a property already has changes nothing. *)
Lemma set_same : forall k v o, lookup k o = Some v -> set k v o = o.
Proof.
  induction o as [|[k' v'] o IH]; cbn; [discriminate|].
  destruct (k =? k') eqn:E; intros H.
  - now injection H as ->.
  - now rewrite IH.
Qed.

(** Deleting a property that is not there changes nothing. *)
Lemma del_absent : forall k o, lookup k o = None -> del k o = o.
Proof.
  unfold del. induction o as [|[k' v'] o IH]; cbn; [reflexivity|].
  destruct (k =? k') eqn:E; intros H; [discriminate H|].
  cbn. now rewrite IH.
Qed.

Create Rewrite HintDb objects.
#[local] Hint Rewrite lookup_set_same lookup_del_same : objects.
#[local] Hint Rewrite lookup_set_other lookup_del_other using reflexivity : objects.

(** *** The edit script is idempotent *)

Lemma editImports_idempotent :
  forall imports, editImports (editImports imports) = editImports imports.
Proof.
  intros imports. unfold editImports at 1.
  set (r := editImports imports).
  assert (H1 : lookup "fresh" r = Some (JString ("jsr:@fresh/core@^" ++ FRESH_VERSION)))
    by (subst r; unfold editImports; now autorewrite with objects).
  rewrite (set_same _ _ _ H1).
  assert (H2 : lookup "preact" r = Some (JString ("npm:preact@^" ++ PREACT_VERSION)))
    by (subst r; unfold editImports; now autorewrite with objects).
  rewrite (set_same _ _ _ H2).
  assert (H3 : lookup "@preact/signals" r
               = Some (JString ("npm:@preact/signals@^" ++ PREACT_SIGNALS_VERSION)))
    by (subst r; unfold editImports; now autorewrite with objects).
  rewrite (set_same _ _ _ H3).
  assert (H4 : lookup "$fresh/" r = None)
    by (subst r; unfold editImports; now autorewrite with objects).
  rewrite (del_absent _ _ H4).
  assert (H5 : lookup "@preact/signals-core" r = None)
    by (subst r; unfold editImports; now autorewrite with objects).
  rewrite (del_absent _ _ H5).
  assert (H6 : lookup "preact-render-to-string" r = None)
    by (subst r; unfold editImports; now autorewrite with objects).
  now rewrite (del_absent _ _ H6).
Qed.

Lemma taskIs_del_same : forall k s o, taskIs k s (del k o) = false.
Proof. intros. unfold taskIs. now rewrite lookup_del_same. Qed.

Lemma taskIs_del_other :
  forall k k' s o, (k =? k') = false -> taskIs k s (del k' o) = taskIs k s o.
Proof. intros. unfold taskIs. now rewrite lookup_del_other. Qed.

Lemma taskIs_set_same :
  forall k s s' o, taskIs k s (set k (JString s') o) = (s' =? s).
Proof. intros. unfold taskIs. now rewrite lookup_set_same. Qed.

Lemma taskIs_set_other :
  forall k k' s v o, (k =? k') = false -> taskIs k s (set k' v o) = taskIs k s o.
Proof. intros. unfold taskIs. now rewrite lookup_set_other. Qed.

#[local] Hint Rewrite taskIs_del_same taskIs_set_same : objects.
#[local] Hint Rewrite taskIs_del_other taskIs_set_other using reflexivity : objects.

(** After the task rules ran, none of the legacy task strings is left. *)
Ltac settle_tasks :=
  unfold editTasks; cbv zeta;
  repeat match goal with
         | |- context [if ?c then _ else _] => destruct c eqn:?
         end;
  repeat match goal with
         | H : (_ || _) = false |- _ => apply Bool.orb_false_elim in H; destruct H
         end;
  autorewrite with objects in *;
  try assumption; try reflexivity.

Lemma editTasks_no_manifest :
  forall t, taskIs "manifest" "deno task cli manifest $(pwd)" (editTasks t) = false.
Proof. intros t. settle_tasks. Qed.

Lemma editTasks_no_cli :
  forall t,
    taskIs "cli" cliTask1 (editTasks t) || taskIs "cli" cliTask2 (editTasks t) = false.
Proof. intros t. apply Bool.orb_false_intro; settle_tasks. Qed.

Lemma editTasks_no_update :
  forall t,
    taskIs "update" "deno run -A -r https://fresh.deno.dev/update ." (editTasks t) = false.
Proof. intros t. settle_tasks. Qed.

Lemma editTasks_no_check :
  forall t,
    taskIs "check"
      "deno fmt --check && deno lint && deno check **/*.ts && deno check **/*.tsx"
      (editTasks t) = false.
Proof. intros t. settle_tasks. Qed.

Lemma editTasks_idempotent :
  forall tasks, editTasks (editTasks tasks) = editTasks tasks.
Proof.
  intros tasks. unfold editTasks at 1. cbv zeta.
  rewrite editTasks_no_manifest, editTasks_no_cli, editTasks_no_update,
    editTasks_no_check.
  reflexivity.
Qed.

(** *** Removing undefined keys *)

Lemma lookup_absent : forall k o, ~ In k (map fst o) -> lookup k o = None.
Proof.
  induction o as [|[k' v'] o IH]; cbn; intros H; [reflexivity|].
  destruct (k =? k') eqn:E.
  - apply String.eqb_eq in E. subst. exfalso. apply H. now left.
  - apply IH. intros Hin. apply H. now right.
Qed.

Lemma keys_filter :
  forall f (o : Obj) k, In k (map fst (filter f o)) -> In k (map fst o).
Proof.
  intros f o k H. apply in_map_iff in H as (kv & <- & Hin).
  apply filter_In in Hin as [Hin _]. now apply in_map.
Qed.

Lemma filter_keys_unique :
  forall f (o : Obj), NoDup (map fst o) -> NoDup (map fst (filter f o)).
Proof.
  induction o as [|kv o IH]; cbn; intros H; [constructor|].
  inversion H as [|x l Hnotin Hnd Heq]; subst.
  destruct (f kv); cbn; [constructor|]; auto.
  intros Hin. apply Hnotin. eapply keys_filter, Hin.
Qed.

Lemma keys_set :
  forall k v o x, In x (map fst (set k v o)) -> x = k \/ In x (map fst o).
Proof.
  induction o as [|[k' v'] o IH]; cbn; intros x H.
  - destruct H as [<- | []]. now left.
  - destruct (k =? k') eqn:E; cbn in H.
    + right. exact H.
    + destruct H as [<- | H]; [right; now left|].
      destruct (IH _ H); [now left | right; now right].
Qed.

Lemma set_keys_unique :
  forall k v o, NoDup (map fst o) -> NoDup (map fst (set k v o)).
Proof.
  induction o as [|[k' v'] o IH]; cbn; intros H.
  - repeat constructor. intros [].
  - inversion H as [|x l Hnotin Hnd Heq]; subst.
    destruct (k =? k') eqn:E; cbn; constructor; auto.
    intros Hin. apply keys_set in Hin as [-> | Hin]; [|contradiction].
    rewrite String.eqb_refl in E. discriminate E.
Qed.

Lemma lookup_cleanup_defined :
  forall k v o,
    lookup k o = Some v -> v <> JUndefined -> lookup k (filter isDefined o) = Some v.
Proof.
  induction o as [|[k' v'] o IH]; cbn; intros H Hv; [discriminate H|].
  destruct (k =? k') eqn:E.
  - injection H as ->. unfold isDefined at 1. cbn.
    destruct v; try contradiction; cbn; now rewrite E.
  - unfold isDefined at 1. cbn. destruct v'; cbn; rewrite ?E; now apply IH.
Qed.

Lemma lookup_cleanup_none :
  forall k o, lookup k o = None -> lookup k (filter isDefined o) = None.
Proof.
  induction o as [|[k' v'] o IH]; cbn; intros H; [reflexivity|].
  destruct (k =? k') eqn:E; [discriminate H|].
  unfold isDefined at 1. cbn. destruct v'; cbn; rewrite ?E; now apply IH.
Qed.

Lemma lookup_cleanup_undefined :
  forall k o,
    NoDup (map fst o) -> lookup k o = Some JUndefined ->
    lookup k (filter isDefined o) = None.
Proof.
  induction o as [|[k' v'] o IH]; cbn; intros Hnd H; [discriminate H|].
  inversion Hnd as [|x l Hnotin Hnd' Heq]; subst.
  destruct (k =? k') eqn:E.
  - injection H as ->. apply String.eqb_eq in E. subst k'.
    unfold isDefined at 1. cbn. apply lookup_absent.
    intros Hin. apply Hnotin. eapply keys_filter, Hin.
  - unfold isDefined at 1. cbn. destruct v'; cbn; rewrite ?E; now apply IH.
Qed.

(** *** The callback reaches a fixed point *)

(** On a configuration whose [imports] and [tasks] are settled and that has
    no [lock], the callback changes nothing. *)
Lemma editConfig_settled :
  forall config,
    settledImports (lookup "imports" config) ->
    lookup "lock" config = None ->
    settledTasks (lookup "tasks" config) ->
    editConfig config = Ok config.
Proof.
  intros config Hi Hl Ht. unfold editConfig.
  destruct (lookup "imports" config) as [[| | | | |items|imports]|] eqn:Ei;
    cbn in Hi; try contradiction; rewrite Ei.
  - rewrite (del_absent _ _ Hl).
    destruct (lookup "tasks" config) as [[| | | | | |tasks]|] eqn:Et;
      cbn in Ht; try contradiction; try reflexivity.
    rewrite Ht, (set_same _ _ _ Et). reflexivity.
  - rewrite Hi, (set_same _ _ _ Ei), (del_absent _ _ Hl).
    destruct (lookup "tasks" config) as [[| | | | | |tasks]|] eqn:Et;
      cbn in Ht; try contradiction; try reflexivity.
    rewrite Ht, (set_same _ _ _ Et). reflexivity.
Qed.

(** What the callback leaves behind. *)
Lemma editConfig_result :
  forall config config1,
    editConfig config = Ok config1 ->
    settledImports (lookup "imports" config1)
    /\ lookup "lock" config1 = None
    /\ settledTasks (lookup "tasks" config1)
    /\ (NoDup (map fst config) -> NoDup (map fst config1)).
Proof.
  intros config config1. unfold editConfig.
  set (c1 := match lookup "imports" config with
             | Some JNull | Some (JObject _) | Some (JArray _) => config
             | _ => set "imports" (JObject []) config
             end).
  assert (Hu : NoDup (map fst config) -> NoDup (map fst c1)).
  { intros Hnd. subst c1.
    destruct (lookup "imports" config) as [[]|]; auto using set_keys_unique. }
  assert (Hc1 : lookup "imports" c1 = Some JNull
                \/ (exists items, lookup "imports" c1 = Some (JArray items))
                \/ (exists imports, lookup "imports" c1 = Some (JObject imports))).
  { subst c1. destruct (lookup "imports" config) as [[]|] eqn:Ei;
      rewrite ?lookup_set_same; eauto. }
  destruct Hc1 as [E | [[items E] | [imports E]]]; rewrite E; [discriminate| |].
  - set (c3 := del "lock" c1).
    assert (Hi : lookup "imports" c3 = Some (JArray items))
      by (subst c3; now autorewrite with objects).
    assert (Hl : lookup "lock" c3 = None) by (subst c3; now autorewrite with objects).
    assert (Hu3 : NoDup (map fst config) -> NoDup (map fst c3))
      by (intros Hnd; subst c3; now apply filter_keys_unique, Hu).
    destruct (lookup "tasks" c3) as [[| | | | | |tasks]|] eqn:Et;
      intros H; try discriminate H; injection H as <-;
      autorewrite with objects; rewrite ?Hi, ?Hl, ?Et; cbn;
      repeat split; auto using editTasks_idempotent, set_keys_unique.
  - set (c3 := del "lock" (set "imports" (JObject (editImports imports)) c1)).
    assert (Hi : lookup "imports" c3 = Some (JObject (editImports imports)))
      by (subst c3; now autorewrite with objects).
    assert (Hl : lookup "lock" c3 = None) by (subst c3; now autorewrite with objects).
    assert (Hu3 : NoDup (map fst config) -> NoDup (map fst c3))
      by (intros Hnd; subst c3; now apply filter_keys_unique, set_keys_unique, Hu).
    destruct (lookup "tasks" c3) as [[| | | | | |tasks]|] eqn:Et;
      intros H; try discriminate H; injection H as <-;
      autorewrite with objects; rewrite ?Hi, ?Hl, ?Et; cbn;
      repeat split;
      auto using editTasks_idempotent, editImports_idempotent, set_keys_unique.
Qed.

Lemma filter_twice :
  forall (f : string * Json -> bool) o, filter f (filter f o) = filter f o.
Proof.
  induction o as [|kv o IH]; cbn; [reflexivity|].
  destruct (f kv) eqn:E; cbn; rewrite ?E, IH; reflexivity.
Qed.

(** The document a run serialises is left as it is by a further run. *)
Lemma applyEdit_fixed_point :
  forall json json1,
    uniqueKeys json ->
    applyEdit json = Ok json1 ->
    applyEdit (removeUndefinedKeys json1) = Ok (removeUndefinedKeys json1)
    /\ removeUndefinedKeys (removeUndefinedKeys json1) = removeUndefinedKeys json1.
Proof.
  intros json json1 Hu H.
  destruct json as [| | | | |items|config]; try discriminate H.
  - injection H as <-. split; reflexivity.
  - cbn in H, Hu. destruct (editConfig config) as [config1|] eqn:E; [|discriminate H].
    injection H as <-.
    destruct (editConfig_result _ _ E) as (Hi & Hl & Ht & Hk).
    specialize (Hk Hu).
    change (removeUndefinedKeys (JObject config1))
      with (JObject (filter isDefined config1)).
    split.
    + cbn [applyEdit]. rewrite editConfig_settled; [reflexivity | | |].
      * destruct (lookup "imports" config1) as [[| | | | |items|imports]|] eqn:Ei;
          cbn in Hi; try contradiction;
          erewrite lookup_cleanup_defined by (eauto; discriminate); exact Hi.
      * now apply lookup_cleanup_none.
      * destruct (lookup "tasks" config1) as [[| | | | | |tasks]|] eqn:Et;
          cbn in Ht; try contradiction;
          try (erewrite lookup_cleanup_defined by (eauto; discriminate); exact Ht).
        -- now rewrite lookup_cleanup_undefined.
        -- now rewrite lookup_cleanup_none.
    + cbn [removeUndefinedKeys]. now rewrite filter_twice.
Qed.

(** *** Serialised text and [trim] *)

Lemma trimEnd_line :
  forall s d, isWhiteSpace d = false -> trimEnd (s ++ String d nl) = s ++ String d EmptyString.
Proof.
  intros s d Hd. induction s as [|x s IH].
  - cbn. now rewrite Hd.
  - cbn [append trimEnd]. rewrite IH. destruct s; reflexivity.
Qed.

Lemma trim_line :
  forall c mid d,
    isWhiteSpace c = false -> isWhiteSpace d = false ->
    trim (String c (mid ++ String d EmptyString) ++ nl) = String c (mid ++ String d EmptyString).
Proof.
  intros c mid d Hc Hd. unfold trim. cbn [append trimStart]. rewrite Hc.
  change (String c ((mid ++ String d EmptyString) ++ nl))
    with (String c EmptyString ++ ((mid ++ String d EmptyString) ++ nl)).
  rewrite append_assoc, <- (append_assoc (String c EmptyString)).
  change (String d EmptyString ++ nl) with (String d nl).
  now rewrite trimEnd_line.
Qed.

(** The text of an object or an array starts and ends with a bracket. *)
Lemma stringify_brackets :
  forall json,
    match json with JObject _ | JArray _ => True | _ => False end ->
    exists c mid d,
      stringify json = String c (mid ++ String d EmptyString)
      /\ isWhiteSpace c = false /\ isWhiteSpace d = false.
Proof.
  intros json H. unfold stringify.
  destruct json as [| | | | |items|members]; try contradiction; cbn [stringifyAt].
  - match goal with |- context [match ?l with [] => _ | _ => _ end] => destruct l as [|ln lns] end.
    + exists "["%char, EmptyString, "]"%char. repeat split.
    + eexists "["%char, _, "]"%char. split; [|split; reflexivity].
      cbn [append]. f_equal. rewrite <- !append_assoc. reflexivity.
  - match goal with |- context [match ?l with [] => _ | _ => _ end] => destruct l as [|ln lns] end.
    + exists "{"%char, EmptyString, "}"%char. repeat split.
    + eexists "{"%char, _, "}"%char. split; [|split; reflexivity].
      cbn [append]. f_equal. rewrite <- !append_assoc. reflexivity.
Qed.

Lemma trim_stringify :
  forall json json1,
    applyEdit json = Ok json1 ->
    trim (stringify (removeUndefinedKeys json1) ++ nl)
      = stringify (removeUndefinedKeys json1).
Proof.
  intros json json1 H.
  destruct (stringify_brackets (removeUndefinedKeys json1)) as (c & mid & d & E & Hc & Hd).
  - destruct json; try discriminate H; cbn in H.
    + now injection H as <-.
    + destruct (editConfig members); [now injection H as <- | discriminate H].
  - rewrite E. now apply trim_line.
Qed.

Lemma manifest_paths_differ :
  forall dir, (dir ++ "/deno.json" =? dir ++ "/deno.jsonc") = false.
Proof.
  induction dir as [|x dir IH]; [reflexivity|].
  cbn [append]. cbn. now rewrite Ascii.eqb_refl.
Qed.

(** *** Running the manifest update twice *)

Section SecondRun.

Variable parse : string -> option Json.
Hypothesis parse_unique : forall content json, parse content = Some json -> uniqueKeys json.

(** One run on the manifest at [jsonPath], then a second run on what the
    first left there. *)
Lemma updateAt_twice :
  forall fs jsonPath content fs1 r1 doc,
    fs jsonPath = Some content ->
    editedDocument parse content = Some doc ->
    parse (stringify doc ++ nl) = Some doc ->
    updateAt parse fs jsonPath content applyEdit = Ok (fs1, r1) ->
    exists content1,
      fs1 jsonPath = Some content1
      /\ path r1 = Some jsonPath
      /\ (forall q, (q =? jsonPath) = false -> fs1 q = fs q)
      /\ updateAt parse fs1 jsonPath content1 applyEdit
           = Ok (fs1, mkUpdateResult false (Some jsonPath))
      /\ editedDocument parse content1 = Some doc
      /\ stringify doc = trim content1.
Proof.
  intros fs jsonPath content fs1 r1 doc Hfs Hdoc Hround.
  unfold editedDocument in Hdoc. unfold updateAt.
  destruct (parse content) as [json|] eqn:Ep; [|discriminate Hdoc].
  destruct (applyEdit json) as [json1|] eqn:Ea; [|discriminate Hdoc].
  injection Hdoc as <-.
  pose proof (parse_unique _ _ Ep) as Hu.
  destruct (applyEdit_fixed_point _ _ Hu Ea) as [Hfix Hclean].
  pose proof (trim_stringify _ _ Ea) as Htrim.
  destruct (stringify (removeUndefinedKeys json1) =? trim content) eqn:Eq; cbn [negb];
    intros H; injection H as <- <-.
  - (* nothing was written: the second run reads the same content *)
    exists content. rewrite Ep, Ea, Eq. cbn [negb].
    apply String.eqb_eq in Eq.
    unfold editedDocument. rewrite Ep, Ea. repeat split; auto.
  - (* the serialised document was written *)
    exists (stringify (removeUndefinedKeys json1) ++ nl).
    unfold editedDocument. rewrite Hround, Hfix, Hclean, Htrim, String.eqb_refl.
    cbn [negb path]. unfold writeTextFile. rewrite String.eqb_refl.
    repeat split; auto.
    intros q Hq. now rewrite Hq.
Qed.

End SecondRun.

(** C8: a second run of the manifest update on what the first run left
    serialises the same document, finds its text equal to the trimmed file
    content, writes nothing and reports [updated = false].  The parser is
    taken to build objects with unique keys and to read back the document
    that was serialised. *)
Theorem manifest_update_is_idempotent :
  forall (parse : string -> option Json) (fs fs1 : FileSystem) (dir : string)
         (r1 : UpdateResult),
    (forall content json, parse content = Some json -> uniqueKeys json) ->
    (forall p content doc,
        readManifest fs dir = Some (p, content) ->
        editedDocument parse content = Some doc ->
        parse (stringify doc ++ nl) = Some doc) ->
    updateConfig parse fs dir = Ok (fs1, r1) ->
    updateConfig parse fs1 dir = Ok (fs1, mkUpdateResult false (path r1))
    /\ (forall p content doc,
          readManifest fs dir = Some (p, content) ->
          editedDocument parse content = Some doc ->
          exists content1,
            readManifest fs1 dir = Some (p, content1)
            /\ editedDocument parse content1 = Some doc
            /\ stringify doc = trim content1).
Proof.
  intros parse fs fs1 dir r1 Hu Hround.
  unfold updateConfig, updateDenoJson, readManifest in *.
  destruct (fs (dir ++ "/deno.json")) as [content|] eqn:E1.
  - intros H.
    assert (Hdoc : exists doc, editedDocument parse content = Some doc).
    { unfold updateAt in H. unfold editedDocument.
      destruct (parse content); [|discriminate H].
      destruct (applyEdit _); [eauto | discriminate H]. }
    destruct Hdoc as [doc Hdoc].
    destruct (updateAt_twice parse Hu fs _ content fs1 r1 doc E1 Hdoc
                (Hround _ _ _ eq_refl Hdoc) H)
      as (content1 & Hf1 & Hp & _ & Hsecond & Hdoc1 & Htext).
    rewrite Hf1, Hp. split; [exact Hsecond|].
    intros p c d Hpc Hd. injection Hpc as <- <-.
    rewrite Hdoc in Hd. injection Hd as <-. eauto.
  - destruct (fs (dir ++ "/deno.jsonc")) as [content|] eqn:E2.
    + intros H.
      assert (Hdoc : exists doc, editedDocument parse content = Some doc).
      { unfold updateAt in H. unfold editedDocument.
        destruct (parse content); [|discriminate H].
        destruct (applyEdit _); [eauto | discriminate H]. }
      destruct Hdoc as [doc Hdoc].
      destruct (updateAt_twice parse Hu fs _ content fs1 r1 doc E2 Hdoc
                  (Hround _ _ _ eq_refl Hdoc) H)
        as (content1 & Hf1 & Hp & Hother & Hsecond & Hdoc1 & Htext).
      rewrite (Hother _ (manifest_paths_differ dir)), E1, Hf1, Hp.
      split; [exact Hsecond|].
      intros p c d Hpc Hd. injection Hpc as <- <-.
      rewrite Hdoc in Hd. injection Hd as <-. eauto.
    + intros H. injection H as <- <-. rewrite E1, E2. split; [reflexivity|].
      intros p c d Hpc. discriminate Hpc.
Qed.

Lemma manifest_update_is_idempotent_witness :
  updateConfig parseExample
    (writeTextFile legacyProject "/app/deno.json" (stringify updatedManifest ++ nl)) "/app"
  = Ok (writeTextFile legacyProject "/app/deno.json" (stringify updatedManifest ++ nl),
        mkUpdateResult false (Some "/app/deno.json")).
Proof.
  refine (proj1 (manifest_update_is_idempotent parseExample legacyProject
                   (writeTextFile legacyProject "/app/deno.json"
                      (stringify updatedManifest ++ nl))
                   "/app" (mkUpdateResult true (Some "/app/deno.json")) _ _ _)).
  - intros content json. unfold parseExample.
    destruct (content =? legacyManifestText).
    + intros H. injection H as <-. cbn. repeat constructor. intros [].
    + destruct (content =? stringify updatedManifest ++ nl); intros H; [|discriminate H].
      injection H as <-. cbn. repeat constructor. intros [].
  - intros p content doc Hm. vm_compute in Hm. injection Hm as <- <-.
    intros Hd. vm_compute in Hd. injection Hd as <-. vm_compute. reflexivity.
  - vm_compute. reflexivity.
Defined.

End ManifestFacts.

(** ** Directive stripping *)

Module TextFacts.
Import Text File Examples.

Lemma prefix_append : forall p s, String.prefix p (p ++ s) = true.
Proof.
  induction p as [|c p IH]; intros s; cbn; [now destruct s|].
  destruct (ascii_dec c c); [apply IH | contradiction].
Qed.

Lemma removeFrom_skip :
  forall pat p s, removeFrom pat (String.length p) (p ++ s) = removeFrom pat 0 s.
Proof.
  intros pat. induction p as [|c p IH]; intros s; cbn [String.length append].
  - reflexivity.
  - cbn [removeFrom]. apply IH.
Qed.

(** An occurrence at the very start is dropped and the scan goes on after it. *)
Lemma removeAll_leading :
  forall pat s,
    Nat.ltb 0 (String.length pat) = true ->
    removeAll pat (pat ++ s) = removeAll pat s.
Proof.
  intros [|c p] s H; [discriminate H|]. unfold removeAll.
  change (String c p ++ s) with (String c (p ++ s)).
  cbn [removeFrom].
  change (String c (p ++ s)) with (String c p ++ s).
  rewrite prefix_append. cbn [String.length Nat.sub]. rewrite Nat.sub_0_r.
  apply removeFrom_skip.
Qed.

(** X1: a text that holds none of the seven directive lines comes out of the
    text-level step as it went in. *)
Theorem text_without_directives_is_kept :
  forall text, directiveFree text = true -> stripDirectives text = text.
Proof.
  intros text H. unfold stripDirectives, directiveFree in *.
  revert text H. generalize directives.
  induction l as [|pat pats IH]; intros text H; [reflexivity|].
  cbn [forallb] in H. apply Bool.andb_true_iff in H as [Hp Hrest].
  apply Bool.negb_true_iff in Hp. cbn [fold_left].
  assert (Hsame : removeAll pat text = text).
  { clear IH Hrest. unfold removeAll. induction text as [|c text IHt]; [reflexivity|].
    cbn [includes] in Hp. apply Bool.orb_false_elim in Hp as [Hpre Hin].
    cbn [removeFrom]. rewrite Hpre. now rewrite IHt. }
  rewrite Hsame. now apply IH.
Qed.

Lemma text_without_directives_is_kept_witness :
  stripDirectives "export default 1;" = "export default 1;".
Proof.
  apply (text_without_directives_is_kept "export default 1;"). vm_compute. reflexivity.
Defined.

(** X2: a directive line at the start of a text is removed: the text-level
    step gives for [d ++ rest] what it gives for [rest], for each of the
    seven directive lines [d]. *)
Theorem leading_directive_is_removed :
  forall d rest, In d directives -> stripDirectives (d ++ rest) = stripDirectives rest.
Proof.
  intros d rest H. unfold stripDirectives, directives in *.
  cbn [fold_left].
  repeat (destruct H as [<- | H]); [ .. | destruct H].
  all: repeat match goal with
         | |- context [removeAll ?p (?x ++ ?r)] =>
             first
               [ rewrite (removeAll_leading p r) by reflexivity
               | replace (removeAll p (x ++ r)) with (x ++ removeAll p r)
                   by (vm_compute; reflexivity) ]
         end.
  all: reflexivity.
Qed.

Lemma leading_directive_is_removed_witness :
  stripDirectives (("/** @jsx h */" ++ nl) ++ "import { h } from 'preact';")
    = stripDirectives "import { h } from 'preact';".
Proof.
  apply (leading_directive_is_removed ("/** @jsx h */" ++ nl)). cbn. now left.
Defined.

End TextFacts.

(** ** The walk over a handler body *)

Module WalkFacts.
Import Ast Handler Examples AstFacts.

(** X3: a chain that holds neither [ctx.remoteAddr] nor an access named
    [renderNotFound] passes through the member-access rewriter unchanged, and
    no argument is added to an enclosing call. *)
Theorem other_member_names_pass_through :
  forall n parentIsCall,
    pending n = false -> rewriteCtxMemberName parentIsCall n = (n, false).
Proof. intros n b H. now apply rewriteCtxMemberName_settled. Qed.

Lemma other_member_names_pass_through_witness :
  rewriteCtxMemberName true ctx_state_user = (ctx_state_user, false).
Proof. apply (other_member_names_pass_through ctx_state_user true). reflexivity. Defined.

(** An argument is added only by the branch that renames the callee. *)
Lemma rewriteCtxMemberName_flagged :
  forall n,
    snd (rewriteCtxMemberName true n) = true ->
    exists r, fst (rewriteCtxMemberName true n) = PropertyAccessExpression r "throw".
Proof.
  intros n. destruct n as [ | | e name | | | | | | | | | | ]; try discriminate.
  rewrite rewriteCtxMemberName_unfold.
  destruct ((getText e =? "ctx") && (name =? "remoteAddr")); [discriminate|].
  destruct (name =? "renderNotFound"); [intros _; now exists e|].
  destruct (isAccess e); discriminate.
Qed.

Lemma rewriteCtxMemberName_throw :
  forall r b,
    snd (rewriteCtxMemberName b (PropertyAccessExpression r "throw")) = false
    /\ exists r', fst (rewriteCtxMemberName b (PropertyAccessExpression r "throw"))
                  = PropertyAccessExpression r' "throw".
Proof.
  intros r b. rewrite rewriteCtxMemberName_unfold.
  replace ("throw" =? "remoteAddr") with false by reflexivity.
  rewrite Bool.andb_false_r.
  replace ("throw" =? "renderNotFound") with false by reflexivity.
  destruct (isAccess r); cbn [fst snd]; split; eauto.
Qed.

Lemma rewriteNode_statement :
  forall x, rewriteNode (ExpressionStatement x) = ExpressionStatement (rewriteNode x).
Proof. reflexivity. Qed.

(** X4: the arguments of a call are rewritten only inside the functions
    they hold.  When no argument holds a function, a call statement comes out
    of the loop, however often it is visited, with the arguments it had,
    whatever they read, followed by at most one appended [404]. *)
Theorem arguments_without_functions_are_kept :
  forall (visits : nat) (e : Node) (args : list Node),
    existsb holdsStatements args = false ->
    exists e' extra,
      rewriteEntry visits (ExpressionStatement (CallExpression e args))
        = ExpressionStatement (CallExpression e' (args ++ extra)%list)
      /\ (extra = [] \/ extra = [lit404]).
Proof.
  intros visits e args Hargs.
  unfold rewriteEntry.
  change (visitsInside visits (ExpressionStatement (CallExpression e args))) with visits.
  change (mapChildren (rewriteDescendants visits)
            (ExpressionStatement (CallExpression e args)))
    with (ExpressionStatement
            (CallExpression (rewriteDescendants visits e)
               (map (rewriteDescendants visits) args))).
  replace (map (rewriteDescendants visits) args) with args.
  2:{ symmetry. apply map_fixed.
      eapply Forall_impl; [|exact (existsb_false_Forall _ _ _ Hargs)].
      intros a Ha. now apply rewriteDescendants_without_statements. }
  set (e0 := rewriteDescendants visits e). clearbody e0. clear e. rename e0 into e.
  assert (Hinv : exists e',
             Nat.iter visits rewriteNode (ExpressionStatement (CallExpression e args))
               = ExpressionStatement (CallExpression e' args)
             \/ exists r,
                  Nat.iter visits rewriteNode (ExpressionStatement (CallExpression e args))
                    = ExpressionStatement
                        (CallExpression (PropertyAccessExpression r "throw")
                           (args ++ [lit404])%list)).
  { induction visits as [|v IH]; [exists e; now left|].
    change (Nat.iter (S v) rewriteNode (ExpressionStatement (CallExpression e args)))
      with (rewriteNode
              (Nat.iter v rewriteNode (ExpressionStatement (CallExpression e args)))).
    destruct IH as (e1 & [-> | (r & ->)]);
      rewrite rewriteNode_statement, rewriteNode_of_call.
    - destruct (isAccess e1); [|eexists; now left].
      destruct (snd (rewriteCtxMemberName true e1)) eqn:Ef; [|eexists; now left].
      destruct (rewriteCtxMemberName_flagged e1 Ef) as (r & ->).
      exists e1. right. now exists r.
    - cbn [isAccess].
      destruct (rewriteCtxMemberName_throw r true) as (-> & r' & ->).
      exists e. right. now exists r'. }
  destruct Hinv as (e' & [-> | (r & ->)]).
  - exists e', []. rewrite app_nil_r. auto.
  - exists (PropertyAccessExpression r "throw"), [lit404]. auto.
Qed.

Lemma arguments_without_functions_are_kept_witness :
  exists e' extra,
    rewriteEntry 1 logRemoteAddr
      = ExpressionStatement (CallExpression e' ([ctx_remoteAddr] ++ extra)%list)
    /\ (extra = [] \/ extra = [lit404]).
Proof.
  apply (arguments_without_functions_are_kept 1
           (PropertyAccessExpression (Identifier "console") "log") [ctx_remoteAddr]).
  reflexivity.
Defined.

(** X5: when one visit finds nothing to rewrite in any entry of
    [body.getDescendantStatements()], the loop leaves the body as it is,
    however deep its statements and functions nest and however often they
    are visited. *)
Theorem body_without_legacy_access_is_kept :
  forall ss,
    forallb untouched (getDescendantStatements (Block ss)) = true ->
    rewriteCtxMethods ss = ss.
Proof.
  intros ss H. apply rewriteCtxMethods_fixed.
  apply Forall_forall. intros d Hd. apply untouched_rewriteNode.
  rewrite forallb_forall in H. now apply H.
Qed.

Lemma body_without_legacy_access_is_kept_witness :
  rewriteCtxMethods [constDecl "req" ctx_req; ifBodyUsed]
    = [constDecl "req" ctx_req; ifBodyUsed].
Proof.
  apply (body_without_legacy_access_is_kept [constDecl "req" ctx_req; ifBodyUsed]).
  reflexivity.
Defined.

End WalkFacts.

(** ** More on the parameter normaliser *)

Module NormaliserFacts.
Import Ast Handler Examples StringFacts HandlerFacts.

(** X6: for a block-bodied handler [(p0, x) => {...}] whose second parameter
    is a plain identifier and whose first parameter does not start with an
    underscore, the first parameter is removed and a constant named after it,
    initialised with [ctx.req], becomes the first statement; the initialiser
    is [ctx.req] whatever the second parameter is called.  A [RouteContext]
    annotation of the second parameter becomes [FreshContext], which is then
    registered in the core set; any other annotation is kept. *)
Theorem request_parameter_becomes_a_constant :
  forall (method : FunctionLike) (p0 p1 : Param) (x : string) (ss : list Node)
         (newImports : ImportState) (hasInferredTypes : bool),
    fn_params method = [p0; p1] ->
    p_name p1 = IdentifierName x ->
    startsWith (getName p0) "_" = false ->
    fn_body method = BlockBody ss ->
    let routeContext :=
      match p_type p1 with Some ty => ty =? "RouteContext" | None => false end in
    maybePrependReqVar method newImports hasInferredTypes
      = (mkFunction (fn_kind method) (fn_name method)
           [mkParam (IdentifierName x)
              (if routeContext then Some "FreshContext" else p_type p1)]
           (BlockBody (constDecl (getName p0) ctx_req :: ss)),
         if routeContext then addCore "FreshContext" newImports else newImports).
Proof.
  intros method p0 p1 x ss st inferred Hp Hn Hu Hb routeContext.
  unfold maybePrependReqVar, rewriteParams. rewrite Hp, Hn, Hu, Hb.
  subst routeContext. cbn.
  destruct (p_type p1) as [ty|] eqn:Ht; [destruct (ty =? "RouteContext")|];
    cbn; rewrite ?Hn, ?Ht; destruct (fn_kind method); try reflexivity;
    destruct p1 as [n1 t1]; cbn in *; subst; reflexivity.
Qed.

Lemma request_parameter_becomes_a_constant_witness :
  maybePrependReqVar reqCtxHandler emptyImports false
    = (mkFunction ArrowFunction EmptyString
         [mkParam (IdentifierName "ctx") (Some "FreshContext")]
         (BlockBody [constDecl "req" ctx_req; returnResponse]),
       addCore "FreshContext" emptyImports).
Proof.
  apply (request_parameter_becomes_a_constant reqCtxHandler
           (mkParam (IdentifierName "req") None)
           (mkParam (IdentifierName "ctx") (Some "RouteContext"))
           "ctx" [returnResponse] emptyImports false);
    reflexivity.
Defined.

(** X7: when the first parameter starts with an underscore, no constant
    initialised with [ctx.req] is inserted: the body is unchanged, or gets
    only [const remoteAddr = info.remoteAddr] in front. *)
Theorem underscore_parameter_gets_no_constant :
  forall (method : FunctionLike) (p0 : Param) (rest : list Param)
         (newImports : ImportState) (hasInferredTypes : bool),
    fn_params method = p0 :: rest ->
    startsWith (getName p0) "_" = true ->
    let out := fst (maybePrependReqVar method newImports hasInferredTypes) in
    fn_body out = fn_body method
    \/ fn_body out
       = insertVariableStatement0 (constDecl "remoteAddr" info_remoteAddr) (fn_body method).
Proof.
  intros method p0 rest st inferred Hp Hu out. subst out.
  unfold maybePrependReqVar. rewrite Hp, Hu.
  destruct (rewriteParams _ _ _) as [params1 imports1].
  rewrite Bool.andb_false_r.
  repeat match goal with
         | |- context [if ?c then _ else _] => destruct c
         | |- context [match ?x with _ => _ end] => destruct x
         end; cbn [fst fn_body]; auto.
Qed.

Lemma underscore_parameter_gets_no_constant_witness :
  fn_body (fst (maybePrependReqVar unusedReqCtxHandler emptyImports false))
    = BlockBody [returnResponse]
  \/ fn_body (fst (maybePrependReqVar unusedReqCtxHandler emptyImports false))
     = insertVariableStatement0 (constDecl "remoteAddr" info_remoteAddr)
         (BlockBody [returnResponse]).
Proof.
  apply (underscore_parameter_gets_no_constant unusedReqCtxHandler
           (mkParam (IdentifierName "_req") None)
           [mkParam (IdentifierName "ctx") None] emptyImports false);
    reflexivity.
Defined.

(** X8: an arrow function with an expression body and a sole parameter [req]
    still has its parameter renamed to [ctx], while its body is left as it
    is: no declaration of [req] is put anywhere. *)
Theorem expression_bodied_arrow_is_renamed_only :
  forall (method : FunctionLike) (p : Param) (e : Node)
         (newImports : ImportState) (hasInferredTypes : bool),
    fn_kind method = ArrowFunction ->
    fn_body method = ExpressionBody e ->
    fn_params method = [p] ->
    getName p = "req" ->
    let out := fst (maybePrependReqVar method newImports hasInferredTypes) in
    map getName (fn_params out) = ["ctx"] /\ fn_body out = ExpressionBody e.
Proof.
  intros method p e st inferred Hk Hb Hp Hn out. subst out.
  unfold maybePrependReqVar, rewriteParams. rewrite Hp, Hn, Hk, Hb. cbn.
  destruct (negb (if inferred && isSome (p_type p) then false else inferred));
    split; reflexivity.
Qed.

Lemma expression_bodied_arrow_is_renamed_only_witness :
  map getName (fn_params (fst (maybePrependReqVar expressionHandler emptyImports true)))
    = ["ctx"]
  /\ fn_body (fst (maybePrependReqVar expressionHandler emptyImports true))
     = ExpressionBody newResponse.
Proof.
  apply (expression_bodied_arrow_is_renamed_only expressionHandler
           (mkParam (IdentifierName "req") None)
           newResponse emptyImports true);
    reflexivity.
Defined.

(** X9: for a block-bodied handler [(p0, { e1, ..., en }) => {...}] whose
    pattern ends with one space before its closing brace and whose first
    parameter does not start with an underscore, the first parameter is
    removed and the pattern becomes the old one with every element named
    [remoteAddr] replaced by [info] and [req] added as last element; what
    stood between the separator and the opening brace of the pattern (a
    comment, say) stands there twice afterwards.
    [const remoteAddr = info.remoteAddr] is inserted exactly when some
    element was named [remoteAddr]. *)
Theorem destructured_context_gains_req :
  forall (method : FunctionLike) (p0 p1 : Param) (pat : ObjectBindingPattern)
         (ss : list Node) (newImports : ImportState) (hasInferredTypes : bool),
    fn_params method = [p0; p1] ->
    p_name p1 = ObjectPattern pat ->
    obp_elements pat <> [] ->
    obp_close pat = " " ->
    startsWith (getName p0) "_" = false ->
    fn_body method = BlockBody ss ->
    let out := fst (maybePrependReqVar method newImports hasInferredTypes) in
    map p_name (fn_params out)
      = [ObjectPatternText (obp_leading pat ++ obp_leading pat)
           ("{" ++ obp_open pat
              ++ join ", " (map be_text (map renameRemoteAddr (obp_elements pat)))
              ++ ", req }")]
    /\ fn_body out
       = BlockBody
           (if existsb (fun b => be_name b =? "remoteAddr") (obp_elements pat)
            then constDecl "remoteAddr" info_remoteAddr :: ss
            else ss).
Proof.
  intros method p0 p1 pat ss st inferred Hp Hn He Hc Hu Hb out. subst out.
  unfold maybePrependReqVar, rewriteParams. rewrite Hp, Hn, Hu, Hb.
  cbn [List.length Nat.ltb Nat.leb Nat.eqb orb andb negb].
  destruct (obp_elements pat) as [|b bs] eqn:Ee; [contradiction|].
  rewrite replaceWithText_spliced.
  assert (Ht : slice_0_minus2
                 (patternText
                    (mkPattern (obp_leading pat) (obp_open pat)
                       (map renameRemoteAddr (b :: bs)) (obp_close pat))) ++ ", req }"
               = "{" ++ obp_open pat
                   ++ join ", " (map be_text (map renameRemoteAddr (b :: bs))) ++ ", req }").
  { unfold patternText.
    cbn [obp_leading obp_open obp_elements obp_close]. rewrite Hc.
    transitivity
      (slice_0_minus2
         (("{" ++ obp_open pat
             ++ join ", " (map be_text (map renameRemoteAddr (b :: bs)))) ++ " }")
         ++ ", req }").
    - do 2 f_equal. rewrite !append_assoc. reflexivity.
    - rewrite slice_before_closing_brace, !append_assoc. reflexivity. }
  rewrite Ht. cbn [obp_leading].
  destruct (p_type p1) as [ty|]; [destruct (ty =? "RouteContext")|];
    destruct (fn_kind method);
    cbn [fst fn_params fn_body setFirstName isBlockOrAbsent negb map p_name
         insertVariableStatement0];
    (split; [reflexivity | now destruct (existsb _ (b :: bs))]).
Qed.

Lemma destructured_context_gains_req_witness :
  map p_name (fn_params (fst (maybePrependReqVar commentedHandler emptyImports false)))
    = [ObjectPatternText "/* ctx */ /* ctx */ " "{ params, info, req }"]
  /\ fn_body (fst (maybePrependReqVar commentedHandler emptyImports false))
     = BlockBody [constDecl "remoteAddr" info_remoteAddr; returnResponse].
Proof.
  apply (destructured_context_gains_req commentedHandler
           (mkParam (IdentifierName "req") None)
           (mkParam (ObjectPattern commentedPattern) None)
           commentedPattern [returnResponse] emptyImports false);
    try reflexivity.
  discriminate.
Defined.

(** X10: the normaliser keeps the kind and the name of the function, and the
    only thing it ever registers is [FreshContext] in the core set: the
    runtime and compat sets are left as they are. *)
Theorem normaliser_registers_only_FreshContext :
  forall (method : FunctionLike) (newImports : ImportState) (hasInferredTypes : bool),
    let r := maybePrependReqVar method newImports hasInferredTypes in
    fn_kind (fst r) = fn_kind method
    /\ fn_name (fst r) = fn_name method
    /\ (core (snd r) = core newImports
        \/ core (snd r) = set_add "FreshContext" (core newImports))
    /\ runtime (snd r) = runtime newImports
    /\ compat (snd r) = compat newImports.
Proof.
  intros method st inferred r. subst r.
  destruct (maybePrependReqVar_kind_name method st inferred) as [Hk Hn].
  split; [exact Hk|]. split; [exact Hn|].
  unfold maybePrependReqVar.
  destruct (fn_params method) as [|p0 rest]; [cbn; auto|].
  assert (H : let q := rewriteParams (p0 :: rest)
                          (if inferred && isSome (p_type p0) then false else inferred) st in
              (core (snd q) = core st \/ core (snd q) = set_add "FreshContext" (core st))
              /\ runtime (snd q) = runtime st /\ compat (snd q) = compat st).
  { unfold rewriteParams.
    repeat match goal with
           | |- context [if ?c then _ else _] => destruct c
           | |- context [match ?x with _ => _ end] => destruct x
           end; cbn; auto. }
  cbv zeta in H.
  destruct (rewriteParams _ _ _) as [params1 imports1]. cbn [snd] in H.
  repeat match goal with
         | |- context [if ?c then _ else _] => destruct c
         | |- context [match ?x with _ => _ end] => destruct x
         end; exact H.
Qed.

(** X11: a function that has no parameter, or one parameter called neither
    [req] nor [_req], is returned as it is and nothing is registered. *)
Theorem new_style_handler_is_kept :
  forall (method : FunctionLike) (newImports : ImportState) (hasInferredTypes : bool),
    settledParams (fn_params method) = true ->
    maybePrependReqVar method newImports hasInferredTypes = (method, newImports).
Proof. intros method st inferred H. now apply maybePrependReqVar_settled. Qed.

Lemma new_style_handler_is_kept_witness :
  maybePrependReqVar newStyleHandler emptyImports false = (newStyleHandler, emptyImports).
Proof. apply (new_style_handler_is_kept newStyleHandler emptyImports false). reflexivity. Defined.

(** X27: the splice of [req] into the pattern cuts the last two characters
    of the pattern's text, whatever they are.  For a pattern written without
    white space before its closing brace these are the brace and the last
    character of the last element: when the elements' text is [t] followed by
    a character [c], the new pattern reads [{], [t], [, req }], without
    [c]. *)
Theorem tight_pattern_loses_a_character :
  forall (method : FunctionLike) (p0 p1 : Param) (pat : ObjectBindingPattern)
         (t : string) (c : ascii) (ss : list Node)
         (newImports : ImportState) (hasInferredTypes : bool),
    fn_params method = [p0; p1] ->
    p_name p1 = ObjectPattern pat ->
    obp_elements pat <> [] ->
    obp_close pat = EmptyString ->
    join ", " (map be_text (map renameRemoteAddr (obp_elements pat)))
      = t ++ String c EmptyString ->
    startsWith (getName p0) "_" = false ->
    fn_body method = BlockBody ss ->
    map p_name (fn_params (fst (maybePrependReqVar method newImports hasInferredTypes)))
      = [ObjectPatternText (obp_leading pat ++ obp_leading pat)
           ("{" ++ obp_open pat ++ t ++ ", req }")].
Proof.
  intros method p0 p1 pat t c ss st inferred Hp Hn He Hc Hj Hu Hb.
  unfold maybePrependReqVar, rewriteParams. rewrite Hp, Hn, Hu, Hb.
  cbn [List.length Nat.ltb Nat.leb Nat.eqb orb andb negb].
  destruct (obp_elements pat) as [|b bs] eqn:Ee; [contradiction|].
  rewrite replaceWithText_spliced.
  assert (Ht : slice_0_minus2
                 (patternText
                    (mkPattern (obp_leading pat) (obp_open pat)
                       (map renameRemoteAddr (b :: bs)) (obp_close pat))) ++ ", req }"
               = "{" ++ obp_open pat ++ t ++ ", req }").
  { unfold patternText.
    cbn [obp_leading obp_open obp_elements obp_close]. rewrite Hc, Hj.
    replace ("{" ++ obp_open pat ++ (t ++ String c EmptyString) ++ EmptyString ++ "}")
      with (("{" ++ obp_open pat ++ t) ++ String c "}")
      by (rewrite !append_assoc; reflexivity).
    rewrite slice_two_characters, !append_assoc. reflexivity. }
  rewrite Ht. cbn [obp_leading].
  destruct (p_type p1) as [ty|]; [destruct (ty =? "RouteContext")|];
    destruct (fn_kind method);
    cbn [fst fn_params fn_body setFirstName isBlockOrAbsent negb map p_name
         insertVariableStatement0];
    reflexivity.
Qed.

Lemma tight_pattern_loses_a_character_witness :
  map p_name (fn_params (fst (maybePrependReqVar tightHandler emptyImports false)))
    = [ObjectPatternText EmptyString "{inf, req }"].
Proof.
  apply (tight_pattern_loses_a_character tightHandler
           (mkParam (IdentifierName "req") None)
           (mkParam (ObjectPattern tightPattern) None)
           tightPattern "inf" "o"%char [returnResponse] emptyImports false);
    try reflexivity.
  discriminate.
Defined.

End NormaliserFacts.

(** ** More on the import loop *)

Module ImportLoopFacts.
Import Imports File Examples ImportFacts FileFacts.



Lemma in_set_add_same : forall x s, In x (set_add x s).
Proof.
  intros x s. unfold set_add. destruct (set_has x s) eqn:E.
  - unfold set_has in E. apply existsb_exists in E as (y & Hy & Heq).
    apply String.eqb_eq in Heq. now subst.
  - apply in_or_app. right. now left.
Qed.

Lemma in_set_add_other : forall x y s, In y s -> In y (set_add x s).
Proof.
  intros x y s H. unfold set_add. destruct (set_has x s); [exact H|].
  apply in_or_app. now left.
Qed.

(** The named imports of a legacy server declaration, one by one: what was
    kept stays kept, the compat set only grows, and each name goes to one of
    the two. *)
Lemma serverNamedStep_fold :
  forall names st acc,
    let r := fold_left serverNamedStep names (st, acc) in
    (forall n, In n acc -> In n (snd r))
    /\ (forall x, In x (compat st) -> In x (compat (fst r)))
    /\ (forall n, In n names ->
          if set_has (ni_name n) compatNames
          then In (ni_name n) (compat (fst r))
          else In n (snd r)).
Proof.
  induction names as [|m names IH]; intros st acc r; subst r.
  - cbn. repeat split; auto. intros n [].
  - cbn [fold_left].
    assert (Hstep :
      serverNamedStep (st, acc) m
        = if set_has (ni_name m) compatNames
          then (mkImportState (set_delete (ni_name m) (core st)) (runtime st)
                  (set_add (ni_name m) (compat st)), acc)
          else (mkImportState (set_delete (ni_name m) (core st)) (runtime st)
                  (compat st), (acc ++ [m])%list)).
    { unfold serverNamedStep. cbn. now destruct (set_has (ni_name m) compatNames). }
    rewrite Hstep. clear Hstep.
    destruct (set_has (ni_name m) compatNames) eqn:Em.
    + destruct (IH (mkImportState (set_delete (ni_name m) (core st)) (runtime st)
                      (set_add (ni_name m) (compat st))) acc)
        as (Hacc & Hcompat & Hnames).
      cbn [compat] in Hcompat.
      repeat split.
      * exact Hacc.
      * intros x Hx. apply Hcompat. now apply in_set_add_other.
      * intros n [<- | Hn]; [|now apply Hnames].
        rewrite Em. apply Hcompat. apply in_set_add_same.
    + destruct (IH (mkImportState (set_delete (ni_name m) (core st)) (runtime st)
                      (compat st)) (acc ++ [m])%list)
        as (Hacc & Hcompat & Hnames).
      cbn [compat] in Hcompat.
      repeat split.
      * intros n Hn. apply Hacc. apply in_or_app. now left.
      * exact Hcompat.
      * intros n [<- | Hn]; [|now apply Hnames].
        rewrite Em. apply Hacc. apply in_or_app. right. now left.
Qed.

Lemma importStep_keeps_decls :
  forall ls d x, In x (ls_decls ls) -> In x (ls_decls (importStepDone ls d)).
Proof.
  intros ls d x H. destruct (importStep_appends ls d) as (out & -> & _).
  apply in_or_app. now left.
Qed.

Lemma importStep_keeps_compat :
  forall ls d x,
    In x (compat (ls_imports ls)) -> In x (compat (ls_imports (importStepDone ls d))).
Proof.
  intros ls d x H. unfold importStepDone.
  destruct (moduleSpecifier d =? "preact"); [exact H|].
  destruct (moduleSpecifier d =? "$fresh/server.ts").
  - cbn [ls_imports].
    now apply (proj1 (proj2 (serverNamedStep_fold (namedImports d) (ls_imports ls) []))).
  - destruct (moduleSpecifier d =? "$fresh/runtime.ts"); [|exact H].
    cbn [ls_imports].
    assert (Hc : forall names st,
               compat (fold_left runtimeNamedStep names st) = compat st).
    { induction names as [|m names IHn]; intros st; [reflexivity|].
      cbn [fold_left]. now rewrite IHn. }
    now rewrite Hc.
Qed.

Lemma importLoop_keeps :
  forall decls ls,
    (forall x, In x (ls_decls ls) -> In x (ls_decls (fold_left importStepDone decls ls)))
    /\ (forall x, In x (compat (ls_imports ls)) ->
                  In x (compat (ls_imports (fold_left importStepDone decls ls)))).
Proof.
  induction decls as [|d decls IH]; intros ls; [cbn; auto|].
  cbn [fold_left]. destruct (IH (importStepDone ls d)) as [Hd Hc]. split.
  - intros x Hx. now apply Hd, importStep_keeps_decls.
  - intros x Hx. now apply Hc, importStep_keeps_compat.
Qed.

Lemma in_rewriteImports_of_loop :
  forall st decls x,
    In x (ls_decls (importLoopDone st decls)) -> In x (rewriteImportsDone st decls).
Proof. intros st decls x H. unfold rewriteImportsDone. apply in_or_app. now left. Qed.

(** What the loop holds after a declaration of the list was handled stays
    in the final state. *)
Lemma after_step_kept :
  forall st l1 d l2,
    let ls1 := fold_left importStepDone l1 (startOfLoop st) in
    (forall x, In x (ls_decls (importStepDone ls1 d)) ->
               In x (ls_decls (importLoopDone st (l1 ++ d :: l2))))
    /\ (forall x, In x (compat (ls_imports (importStepDone ls1 d))) ->
                  In x (compat (ls_imports (importLoopDone st (l1 ++ d :: l2))))).
Proof.
  intros st l1 d l2 ls1. unfold importLoopDone.
  rewrite fold_left_app. cbn [fold_left]. fold ls1.
  apply importLoop_keeps.
Qed.

Lemma server_step :
  forall ls d,
    moduleSpecifier d = "$fresh/server.ts" ->
    let r := fold_left serverNamedStep (namedImports d) (ls_imports ls, []) in
    ls_imports (importStepDone ls d) = fst r
    /\ ls_decls (importStepDone ls d)
       = (ls_decls ls
            ++ removeEmptyImport
                 (withNamedImports (core (fst r))
                    (setNamedImports (snd r) (setModuleSpecifier "fresh" d))))%list.
Proof.
  intros ls d H r. subst r. unfold importStepDone. rewrite H. cbn. auto.
Qed.

Lemma runtime_step :
  forall ls d,
    moduleSpecifier d = "$fresh/runtime.ts" ->
    ls_decls (importStepDone ls d)
      = (ls_decls ls
           ++ removeEmptyImport
                (withNamedImports
                   (runtime (fold_left runtimeNamedStep (namedImports d) (ls_imports ls)))
                   (setModuleSpecifier "fresh/runtime" d)))%list.
Proof. intros ls d H. unfold importStepDone. rewrite H. cbn. auto. Qed.

Lemma removeEmptyImport_named :
  forall d n, In n (namedImports d) -> removeEmptyImport d = [d].
Proof.
  intros d n H. unfold removeEmptyImport, isEmptyImport.
  destruct (namedImports d); [destruct H | reflexivity].
Qed.

(** X13: no named import of a legacy ["$fresh/server.ts"] declaration is
    lost.  A name of the compatibility list is imported, without its alias,
    by the ["fresh/compat"] declaration of the result; any other named
    import, alias included, is in a declaration of the result whose
    specifier is ["fresh"]. *)
Theorem server_import_names_are_kept :
  forall st decls out d n,
    rewriteImports st decls = Ok out ->
    In d decls ->
    moduleSpecifier d = "$fresh/server.ts" ->
    In n (namedImports d) ->
    exists d',
      In d' out
      /\ if set_has (ni_name n) compatNames
         then moduleSpecifier d' = "fresh/compat"
              /\ In (mkNamed (ni_name n) None) (namedImports d')
         else moduleSpecifier d' = "fresh" /\ In n (namedImports d').
Proof.
  intros st decls out d n Hout Hd Hs Hn.
  apply rewriteImports_done in Hout. subst out.
  apply in_split in Hd as (l1 & l2 & ->).
  destruct (after_step_kept st l1 d l2) as [Hdecls Hcompat].
  set (ls1 := fold_left importStepDone l1 (startOfLoop st)) in *.
  destruct (server_step ls1 d Hs) as [Hi Hl].
  destruct (serverNamedStep_fold (namedImports d) (ls_imports ls1) []) as (_ & _ & Hnames).
  specialize (Hnames n Hn).
  set (r := fold_left serverNamedStep (namedImports d) (ls_imports ls1, [])) in *.
  destruct (set_has (ni_name n) compatNames).
  - (* a compatibility name *)
    assert (Hin : In (ni_name n)
                    (compat (ls_imports (importLoopDone st (l1 ++ d :: l2))))).
    { apply Hcompat. now rewrite Hi. }
    exists (synthesized "fresh/compat"
              (compat (ls_imports (importLoopDone st (l1 ++ d :: l2))))).
    split; [|split; [reflexivity|]].
    + unfold rewriteImportsDone, synthesizeImports. apply in_or_app. right.
      apply in_or_app. right. apply in_or_app. right.
      destruct (compat (ls_imports (importLoopDone st (l1 ++ d :: l2))));
        [destruct Hin | now left].
    + cbn [synthesized namedImports].
      now apply (in_map (fun x => mkNamed x None)).
  - (* any other name *)
    set (d2 := withNamedImports (core (fst r))
                 (setNamedImports (snd r) (setModuleSpecifier "fresh" d))) in *.
    assert (Hn2 : In n (namedImports d2)).
    { subst d2. cbn [withNamedImports namedImports]. apply in_or_app. now left. }
    exists d2. split; [|split; [reflexivity | exact Hn2]].
    apply in_rewriteImports_of_loop, Hdecls. rewrite Hl.
    apply in_or_app. right. rewrite (removeEmptyImport_named d2 n Hn2). now left.
Qed.

Lemma server_import_names_are_kept_witness :
  exists d',
    In d' (rewriteImportsDone emptyImports [signalsImport; serverImport])
    /\ moduleSpecifier d' = "fresh/compat"
    /\ In (mkNamed "Handlers" None) (namedImports d').
Proof.
  apply (server_import_names_are_kept emptyImports [signalsImport; serverImport]
           (rewriteImportsDone emptyImports [signalsImport; serverImport])
           serverImport (mkNamed "Handlers" (Some "H"))).
  - reflexivity.
  - right. now left.
  - reflexivity.
  - now left.
Defined.

(** X14: no named import of a legacy ["$fresh/runtime.ts"] declaration is
    lost: each one, alias included, is in a declaration of the result whose
    specifier is ["fresh/runtime"]. *)
Theorem runtime_import_names_are_kept :
  forall st decls out d n,
    rewriteImports st decls = Ok out ->
    In d decls ->
    moduleSpecifier d = "$fresh/runtime.ts" ->
    In n (namedImports d) ->
    exists d',
      In d' out
      /\ moduleSpecifier d' = "fresh/runtime"
      /\ In n (namedImports d').
Proof.
  intros st decls out d n Hout Hd Hs Hn.
  apply rewriteImports_done in Hout. subst out.
  apply in_split in Hd as (l1 & l2 & ->).
  destruct (after_step_kept st l1 d l2) as [Hdecls _].
  set (ls1 := fold_left importStepDone l1 (startOfLoop st)) in *.
  pose proof (runtime_step ls1 d Hs) as Hl.
  set (d2 := withNamedImports
               (runtime (fold_left runtimeNamedStep (namedImports d) (ls_imports ls1)))
               (setModuleSpecifier "fresh/runtime" d)) in *.
  assert (Hn2 : In n (namedImports d2)).
  { subst d2. cbn [withNamedImports namedImports setModuleSpecifier].
    apply in_or_app. now left. }
  exists d2. split; [|split; [reflexivity | exact Hn2]].
  apply in_rewriteImports_of_loop, Hdecls. rewrite Hl.
  apply in_or_app. right. rewrite (removeEmptyImport_named d2 n Hn2). now left.
Qed.

Lemma runtime_import_names_are_kept_witness :
  exists d',
    In d' (rewriteImportsDone emptyImports [runtimeImport])
    /\ moduleSpecifier d' = "fresh/runtime"
    /\ In (mkNamed "IS_BROWSER" None) (namedImports d').
Proof.
  apply (runtime_import_names_are_kept emptyImports [runtimeImport]
           (rewriteImportsDone emptyImports [runtimeImport])
           runtimeImport (mkNamed "IS_BROWSER" None)).
  - reflexivity.
  - now left.
  - reflexivity.
  - now left.
Defined.

(** X15: an import declaration whose specifier is none of ["preact"],
    ["$fresh/server.ts"] and ["$fresh/runtime.ts"] is in the result as it
    was. *)
Theorem unrelated_import_is_kept :
  forall st decls out d,
    rewriteImports st decls = Ok out ->
    In d decls ->
    (moduleSpecifier d =? "preact") = false ->
    (moduleSpecifier d =? "$fresh/server.ts") = false ->
    (moduleSpecifier d =? "$fresh/runtime.ts") = false ->
    In d out.
Proof.
  intros st decls out d Hout Hd Hp Hs Hr.
  apply rewriteImports_done in Hout. subst out.
  apply in_split in Hd as (l1 & l2 & ->).
  destruct (after_step_kept st l1 d l2) as [Hdecls _].
  apply in_rewriteImports_of_loop, Hdecls.
  unfold importStepDone. rewrite Hp, Hs, Hr. cbn [ls_decls].
  apply in_or_app. right. now left.
Qed.

Lemma unrelated_import_is_kept_witness :
  In signalsImport (rewriteImportsDone emptyImports [signalsImport; serverImport]).
Proof.
  apply (unrelated_import_is_kept emptyImports [signalsImport; serverImport]
           (rewriteImportsDone emptyImports [signalsImport; serverImport]) signalsImport);
    try reflexivity.
  now left.
Defined.

Lemma importLoop_origin :
  forall decls ls x,
    In x (ls_decls (fold_left importStepDone decls ls)) ->
    In x (ls_decls ls)
    \/ exists d, In d decls /\ moduleSpecifier x = renamed (moduleSpecifier d).
Proof.
  induction decls as [|d decls IH]; intros ls x H; [now left|].
  cbn [fold_left] in H. apply IH in H as [H | (d0 & Hd0 & Hx)].
  - destruct (importStep_appends ls d) as (out & Hout & Hcases & _).
    rewrite Hout in H. apply in_app_or in H as [H | H]; [now left|].
    right. exists d. split; [now left|].
    destruct Hcases as [-> | (d' & -> & Hd')]; [destruct H|].
    destruct H as [<- | []]. exact Hd'.
  - right. exists d0. split; [now right | exact Hx].
Qed.

(** X16: [updateFile] never adds a ["fresh/runtime"] import of its own: a
    declaration with that specifier in the result of a completed run comes
    from a declaration of the file as it was scanned, after the directive
    lines were removed, whose specifier was ["$fresh/runtime.ts"] or already
    ["fresh/runtime"]. *)
Theorem runtime_import_is_never_synthesised :
  forall (parse : string -> SourceFile) (sf sf1 : SourceFile) (m : bool) d',
    updateFile parse sf = Ok (sf1, m) ->
    In d' (sf_imports sf1) ->
    moduleSpecifier d' = "fresh/runtime" ->
    exists d,
      In d (sf_imports (withoutDirectives parse sf))
      /\ (moduleSpecifier d = "$fresh/runtime.ts" \/ moduleSpecifier d = "fresh/runtime").
Proof.
  intros parse sf sf1 m d' H Hin Hs.
  destruct (updateFile_result parse sf sf1 m H) as (_ & -> & _).
  cbn [sf_imports] in Hin.
  set (scanned := withoutDirectives parse sf) in *.
  set (st := snd (rewriteHandlers scanned)) in *.
  unfold rewriteImportsDone in Hin. apply in_app_or in Hin as [Hin | Hin].
  - unfold importLoopDone in Hin.
    apply importLoop_origin in Hin as [[] | (d & Hd & Hx)].
    exists d. split; [exact Hd|].
    rewrite Hs in Hx. unfold renamed in Hx.
    destruct (moduleSpecifier d =? "$fresh/server.ts"); [discriminate Hx|].
    destruct (moduleSpecifier d =? "$fresh/runtime.ts") eqn:Er.
    + left. now apply String.eqb_eq.
    + right. now symmetry.
  - exfalso. unfold synthesizeImports in Hin.
    assert (Hr : runtime (ls_imports (importLoopDone st (sf_imports scanned))) = []).
    { unfold importLoopDone. apply importLoop_runtime_empty.
      cbn [startOfLoop ls_imports]. apply rewriteHandlers_runtime. }
    rewrite Hr in Hin. cbn [nonEmpty] in Hin. rewrite Bool.andb_false_r in Hin.
    cbn [app] in Hin.
    apply in_app_or in Hin as [Hin | Hin].
    + destruct (negb _ && nonEmpty _); [|destruct Hin].
      destruct Hin as [<- | []]. discriminate Hs.
    + destruct (nonEmpty _); [|destruct Hin].
      destruct Hin as [<- | []]. discriminate Hs.
Qed.

Lemma runtime_import_is_never_synthesised_witness :
  exists d,
    In d (sf_imports (withoutDirectives parseComments islandCounter))
    /\ (moduleSpecifier d = "$fresh/runtime.ts" \/ moduleSpecifier d = "fresh/runtime").
Proof.
  apply (runtime_import_is_never_synthesised parseComments islandCounter
           (mkSourceFile "/app/islands/Counter.tsx" EmptyString
              [mkImport "fresh/runtime" None None [mkNamed "IS_BROWSER" None]] [])
           true
           (mkImport "fresh/runtime" None None [mkNamed "IS_BROWSER" None])).
  - reflexivity.
  - now left.
  - reflexivity.
Defined.

(** X28: a named import of a ["preact"] declaration other than [h] and
    [Fragment] is kept, alias included, in a ["preact"] declaration of the
    result. *)
Theorem preact_import_names_are_kept :
  forall st decls out d n,
    rewriteImports st decls = Ok out ->
    In d decls ->
    moduleSpecifier d = "preact" ->
    In n (namedImports d) ->
    isJsxName (ni_name n) = false ->
    exists d',
      In d' out
      /\ moduleSpecifier d' = "preact"
      /\ In n (namedImports d').
Proof.
  intros st decls out d n Hout Hd Hs Hn Hj.
  apply rewriteImports_done in Hout. subst out.
  apply in_split in Hd as (l1 & l2 & ->).
  destruct (after_step_kept st l1 d l2) as [Hdecls _].
  set (ls1 := fold_left importStepDone l1 (startOfLoop st)) in *.
  set (d2 := setNamedImports
               (filter (fun m => negb (isJsxName (ni_name m))) (namedImports d)) d).
  assert (Hn2 : In n (namedImports d2)).
  { subst d2. cbn [setNamedImports namedImports]. apply filter_In.
    split; [exact Hn | now rewrite Hj]. }
  exists d2. split; [|split; [exact Hs | exact Hn2]].
  apply in_rewriteImports_of_loop, Hdecls.
  unfold importStepDone. rewrite Hs. cbn [String.eqb Ascii.eqb Bool.eqb ls_decls].
  fold d2. apply in_or_app. right.
  rewrite (removeEmptyImport_named d2 n Hn2). now left.
Qed.

Lemma preact_import_names_are_kept_witness :
  exists d',
    In d' (rewriteImportsDone emptyImports [preactImport])
    /\ moduleSpecifier d' = "preact"
    /\ In (mkNamed "render" None) (namedImports d').
Proof.
  apply (preact_import_names_are_kept emptyImports [preactImport]
           (rewriteImportsDone emptyImports [preactImport]) preactImport
           (mkNamed "render" None)).
  - reflexivity.
  - now left.
  - reflexivity.
  - right. now left.
  - reflexivity.
Defined.

Lemma in_set_delete :
  forall x y s, In y s -> (x =? y) = false -> In y (set_delete x s).
Proof.
  intros x y s H E. unfold set_delete. apply filter_In. split; [exact H | now rewrite E].
Qed.

(** A core name either is one of the named imports of the legacy server
    declaration or is still in the core set when its names were handled. *)
Lemma serverNamedStep_core :
  forall x names st acc,
    In x (core st) ->
    let r := fold_left serverNamedStep names (st, acc) in
    (exists n, In n names /\ ni_name n = x) \/ In x (core (fst r)).
Proof.
  intros x. induction names as [|m names IH]; intros st acc H r; subst r.
  - right. exact H.
  - cbn [fold_left].
    destruct (ni_name m =? x) eqn:E.
    + left. exists m. split; [now left | now apply String.eqb_eq].
    + assert (Hstep : In x (core (fst (serverNamedStep (st, acc) m)))).
      { unfold serverNamedStep. cbn [fst snd].
        destruct (set_has (ni_name m) compatNames); cbn [fst core];
          now apply in_set_delete. }
      destruct (serverNamedStep (st, acc) m) as [st1 acc1]. cbn [fst] in Hstep.
      destruct (IH st1 acc1 Hstep) as [(n & Hn & Hx) | Hc].
      * left. exists n. split; [now right | exact Hx].
      * right. exact Hc.
Qed.

Lemma importStep_FreshContext :
  forall decls ls d,
    In d decls ->
    (In "FreshContext" (core (ls_imports ls)) /\ ls_hasCoreImport ls = false)
    \/ (exists d', In d' (ls_decls ls) /\ importsFreshContext decls d') ->
    (In "FreshContext" (core (ls_imports (importStepDone ls d)))
     /\ ls_hasCoreImport (importStepDone ls d) = false)
    \/ (exists d', In d' (ls_decls (importStepDone ls d)) /\ importsFreshContext decls d').
Proof.
  intros decls ls d Hin [[Hc Hh] | (d' & Hd' & Hf)].
  2: { right. exists d'. split; [now apply importStep_keeps_decls | exact Hf]. }
  destruct (moduleSpecifier d =? "$fresh/server.ts") eqn:Es.
  - right. apply String.eqb_eq in Es.
    destruct (server_step ls d Es) as [Hi Hl].
    set (r := fold_left serverNamedStep (namedImports d) (ls_imports ls, [])) in *.
    set (d2 := withNamedImports (core (fst r))
                 (setNamedImports (snd r) (setModuleSpecifier "fresh" d))) in *.
    assert (Hn2 : exists n,
               In n (namedImports d2) /\ ni_name n = "FreshContext"
               /\ (ni_alias n = None
                   \/ exists d0,
                        In d0 decls /\ moduleSpecifier d0 = "$fresh/server.ts"
                        /\ In n (namedImports d0))).
    { destruct (serverNamedStep_core "FreshContext" (namedImports d) (ls_imports ls) [] Hc)
        as [(n & Hn & Hx) | Hcore].
      - exists n. split; [|split; [exact Hx|]].
        + subst d2. cbn [withNamedImports namedImports]. apply in_or_app. left.
          pose proof (proj2 (proj2 (serverNamedStep_fold (namedImports d) (ls_imports ls) []))
                        n Hn) as Hk.
          rewrite Hx in Hk. exact Hk.
        + right. exists d. auto.
      - exists (mkNamed "FreshContext" None). split; [|split; [reflexivity | now left]].
        subst d2. cbn [withNamedImports namedImports]. apply in_or_app. right.
        now apply (in_map (fun x => mkNamed x None)). }
    exists d2. split; [|split; [reflexivity | exact Hn2]].
    rewrite Hl. apply in_or_app. right.
    destruct Hn2 as (n & Hn & _). rewrite (removeEmptyImport_named d2 n Hn). now left.
  - left. unfold importStepDone. rewrite Es.
    destruct (moduleSpecifier d =? "preact"); [now split|].
    destruct (moduleSpecifier d =? "$fresh/runtime.ts"); [|now split].
    cbn [ls_imports ls_hasCoreImport]. split; [|exact Hh].
    assert (Hcore : forall names st,
               core (fold_left runtimeNamedStep names st) = core st).
    { induction names as [|m names IHn]; intros st; [reflexivity|].
      cbn [fold_left]. now rewrite IHn. }
    now rewrite Hcore.
Qed.

Lemma importLoop_FreshContext :
  forall decls l ls,
    incl l decls ->
    (In "FreshContext" (core (ls_imports ls)) /\ ls_hasCoreImport ls = false)
    \/ (exists d', In d' (ls_decls ls) /\ importsFreshContext decls d') ->
    (In "FreshContext" (core (ls_imports (fold_left importStepDone l ls)))
     /\ ls_hasCoreImport (fold_left importStepDone l ls) = false)
    \/ (exists d',
          In d' (ls_decls (fold_left importStepDone l ls)) /\ importsFreshContext decls d').
Proof.
  intros decls. induction l as [|d l IH]; intros ls Hl Hls; [exact Hls|].
  cbn [fold_left]. apply IH.
  - intros x Hx. apply Hl. now right.
  - apply importStep_FreshContext; [|exact Hls]. apply Hl. now left.
Qed.



End ImportLoopFacts.

(** ** More on the per-file pass *)

Module PassFacts.
Import Ast Handler Imports Text File Examples AstFacts ImportFacts FileFacts.

Lemma untouched_entries :
  forall l,
    forallb untouched l = true -> Forall (fun d => rewriteNode d = d) l.
Proof.
  intros l H. apply Forall_forall. intros d Hd.
  apply untouched_rewriteNode. rewrite forallb_forall in H. now apply H.
Qed.

Lemma rewriteFunction_quiet :
  forall f st inferred, quiet f = true -> rewriteFunction f st inferred = (f, st).
Proof.
  intros f st inferred H. unfold quiet in H. apply Bool.andb_true_iff in H as [Hp Hb].
  unfold rewriteFunction.
  assert (Hbody : rewriteBody (fn_body f) = fn_body f).
  { destruct (fn_body f) as [ss|e|]; cbn [rewriteBody bodyEntries] in *;
      [| |reflexivity].
    - now rewrite rewriteCtxMethods_fixed by now apply untouched_entries.
    - f_equal. now apply (proj1 (rewriteDescendants_fixed e)), untouched_entries. }
  rewrite Hbody.
  replace (mkFunction (fn_kind f) (fn_name f) (fn_params f) (fn_body f)) with f
    by now destruct f.
  now apply HandlerFacts.maybePrependReqVar_settled.
Qed.

Lemma rewriteProperty_quiet :
  forall p,
    forallb quiet (rewrittenProperty p) = true -> fixedElement rewriteProperty p.
Proof.
  intros p H done st. unfold rewriteProperty.
  destruct p as [f|name [f|t]|t]; cbn [rewrittenProperty] in H; try reflexivity.
  - destruct (isHttpMethod (fn_name f)); [|reflexivity].
    cbn [forallb] in H. rewrite Bool.andb_true_r in H.
    now rewrite rewriteFunction_quiet.
  - destruct (isFunctionValue f); [|reflexivity].
    cbn [forallb] in H. rewrite Bool.andb_true_r in H.
    now rewrite rewriteFunction_quiet.
Qed.

Lemma rewriteExport_quiet :
  forall name decl st,
    forallb quiet (rewrittenFunctions (name, decl)) = true ->
    rewriteExport name decl st = (decl, st).
Proof.
  intros name decl st H. unfold rewriteExport. unfold rewrittenFunctions in H.
  cbn [fst snd] in H.
  destruct (name =? "handler").
  - destruct decl as [v [|props|t]|f|callee args|t]; try reflexivity.
    + rewrite (loop_fixed _ _ rewriteProperty props [] st); [reflexivity|].
      apply forallb_flat_map in H.
      eapply Forall_impl; [|exact H]. intros p Hp. now apply rewriteProperty_quiet.
    + cbn [forallb] in H. rewrite Bool.andb_true_r in H.
      now rewrite rewriteFunction_quiet.
  - destruct (name =? "default"); [|reflexivity].
    destruct decl as [v init|f|callee args|t]; try reflexivity.
    + cbn [forallb] in H. rewrite Bool.andb_true_r in H.
      now rewrite rewriteFunction_quiet.
    + destruct callee; try reflexivity.
      destruct args as [|[f|n] rest]; try reflexivity.
      destruct (isDefineWrapper text && isFunctionValue f); [|reflexivity].
      cbn [forallb] in H. rewrite Bool.andb_true_r in H.
      now rewrite rewriteFunction_quiet.
Qed.

Lemma rewriteExports_quiet :
  forall exports,
    forallb (fun e => forallb quiet (rewrittenFunctions e)) exports = true ->
    rewriteExports exports = (exports, emptyImports).
Proof.
  intros exports H. unfold rewriteExports.
  rewrite (loop_fixed _ _ rewriteExportStep exports [] emptyImports); [reflexivity|].
  apply Forall_forall. intros [name decl] He done st.
  rewrite forallb_forall in H. specialize (H _ He).
  unfold rewriteExportStep. cbn [fst snd]. now rewrite rewriteExport_quiet.
Qed.



End PassFacts.

(** ** More on the manifest *)

Module EditScriptFacts.
Import Manifest Examples ManifestFacts.

#[local] Hint Rewrite lookup_set_same lookup_del_same : objects.
#[local] Hint Rewrite lookup_set_other lookup_del_other using reflexivity : objects.

Lemma updateAt_result :
  forall parse fs p content fn fs1 r,
    updateAt parse fs p content fn = Ok (fs1, r) ->
    path r = Some p
    /\ (forall q, (q =? p) = false -> fs1 q = fs q)
    /\ (updated r = false -> fs1 = fs).
Proof.
  intros parse fs p content fn fs1 r. unfold updateAt.
  destruct (parse content) as [json|]; [|discriminate].
  destruct (fn json) as [json1|]; [|discriminate].
  destruct (negb _); intros H; injection H as <- <-; cbn.
  - repeat split; [|discriminate]. intros q Hq. unfold writeTextFile. now rewrite Hq.
  - repeat split; auto.
Qed.

(** X19: the manifest update touches one file at most.  Every path but the
    reported one keeps its content; [deno.json], when it is there, is the
    file reported, so [deno.jsonc] is then neither read nor written; no path
    is reported exactly when both are missing; and when [updated] is false
    the file system is the one the run started with. *)
Theorem manifest_update_touches_one_file :
  forall parse fs dir fs1 r,
    updateConfig parse fs dir = Ok (fs1, r) ->
    (forall q, path r <> Some q -> fs1 q = fs q)
    /\ (forall content, fs (dir ++ "/deno.json") = Some content ->
                        path r = Some (dir ++ "/deno.json"))
    /\ (path r = None <->
        fs (dir ++ "/deno.json") = None /\ fs (dir ++ "/deno.jsonc") = None)
    /\ (updated r = false -> fs1 = fs).
Proof.
  intros parse fs dir fs1 r. unfold updateConfig, updateDenoJson.
  assert (Hneq : forall p q : string, Some p <> Some q -> (q =? p) = false).
  { intros p q H. apply String.eqb_neq. intros ->. now apply H. }
  destruct (fs (dir ++ "/deno.json")) as [c|] eqn:E1.
  - intros H. apply updateAt_result in H as (Hp & Hother & Hsame).
    rewrite Hp. split; [|split; [|split; [split|]]].
    + intros q Hq. apply Hother, Hneq, Hq.
    + reflexivity.
    + discriminate.
    + intros [H _]. discriminate H.
    + exact Hsame.
  - destruct (fs (dir ++ "/deno.jsonc")) as [c|] eqn:E2.
    + intros H. apply updateAt_result in H as (Hp & Hother & Hsame).
      rewrite Hp. split; [|split; [|split; [split|]]].
      * intros q Hq. apply Hother, Hneq, Hq.
      * discriminate.
      * discriminate.
      * intros [_ H]. discriminate H.
      * exact Hsame.
    + intros H. injection H as <- <-. cbn. repeat split; auto; discriminate.
Qed.

Lemma manifest_update_touches_one_file_witness :
  writeTextFile legacyProject "/app/deno.json" (stringify updatedManifest ++ nl)
    "/app/main.ts"
  = legacyProject "/app/main.ts".
Proof.
  refine (proj1 (manifest_update_touches_one_file parseExample legacyProject "/app"
                   (writeTextFile legacyProject "/app/deno.json"
                      (stringify updatedManifest ++ nl))
                   (mkUpdateResult true (Some "/app/deno.json")) _) "/app/main.ts" _).
  - vm_compute. reflexivity.
  - cbn. discriminate.
Defined.

(** What the callback does to [imports]: an array is left alone, an object
    is edited, anything else but [null] is replaced by an edited empty
    object. *)
Lemma editConfig_imports :
  forall config config1,
    editConfig config = Ok config1 ->
    (exists items,
        lookup "imports" config = Some (JArray items)
        /\ lookup "imports" config1 = Some (JArray items))
    \/ (exists imports,
          lookup "imports" config1 = Some (JObject (editImports imports))
          /\ (lookup "imports" config = Some (JObject imports)
              \/ (imports = []
                  /\ match lookup "imports" config with
                     | Some (JObject _) | Some (JArray _) | Some JNull => False
                     | _ => True
                     end))).
Proof.
  intros config config1. unfold editConfig.
  assert (Hfinal : forall c v,
            lookup "imports" (del "lock" c) = Some v ->
            match lookup "tasks" (del "lock" c) with
            | Some JNull => Throw "TypeError: Cannot read properties of null"
            | Some (JObject tasks) =>
                Ok (set "tasks" (JObject (editTasks tasks)) (del "lock" c))
            | _ => Ok (del "lock" c)
            end = Ok config1 ->
            lookup "imports" config1 = Some v).
  { intros c v Hv.
    destruct (lookup "tasks" (del "lock" c)) as [[| | | | | |tasks]|];
      intros H; try discriminate H; injection H as <-;
      autorewrite with objects in *; assumption. }
  destruct (lookup "imports" config) as [[| | | | |items|imports]|] eqn:Ei;
    rewrite ?Ei, ?lookup_set_same; try discriminate.
  all: intros H.
  all: try (right; exists []; split; [|right; split; [reflexivity | exact I]];
            eapply Hfinal; [|exact H]; now autorewrite with objects).
  - left. exists items. split; [reflexivity|].
    eapply Hfinal; [|exact H]. now autorewrite with objects.
  - right. exists imports. split; [|now left].
    eapply Hfinal; [|exact H]. now autorewrite with objects.
Qed.

(** X20: after the callback ran, the configuration has no [lock] key, and an
    [imports] object maps [fresh], [preact] and [@preact/signals] to the
    pinned versions and has none of the keys [$fresh/],
    [@preact/signals-core] and [preact-render-to-string].  [imports] is such
    an object unless it was an array, which is left as it was. *)
Theorem manifest_pins_the_new_versions :
  forall config config1,
    editConfig config = Ok config1 ->
    lookup "lock" config1 = None
    /\ ((exists items,
           lookup "imports" config = Some (JArray items)
           /\ lookup "imports" config1 = Some (JArray items))
        \/ (exists imports,
              lookup "imports" config1 = Some (JObject imports)
              /\ lookup "fresh" imports = Some (JString "jsr:@fresh/core@^2.0.0-alpha.34")
              /\ lookup "preact" imports = Some (JString "npm:preact@^10.26.6")
              /\ lookup "@preact/signals" imports
                 = Some (JString "npm:@preact/signals@^2.0.4")
              /\ lookup "$fresh/" imports = None
              /\ lookup "@preact/signals-core" imports = None
              /\ lookup "preact-render-to-string" imports = None)).
Proof.
  intros config config1 H.
  split; [exact (proj1 (proj2 (editConfig_result _ _ H)))|].
  destruct (editConfig_imports _ _ H) as [Harr | (imports & Hi & _)]; [now left|].
  right. exists (editImports imports). split; [exact Hi|].
  unfold editImports. autorewrite with objects. repeat split; reflexivity.
Qed.

Lemma manifest_pins_the_new_versions_witness :
  lookup "lock" [("imports", JObject (editImports []))] = None
  /\ ((exists items,
         lookup "imports" [("lock", JBool false)] = Some (JArray items)
         /\ lookup "imports" [("imports", JObject (editImports []))] = Some (JArray items))
      \/ (exists imports,
            lookup "imports" [("imports", JObject (editImports []))] = Some (JObject imports)
            /\ lookup "fresh" imports = Some (JString "jsr:@fresh/core@^2.0.0-alpha.34")
            /\ lookup "preact" imports = Some (JString "npm:preact@^10.26.6")
            /\ lookup "@preact/signals" imports
               = Some (JString "npm:@preact/signals@^2.0.4")
            /\ lookup "$fresh/" imports = None
            /\ lookup "@preact/signals-core" imports = None
            /\ lookup "preact-render-to-string" imports = None)).
Proof.
  apply (manifest_pins_the_new_versions [("lock", JBool false)]
           [("imports", JObject (editImports []))]).
  reflexivity.
Defined.

#[local] Hint Rewrite taskIs_del_same taskIs_set_same : objects.
#[local] Hint Rewrite taskIs_del_other taskIs_set_other using reflexivity : objects.

Ltac split_keys H :=
  repeat match type of H with
         | (_ || _) = false =>
             let H1 := fresh H in
             apply Bool.orb_false_elim in H; destruct H as [H H1]
         end.

Ltac other_keys :=
  repeat first [ rewrite lookup_del_other by assumption
               | rewrite lookup_set_other by assumption ].

Lemma editImports_other :
  forall k imports,
    isEditedImportKey k = false -> lookup k (editImports imports) = lookup k imports.
Proof.
  intros k imports H. unfold isEditedImportKey in H. split_keys H.
  unfold editImports.
  other_keys. reflexivity.
Qed.

Lemma editTasks_other :
  forall k tasks,
    isEditedTaskKey k = false -> lookup k (editTasks tasks) = lookup k tasks.
Proof.
  intros k tasks H. unfold isEditedTaskKey in H. split_keys H.
  unfold editTasks. cbv zeta.
  repeat match goal with
         | |- context [if ?c then _ else _] => destruct c
         end;
    other_keys; reflexivity.
Qed.

Lemma editConfig_tasks :
  forall config config1 tasks,
    editConfig config = Ok config1 ->
    lookup "tasks" config = Some (JObject tasks) ->
    lookup "tasks" config1 = Some (JObject (editTasks tasks)).
Proof.
  intros config config1 tasks. unfold editConfig. intros H Ht.
  destruct (lookup "imports" config) as [[| | | | |items|imports]|] eqn:Ei;
    rewrite ?Ei, ?lookup_set_same in H; try discriminate H;
    autorewrite with objects in H; rewrite Ht in H;
    injection H as <-; now autorewrite with objects.
Qed.

(** X21: the callback touches nothing else.  Every top-level key other than
    [imports], [lock] and [tasks] keeps its value; in an [imports] object
    every mapping other than the three pinned and the three dropped ones
    keeps its value; in a [tasks] object every task other than [manifest],
    [cli], [update] and [check] keeps its value. *)
Theorem edit_touches_nothing_else :
  forall config config1,
    editConfig config = Ok config1 ->
    (forall k, isEditedTopKey k = false -> lookup k config1 = lookup k config)
    /\ (forall imports imports1 k,
          lookup "imports" config = Some (JObject imports) ->
          lookup "imports" config1 = Some (JObject imports1) ->
          isEditedImportKey k = false ->
          lookup k imports1 = lookup k imports)
    /\ (forall tasks tasks1 k,
          lookup "tasks" config = Some (JObject tasks) ->
          lookup "tasks" config1 = Some (JObject tasks1) ->
          isEditedTaskKey k = false ->
          lookup k tasks1 = lookup k tasks).
Proof.
  intros config config1 H. split; [|split].
  - intros k Hk. unfold isEditedTopKey in Hk. split_keys Hk.
    unfold editConfig in H.
    destruct (lookup "imports" config) as [[| | | | |items|imports]|] eqn:Ei;
      rewrite ?Ei, ?lookup_set_same in H; try discriminate H;
      match type of H with
      | context [lookup "tasks" ?c] =>
          destruct (lookup "tasks" c) as [[| | | | | |tasks]|]
      end;
      try discriminate H; injection H as <-;
      other_keys; reflexivity.
  - intros imports imports1 k Hi Hi1 Hk.
    destruct (editConfig_imports _ _ H) as [(items & E & _) | (im & E1 & [E | [_ E]])].
    + rewrite Hi in E. discriminate E.
    + rewrite Hi in E. injection E as <-. rewrite Hi1 in E1. injection E1 as ->.
      now apply editImports_other.
    + now rewrite Hi in E.
  - intros tasks tasks1 k Ht Ht1 Hk.
    rewrite (editConfig_tasks _ _ _ H Ht) in Ht1. injection Ht1 as <-.
    now apply editTasks_other.
Qed.

Lemma edit_touches_nothing_else_witness :
  lookup "name" [("name", JString "app"); ("imports", JObject (editImports []))]
    = lookup "name" [("name", JString "app"); ("lock", JBool false)].
Proof.
  refine (proj1 (edit_touches_nothing_else
                   [("name", JString "app"); ("lock", JBool false)]
                   [("name", JString "app"); ("imports", JObject (editImports []))] _)
            "name" _);
    reflexivity.
Defined.

(** X22: the callback throws exactly when [imports] is [null] or [tasks] is
    [null]; any other configuration is edited. *)
Theorem edit_throws_exactly_on_null :
  forall config,
    (exists m, editConfig config = Throw m)
    <-> (lookup "imports" config = Some JNull \/ lookup "tasks" config = Some JNull).
Proof.
  intros config. unfold editConfig.
  destruct (lookup "imports" config) as [[| | | | |items|imports]|] eqn:Ei;
    rewrite ?Ei, ?lookup_set_same.
  2: { split; [now left | intros _; eauto]. }
  all: autorewrite with objects.
  all: destruct (lookup "tasks" config) as [[| | | | | |tasks]|] eqn:Et.
  all: split;
    [ intros [m Hm]; try discriminate Hm; now right
    | intros [Hx | Hx]; try discriminate Hx; eauto ].
Qed.

(** X23: what becomes of the four tasks the script knows.  [manifest] and
    [cli] are deleted when they hold a legacy command line and kept
    otherwise; [update] and [check] are replaced by the new command line when
    they hold the legacy one and kept otherwise. *)
Theorem legacy_tasks_are_replaced :
  forall tasks,
    lookup "manifest" (editTasks tasks)
      = (if taskIs "manifest" "deno task cli manifest $(pwd)" tasks
         then None else lookup "manifest" tasks)
    /\ lookup "cli" (editTasks tasks)
       = (if taskIs "cli" cliTask1 tasks || taskIs "cli" cliTask2 tasks
          then None else lookup "cli" tasks)
    /\ lookup "update" (editTasks tasks)
       = (if taskIs "update" "deno run -A -r https://fresh.deno.dev/update ." tasks
          then Some (JString "deno run -A -r jsr:@fresh/update .")
          else lookup "update" tasks)
    /\ lookup "check" (editTasks tasks)
       = (if taskIs "check"
               "deno fmt --check && deno lint && deno check **/*.ts && deno check **/*.tsx"
               tasks
          then Some (JString "deno fmt --check && deno lint && deno check")
          else lookup "check" tasks).
Proof.
  intros tasks. unfold editTasks. cbv zeta.
  destruct (taskIs "manifest" "deno task cli manifest $(pwd)" tasks) eqn:E1;
    autorewrite with objects;
    destruct (taskIs "cli" cliTask1 tasks || taskIs "cli" cliTask2 tasks) eqn:E2;
    autorewrite with objects;
    destruct (taskIs "update" "deno run -A -r https://fresh.deno.dev/update ." tasks)
      eqn:E3;
    autorewrite with objects;
    destruct (taskIs "check"
                "deno fmt --check && deno lint && deno check **/*.ts && deno check **/*.tsx"
                tasks) eqn:E4;
    autorewrite with objects;
    repeat split; reflexivity.
Qed.

End EditScriptFacts.

(** ** More on the project driver and the command line *)

Module SummaryFacts.
Import File Project Examples ProjectFacts.

(** X24: [filesModified] is the number of files whose task did not throw and
    for which [updateFile] returned true; it never exceeds [filesProcessed]. *)
Theorem modified_files_are_counted :
  forall (parseSource : string -> SourceFile) (failure : SourceFile -> option string)
         (sfs : list SourceFile) (configUpdated : bool),
    let r := summary configUpdated (phase2 parseSource failure sfs) in
    filesModified r = List.length (filter (reportsModified parseSource failure) sfs)
    /\ filesModified r <= filesProcessed r.
Proof.
  intros parseSource failure sfs c r. subst r.
  rewrite summary_of_phase2. cbn [filesModified filesProcessed].
  split; [reflexivity|].
  induction sfs as [|sf sfs IH]; [cbn; lia|].
  cbn [filter]. unfold reportsModified, fails in *.
  destruct (awaitUpdateFile parseSource failure sf) as [[|]|];
    cbn [negb List.length]; lia.
Qed.

(** X25: in a directory with neither [deno.json] nor [deno.jsonc] the update
    does not fail: it reports the configuration as not updated and goes on
    to the source files, each of which is either processed or counted as an
    error. *)
Theorem project_without_manifest_is_updated :
  forall parseSource failure parse fs dir sfs,
    fs (dir ++ "/deno.json") = None ->
    fs (dir ++ "/deno.jsonc") = None ->
    exists r,
      updateProject parseSource failure parse fs dir sfs = Ok r
      /\ configUpdated r = false
      /\ filesProcessed r + errors r = List.length sfs.
Proof.
  intros parseSource failure parse fs dir sfs H1 H2.
  unfold updateProject, Manifest.updateConfig, Manifest.updateDenoJson.
  rewrite H1, H2. cbn [Manifest.updated].
  eexists. split; [reflexivity|]. split; [reflexivity|].
  rewrite summary_of_phase2. cbn [filesProcessed errors].
  rewrite Nat.add_comm. apply failing_and_others.
Qed.

Lemma project_without_manifest_is_updated_witness :
  exists r,
    updateProject parseComments savesAll parseExample (fun _ => None) "/app"
        [migratedRoute] = Ok r
    /\ configUpdated r = false
    /\ filesProcessed r + errors r = 1.
Proof.
  apply (project_without_manifest_is_updated parseComments savesAll parseExample
           (fun _ => None) "/app" [migratedRoute]);
    reflexivity.
Defined.

End SummaryFacts.

Module CliFacts.
Import Cli Examples.



End CliFacts.
